(** * The data node coordinator of ZanRedisDB

    A shallow embedding of [cluster/datanode_coord/data_node_coordinator.go]
    and the properties of its placement predicates, membership reconciler,
    join protocol, configuration builder, shutdown and statistics.

    Conventions of the embedding.
    - Go's [uint64], [int64], [int32] and [int] values are [Z]; where the
      source does machine arithmetic the wrap-around is written out
      ([wrap64], [wrap32]).
    - A Go [map[string]V] is an association list [list (string * V)].  The
      order of the list is the order in which a [range] loop visits the
      map, which Go leaves unspecified: every statement below holds for
      every order.  Indexing takes the first binding of a key.
    - Calls into collaborators whose effect is observable (proposals to the
      raft group, leader transfer, destroy, peer HTTP posts, the debounced
      nudge) are recorded as a trace of [Event]s, in program order.
    - The collaborators that the coordinator only reads (the registry, the
      peers' member listing, the local namespace manager) are variables of
      the section [Coordinator]. *)

From Stdlib Require Import ZArith List String Bool Lia DecimalString.
From Stdlib Require DecimalPos DecimalZ.
Import ListNotations.

Open Scope string_scope.
Open Scope list_scope.
Open Scope Z_scope.

Set Default Proof Using "Type".

(** ** Machine integers *)

Definition wrap64 (z : Z) : Z := z mod 2 ^ 64.

(** [int32] two's complement wrap-around, as [atomic.AddInt32] does it. *)
Definition wrap32 (z : Z) : Z := (z + 2 ^ 31) mod 2 ^ 32 - 2 ^ 31.

(** [strconv.Itoa]. *)
Definition Itoa (i : Z) : string := NilZero.string_of_int (Z.to_int i).

(** ** Go maps keyed by strings *)

Section GoMap.
Context {V : Type}.

(** [v, ok := m[k]] *)
Fixpoint mapGet (k : string) (m : list (string * V)) : option V :=
  match m with
  | [] => None
  | (k', v) :: rest => if String.eqb k' k then Some v else mapGet k rest
  end.

Lemma mapGet_In k m v : mapGet k m = Some v -> In (k, v) m.
Proof.
  induction m as [|[k' v'] rest IH]; simpl; [discriminate|].
  destruct (String.eqb k' k) eqn:E.
  - intros [= ->]. apply String.eqb_eq in E. subst. now left.
  - intros H. right. now apply IH.
Qed.
End GoMap.

(** ** Data model *)

Module MemberInfo.
(** [common.MemberInfo] *)
Record t := mk
  { ID : Z;
    NodeID : Z;
    GroupID : Z;
    GroupName : string;
    RaftURLs : list string }.
End MemberInfo.

Module RemovingInfo.
Record t := mk { RemoveReplicaID : Z }.
End RemovingInfo.

Module NodeInfo.
Record t := mk
  { ID : string;
    RegID : Z;
    NodeIP : string;
    HttpPort : string;
    RaftTransportAddr : string;
    DataRoot : string;
    RsyncModule : string;
    Epoch : Z }.

Definition GetID (n : t) : string := ID n.
End NodeInfo.

Module PartitionMetaInfo.
Record t := mk
  { Name : string;
    Partition : Z;
    Replica : Z;
    PartitionNum : Z;
    MinGID : Z;
    EngType : string;
    MagicCode : Z;
    RaftNodes : list string;
    ISR : list string;
    RaftIDs : list (string * Z);
    Removings : list (string * RemovingInfo.t) }.

(** Modelled from the spec: [GetDesp] is declared in the [cluster]
    package; the spec gives [Desp = Namespace + "-" + Partition]. *)
Definition GetDesp (p : t) : string :=
  (Name p ++ "-" ++ Itoa (Partition p))%string.

(** Modelled from the spec: [GetISR] is declared in the [cluster]
    package; the spec's data model has [ISR] as the ordered sequence of
    in-sync replicas of the partition. *)
Definition GetISR (p : t) : list string := ISR p.

(** [nsInfo.RaftIDs[nid]] read without the [ok] flag: the zero value
    when the key is absent. *)
Definition RaftID (p : t) (nid : string) : Z :=
  match mapGet nid (RaftIDs p) with
  | Some rid => rid
  | None => 0
  end.
End PartitionMetaInfo.

Module NamespaceMetaInfo.
(** The namespace-wide meta of the registry; this file reads only
    [PartitionNum]. *)
Record t := mk { PartitionNum : Z }.
End NamespaceMetaInfo.

Module NamespaceNode.
(** What the coordinator reads from a local replica
    ([node.NamespaceNode]) during one pass: [GetMembers],
    [GetLeadMember] ([nil] is [None]), [GetLocalMemberInfo], [IsReady],
    and the error, if any, with which [ProposeRemoveMember] answers. *)
Record t := mk
  { Members : list MemberInfo.t;
    LeadMember : option MemberInfo.t;
    LocalMemberInfo : MemberInfo.t;
    Ready : bool;
    ProposeRemoveErr : option string }.
End NamespaceNode.

Module ReplicaInfo.
(** [node.ReplicaInfo] *)
Record t := mk { NodeID : Z; ReplicaID : Z; RaftAddr : string }.
End ReplicaInfo.

Module NamespaceConfig.
(** The fields of [node.NamespaceConfig] that [prepareNamespaceConf]
    sets; [GroupID] and [SeedNodes] are those of its [RaftGroupConf]. *)
Record t := mk
  { BaseName : string;
    Name : string;
    EngType : string;
    PartitionNum : Z;
    Replicator : Z;
    GroupID : Z;
    SeedNodes : list ReplicaInfo.t }.
End NamespaceConfig.

Module ISRStat.
Record t := mk { HostName : string; NodeID : string }.
End ISRStat.

Module NamespaceCoordStat.
Record t := mk
  { Name : string;
    Partition : Z;
    ISRStats : list ISRStat.t }.
End NamespaceCoordStat.

Module JoinObs.
(** What one turn of the retry loop of [ensureJoinNamespaceGroup]
    observes: the members the local replica reports, whether it is
    synced, and whether [stopChan] is closed before the half-second
    timer of the turn fires. *)
Record t := mk
  { Members : list MemberInfo.t;
    RaftSynced : bool;
    Stopped : bool }.
End JoinObs.

Module DataCoordinator.
(** The fields of [DataCoordinator] that [Stop] reads or writes:
    whether [register] and [localNSMgr] are non-nil, the [stopping]
    flag, and whether [stopChan] has been closed. *)
Record t := mk
  { hasRegister : bool;
    hasNSMgr : bool;
    stopping : Z;
    stopChanClosed : bool }.
End DataCoordinator.

(** Errors of the registry: the sentinel and everything else. *)
Inductive RegisterErr :=
| ErrKeyNotFound
| ErrRegister (msg : string).

(** The coordinator's own errors ([*CoordErr]; [nil] is [None]). *)
Inductive CoordErr :=
| ErrNamespaceNotReady
| ErrNamespaceNotCreated
| ErrNamespaceConfInvalid
| ErrCatchupRunningBusy
| ErrNamespaceWaitingSync
| ErrNamespaceExiting
| ErrLocalInitNamespaceFailed
| ErrLocal (msg : string)
| ErrCoordRegister (err : RegisterErr).

(** The calls with an effect outside the coordinator. *)
Inductive Event :=
| ProposeAddMember (m : MemberInfo.t)
| ProposeRemoveMember (m : MemberInfo.t)
| TransferMyLeader (toNode toRaftID : Z)
| Destroy (n : NamespaceNode.t)
| Close (n : NamespaceNode.t)
| TryCheckNamespaces
| PostAddNode (remote : string) (m : MemberInfo.t)
| IsRaftSynced
| SetDataFixState (needFix : bool)
| StopNamespaceMgr
| Unregister
| StopRegister
| CloseStopChan
| WaitWorkers.

(** What a call does: it returns, or it panics (a nil dereference, a
    division by zero, closing a closed channel). *)
Inductive Outcome (A : Type) :=
| Returns (a : A)
| Panics.

Arguments Returns {A} a.
Arguments Panics {A}.

Definition bindOutcome {A B : Type} (o : Outcome A) (k : A -> Outcome B)
    : Outcome B :=
  match o with
  | Returns a => k a
  | Panics => Panics
  end.

Notation "x <- o ;; k" := (bindOutcome o (fun x => k))
  (at level 61, o at next level, right associativity).

(** How one turn of the retry loop of [ensureJoinNamespaceGroup] ends. *)
Inductive RoundOutcome :=
| RoundSynced    (* joinErr = nil; break *)
| RoundExiting   (* return ErrNamespaceExiting *)
| RoundRetry     (* joinErr = ErrNamespaceWaitingSync; next turn *)
| RoundPanic.    (* retry % len(isr) with an empty isr *)

(** Modelled from the spec: [FindSlice] is declared in the [cluster]
    package; the coordinator compares its result with [-1] to ask whether
    the element occurs (the spec: "self is not in meta.RaftNodes"), so it
    is the index of the first occurrence, or [-1]. *)
Fixpoint FindSlice (xs : list string) (x : string) : Z :=
  match xs with
  | [] => -1
  | y :: rest =>
      if String.eqb y x then 0
      else let i := FindSlice rest x in if i =? -1 then -1 else i + 1
  end.

Definition MAX_RAFT_JOIN_RUNNING : Z := 5.

(** ** The limit on running joins under concurrency

    Goroutines that call [ensureJoinNamespaceGroup] share the counter
    [catchupRunning] and touch it with two atomic operations only: the
    [atomic.AddInt32(&self.catchupRunning, 1)] on entry, whose result
    [myRunning] decides whether the call goes on to join or returns
    [ErrCatchupRunningBusy], and the deferred
    [atomic.AddInt32(&self.catchupRunning, -1)] when the call returns.
    The atomic operations of the goroutines interleave in some order. *)

Module JoinLimit.

Inductive Phase :=
| Idle       (* outside ensureJoinNamespaceGroup, or before the increment *)
| Joining    (* admitted: myRunning <= MAX_RAFT_JOIN_RUNNING *)
| Rejected.  (* turned away: myRunning > MAX_RAFT_JOIN_RUNNING,
                on its way to return ErrCatchupRunningBusy *)

Record State := mk
  { catchupRunning : Z;
    goroutines : list Phase }.

(** [myRunning := atomic.AddInt32(&self.catchupRunning, 1)] and the
    test [myRunning > MAX_RAFT_JOIN_RUNNING]. *)
Definition enter (counter : Z) : Z * Phase :=
  let myRunning := wrap32 (counter + 1) in
  (myRunning,
   if MAX_RAFT_JOIN_RUNNING <? myRunning then Rejected else Joining).

(** The deferred [atomic.AddInt32(&self.catchupRunning, -1)]. *)
Definition leave (counter : Z) : Z := wrap32 (counter + -1).

Inductive step : State -> State -> Prop :=
| step_enter (counter : Z) (before after : list Phase) :
    step (mk counter (before ++ Idle :: after))
         (mk (fst (enter counter))
             (before ++ snd (enter counter) :: after))
| step_leave (counter : Z) (before after : list Phase) (p : Phase) :
    p <> Idle ->
    step (mk counter (before ++ p :: after))
         (mk (leave counter) (before ++ Idle :: after)).

(** The states that [n] goroutines reach from the initial one. *)
Inductive reachable (n : nat) : State -> Prop :=
| reachable_init : reachable n (mk 0 (repeat Idle n))
| reachable_step (s s' : State) :
    reachable n s -> step s s' -> reachable n s'.

Fixpoint count (f : Phase -> bool) (l : list Phase) : nat :=
  match l with
  | [] => O
  | p :: rest => ((if f p then 1 else 0) + count f rest)%nat
  end.

Definition isJoining (p : Phase) : bool :=
  match p with Joining => true | _ => false end.

Definition isInside (p : Phase) : bool :=
  match p with Idle => false | _ => true end.

(** The join attempts that proceed. *)
Definition joining (s : State) : nat := count isJoining (goroutines s).

End JoinLimit.

Section Coordinator.

(** [self.myNode] *)
Variable myNode : NodeInfo.t.

(** [ExtractRegIDFromGenID], declared in the [cluster] package. *)
Variable ExtractRegIDFromGenID : string -> Z.

(** [common.APIRequest("GET", .../cluster/members/desp)] against the
    peer with the given node id: an error, or the decoded listing. *)
Variable APIGetMembers : string -> string -> string + list MemberInfo.t.

(** [self.localNSMgr.GetNamespaceNode]; [nil] is [None]. *)
Variable GetNamespaceNode : string -> option NamespaceNode.t.

(** [self.register.GetNodeInfo] *)
Variable GetNodeInfo : string -> RegisterErr + NodeInfo.t.

(** [self.register.GetNamespacePartInfo] *)
Variable GetNamespacePartInfo : string -> Z -> RegisterErr + PartitionMetaInfo.t.

(** [self.register.GetNamespaceMetaInfo] *)
Variable GetNamespaceMetaInfo : string -> RegisterErr + NamespaceMetaInfo.t.

(** [self.register.GetAllNamespaces], without the epoch it also returns. *)
Variable GetAllNamespaces :
  RegisterErr + list (string * list (Z * PartitionMetaInfo.t)).

(** [common.GetNamespaceAndPartition], declared in package [common]. *)
Variable GetNamespaceAndPartition : string -> string * Z.

(** [localNamespace.Node.FillMyMemberInfo], which completes the member
    info of a join request in place. *)
Variable FillMyMemberInfo : MemberInfo.t -> MemberInfo.t.

(** Whether a method of [*node.NamespaceMgr] returns when its receiver
    is nil (the methods are declared in package [node]; a method that
    reads a field of a nil receiver panics instead). *)
Variable nilNSMgrCallReturns : bool.

Definition GetMyID : string := NodeInfo.GetID myNode.
Definition GetMyRegID : Z := NodeInfo.RegID myNode.

(** *** Placement predicates *)

(** The test of the inner loop of [isMeInRaftGroup]. *)
Definition memberIsMe (nsInfo : PartitionMetaInfo.t) (m : MemberInfo.t) : bool :=
  (MemberInfo.NodeID m =? GetMyRegID)
  && (MemberInfo.ID m =? PartitionMetaInfo.RaftID nsInfo GetMyID).

(** The loop of [isMeInRaftGroup] over the remaining ISR, with the
    current [lastErr]. *)
Fixpoint isMeInRaftGroup_from (nsInfo : PartitionMetaInfo.t)
    (isr : list string) (lastErr : option string) : bool * option string :=
  match isr with
  | [] => (false, lastErr)
  | remoteNode :: rest =>
      if String.eqb remoteNode GetMyID then
        isMeInRaftGroup_from nsInfo rest lastErr
      else
        match APIGetMembers remoteNode (PartitionMetaInfo.GetDesp nsInfo) with
        | inl err => isMeInRaftGroup_from nsInfo rest (Some err)
        | inr rsp =>
            if existsb (memberIsMe nsInfo) rsp then (true, lastErr)
            else isMeInRaftGroup_from nsInfo rest lastErr
        end
  end.

Definition isMeInRaftGroup (nsInfo : PartitionMetaInfo.t) : bool * option string :=
  isMeInRaftGroup_from nsInfo (PartitionMetaInfo.GetISR nsInfo) None.

Definition isNamespaceShouldStart (nsInfo : PartitionMetaInfo.t) : bool :=
  let shouldLoad := negb (FindSlice (PartitionMetaInfo.RaftNodes nsInfo) GetMyID =? -1) in
  if negb shouldLoad then false
  else
    match mapGet GetMyID (PartitionMetaInfo.Removings nsInfo) with
    | None => true
    | Some rm =>
        if negb (RemovingInfo.RemoveReplicaID rm
                 =? PartitionMetaInfo.RaftID nsInfo GetMyID)
        then true
        else
          let '(inRaft, _) := isMeInRaftGroup nsInfo in
          inRaft
    end.

Definition isNamespaceShouldStop (nsInfo : PartitionMetaInfo.t)
    (localNamespace : NamespaceNode.t) : bool :=
  match mapGet GetMyID (PartitionMetaInfo.Removings nsInfo) with
  | None => false
  | Some rm =>
      if negb (RemovingInfo.RemoveReplicaID rm
               =? PartitionMetaInfo.RaftID nsInfo GetMyID)
      then false
      else
        let '(inRaft, err) := isMeInRaftGroup nsInfo in
        if inRaft || (match err with Some _ => true | None => false end)
        then false
        else false
  end.

(** *** Proposals to the local raft group *)

(** The [range nsInfo.Removings] loop at the head of
    [addNamespaceRaftMember]: [true] when it returns from the function. *)
Definition markedAsRemoving (removings : list (string * RemovingInfo.t))
    (m : MemberInfo.t) : bool :=
  existsb
    (fun '(nid, removing) =>
       (MemberInfo.ID m =? RemovingInfo.RemoveReplicaID removing)
       && (MemberInfo.NodeID m =? ExtractRegIDFromGenID nid))
    removings.

Definition addNamespaceRaftMember (nsInfo : PartitionMetaInfo.t)
    (m : MemberInfo.t) : list Event :=
  if markedAsRemoving (PartitionMetaInfo.Removings nsInfo) m then []
  else
    match GetNamespaceNode (PartitionMetaInfo.GetDesp nsInfo) with
    | None => []
    | Some nsNode => [ProposeAddMember m]
    end.

Definition removeNamespaceRaftMember (nsInfo : PartitionMetaInfo.t)
    (m : MemberInfo.t) : list Event :=
  match GetNamespaceNode (PartitionMetaInfo.GetDesp nsInfo) with
  | None => []
  | Some nsNode => [ProposeRemoveMember m]
  end.

Definition getNamespaceRaftMembers (nsInfo : PartitionMetaInfo.t)
    : list MemberInfo.t :=
  match GetNamespaceNode (PartitionMetaInfo.GetDesp nsInfo) with
  | None => []
  | Some nsNode => NamespaceNode.Members nsNode
  end.

Definition getNamespaceRaftLeader (nsInfo : PartitionMetaInfo.t) : Z :=
  match GetNamespaceNode (PartitionMetaInfo.GetDesp nsInfo) with
  | None => 0
  | Some nsNode =>
      match NamespaceNode.LeadMember nsNode with
      | None => 0
      | Some m => MemberInfo.NodeID m
      end
  end.

Definition transferMyNamespaceLeader (nsInfo : PartitionMetaInfo.t)
    (nid : string) : list Event :=
  match GetNamespaceNode (PartitionMetaInfo.GetDesp nsInfo) with
  | None => []
  | Some nsNode =>
      match mapGet nid (PartitionMetaInfo.RaftIDs nsInfo) with
      | None => []
      | Some toRaftID => [TransferMyLeader (ExtractRegIDFromGenID nid) toRaftID]
      end
  end.

Definition forceRemoveLocalNamespace (localNamespace : NamespaceNode.t)
    : list Event :=
  [Destroy localNamespace].

(** [removeLocalNamespaceFromRaft] on a non-nil replica, which is what
    every caller in this file passes (so the nil test of the
    [removeData = false] branch is never taken). *)
Definition removeLocalNamespaceFromRaft (localNamespace : NamespaceNode.t)
    (removeData : bool) : list Event * option CoordErr :=
  if removeData then
    if negb (NamespaceNode.Ready localNamespace) then
      ([], Some ErrNamespaceNotReady)
    else
      let m := NamespaceNode.LocalMemberInfo localNamespace in
      match NamespaceNode.ProposeRemoveErr localNamespace with
      | Some localErr => ([ProposeRemoveMember m], Some (ErrLocal localErr))
      | None => ([ProposeRemoveMember m], None)
      end
  else
    ([Close localNamespace], None).

Definition getRaftAddrForNode (nid : string) : CoordErr + string :=
  match GetNodeInfo nid with
  | inl err => inl (ErrCoordRegister err)
  | inr node => inr (NodeInfo.RaftTransportAddr node)
  end.

(** *** Membership reconciler *)

(** [uint64(nsInfo.MinGID) + uint64(nsInfo.Partition)] *)
Definition groupIDOf (nsInfo : PartitionMetaInfo.t) : Z :=
  wrap64 (wrap64 (PartitionMetaInfo.MinGID nsInfo)
          + wrap64 (PartitionMetaInfo.Partition nsInfo)).

(** The inner [range members] loop that looks for a member with the
    replica id [rid]. *)
Definition memberWithID (members : list MemberInfo.t) (rid : Z) : bool :=
  existsb (fun m => MemberInfo.ID m =? rid) members.

(** The loop over [namespaceMeta.RaftIDs] that proposes the missing
    members: the flag [anyJoined] and the trace, from the given flag. *)
Fixpoint addMissingMembers (nsInfo : PartitionMetaInfo.t)
    (members : list MemberInfo.t) (raftIDs : list (string * Z))
    (anyJoined : bool) : bool * list Event :=
  match raftIDs with
  | [] => (anyJoined, [])
  | (nid, rid) :: rest =>
      if memberWithID members rid then
        addMissingMembers nsInfo members rest anyJoined
      else
        let m := MemberInfo.mk rid (ExtractRegIDFromGenID nid)
                   (groupIDOf nsInfo) (PartitionMetaInfo.GetDesp nsInfo) [] in
        let evs :=
          match getRaftAddrForNode nid with
          | inl _ => []
          | inr raddr =>
              addNamespaceRaftMember nsInfo
                (MemberInfo.mk (MemberInfo.ID m) (MemberInfo.NodeID m)
                   (MemberInfo.GroupID m) (MemberInfo.GroupName m)
                   (MemberInfo.RaftURLs m ++ [raddr]))
          end in
        let '(anyJoined', evs') := addMissingMembers nsInfo members rest true in
        (anyJoined', evs ++ evs')
  end.

(** The [range namespaceMeta.Removings] loop of the removal phase: it
    does not leave the loop after a match. *)
Fixpoint removeMarked (nsInfo : PartitionMetaInfo.t) (m : MemberInfo.t)
    (removings : list (string * RemovingInfo.t)) : list Event :=
  match removings with
  | [] => []
  | (nid, removing) :: rest =>
      (if (MemberInfo.ID m =? RemovingInfo.RemoveReplicaID removing)
          && (MemberInfo.NodeID m =? ExtractRegIDFromGenID nid)
       then removeNamespaceRaftMember nsInfo m
       else [])
      ++ removeMarked nsInfo m rest
  end.

(** The loop over [members] that proposes to remove the members that
    the meta no longer lists or marks as removing. *)
Fixpoint removeUnneededMembers (nsInfo : PartitionMetaInfo.t)
    (members : list MemberInfo.t) : list Event :=
  match members with
  | [] => []
  | m :: rest =>
      (if existsb (fun '(_, rid) => MemberInfo.ID m =? rid)
            (PartitionMetaInfo.RaftIDs nsInfo)
       then removeMarked nsInfo m (PartitionMetaInfo.Removings nsInfo)
       else removeNamespaceRaftMember nsInfo m)
      ++ removeUnneededMembers nsInfo rest
  end.

(** The [else] branch of the leader check in [doWork]: member sync. *)
Definition syncMembers (namespaceMeta : PartitionMetaInfo.t)
    (isReplicasEnough : bool) : list Event :=
  let members := getNamespaceRaftMembers namespaceMeta in
  let '(anyJoined, adds) :=
    addMissingMembers namespaceMeta members
      (PartitionMetaInfo.RaftIDs namespaceMeta) false in
  if anyJoined
     || (Z.of_nat (List.length members) <=? PartitionMetaInfo.Replica namespaceMeta)
     || negb isReplicasEnough
  then adds ++ [TryCheckNamespaces]
  else adds ++ removeUnneededMembers namespaceMeta members.

(** The body of the loop of [doWork] over the local replicas
    ([tmpChecks]), for the replica [localNamespace] registered under
    [name]. *)
Definition checkLocalNamespace (name : string)
    (localNamespace : NamespaceNode.t) : list Event :=
  let '(namespace, pid) := GetNamespaceAndPartition name in
  if String.eqb namespace "" then []
  else
    match GetNamespacePartInfo namespace pid with
    | inl err =>
        (match err with
         | ErrKeyNotFound =>
             match GetNamespaceMetaInfo namespace with
             | inl ErrKeyNotFound =>
                 fst (removeLocalNamespaceFromRaft localNamespace true)
                 ++ forceRemoveLocalNamespace localNamespace
             | _ => []
             end
         | _ => []
         end) ++ [TryCheckNamespaces]
    | inr namespaceMeta =>
        if isNamespaceShouldStop namespaceMeta localNamespace then
          forceRemoveLocalNamespace localNamespace
        else
          let leader := getNamespaceRaftLeader namespaceMeta in
          if leader =? 0 then []
          else
            let isrList := PartitionMetaInfo.GetISR namespaceMeta in
            if FindSlice isrList (NodeInfo.GetID myNode) =? -1 then
              if 0 <? Z.of_nat (List.length isrList) then
                fst (removeLocalNamespaceFromRaft localNamespace true)
              else []
            else if negb (leader =? GetMyRegID)
                    || (Z.of_nat (List.length isrList) =? 0) then []
            else
              let isReplicasEnough :=
                PartitionMetaInfo.Replica namespaceMeta
                <=? Z.of_nat (List.length isrList) in
              if isReplicasEnough
                 && negb (String.eqb (hd "" isrList) GetMyID)
              then transferMyNamespaceLeader namespaceMeta (hd "" isrList)
              else syncMembers namespaceMeta isReplicasEnough
    end.

(** *** Replica configuration *)

(** The loop of [prepareNamespaceConf] over the ISR that collects the
    seed nodes. *)
Fixpoint seedNodesFrom (nsInfo : PartitionMetaInfo.t) (raftID : Z)
    (isr : list string) : list ReplicaInfo.t :=
  match isr with
  | [] => []
  | nid :: rest =>
      if String.eqb nid GetMyID then
        ReplicaInfo.mk GetMyRegID raftID (NodeInfo.RaftTransportAddr myNode)
        :: seedNodesFrom nsInfo raftID rest
      else
        match mapGet nid (PartitionMetaInfo.RaftIDs nsInfo) with
        | None => seedNodesFrom nsInfo raftID rest
        | Some rid =>
            match getRaftAddrForNode nid with
            | inl _ => seedNodesFrom nsInfo raftID rest
            | inr raddr =>
                ReplicaInfo.mk (ExtractRegIDFromGenID nid) rid raddr
                :: seedNodesFrom nsInfo raftID rest
            end
        end
  end.

Definition prepareNamespaceConf (nsInfo : PartitionMetaInfo.t)
    : CoordErr + NamespaceConfig.t :=
  match mapGet GetMyID (PartitionMetaInfo.RaftIDs nsInfo) with
  | None => inl ErrNamespaceConfInvalid
  | Some raftID =>
      let nsConf :=
        NamespaceConfig.mk
          (PartitionMetaInfo.Name nsInfo)
          (PartitionMetaInfo.GetDesp nsInfo)
          (PartitionMetaInfo.EngType nsInfo)
          (PartitionMetaInfo.PartitionNum nsInfo)
          (PartitionMetaInfo.Replica nsInfo)
          (groupIDOf nsInfo)
          (seedNodesFrom nsInfo raftID (PartitionMetaInfo.GetISR nsInfo)) in
      if Z.of_nat (List.length (NamespaceConfig.SeedNodes nsConf)) =? 0
      then inl ErrNamespaceConfInvalid
      else inr nsConf
  end.

(** *** Join protocol *)

Definition requestJoinNamespaceGroup (raftID : Z)
    (nsInfo : PartitionMetaInfo.t) (remoteNode : string) : list Event :=
  let m :=
    FillMyMemberInfo
      (MemberInfo.mk raftID GetMyRegID (groupIDOf nsInfo)
         (PartitionMetaInfo.GetDesp nsInfo) []) in
  if String.eqb remoteNode GetMyID then []
  else [PostAddNode remoteNode m].

(** [_, ok := memsMap[regID]], for the [memsMap] that the loop over
    [mems] fills with [memsMap[m.NodeID] = m]. *)
Definition memsMapHas (mems : list MemberInfo.t) (regID : Z) : bool :=
  existsb (fun m => MemberInfo.NodeID m =? regID) mems.

(** The flag [alreadyJoined] after the loop over [mems]. *)
Definition alreadyJoined (nsInfo : PartitionMetaInfo.t) (raftID : Z)
    (mems : list MemberInfo.t) : bool :=
  existsb
    (fun m =>
       ((MemberInfo.NodeID m =? GetMyRegID)
        && String.eqb (MemberInfo.GroupName m) (PartitionMetaInfo.GetDesp nsInfo)
        && (MemberInfo.ID m =? raftID))
       && (Z.quot (Z.of_nat (List.length (PartitionMetaInfo.GetISR nsInfo))) 2
           <? Z.of_nat (List.length mems)))
    mems.

(** The loop [for cnt <= len(isr)] that picks the remote to ask, for a
    non-empty [isr]; [fuel] counts the turns that are left, and the
    result is [remote] and [retry] when the loop is left.  ([retry] is a
    Go [int]; it grows by at most [len(isr) + 1] in a turn of the retry
    loop, far from its range.) *)
Fixpoint pickRemote (fuel : nat) (isr : list string)
    (mems : list MemberInfo.t) (retry : Z) (remote : string) : string * Z :=
  match fuel with
  | O => (remote, retry)
  | S fuel' =>
      let remote :=
        nth (Z.to_nat (Z.rem retry (Z.of_nat (List.length isr)))) isr "" in
      let retry := retry + 1 in
      if String.eqb remote GetMyID then pickRemote fuel' isr mems retry remote
      else if memsMapHas mems (ExtractRegIDFromGenID remote)
           then pickRemote fuel' isr mems retry remote
           else (remote, retry)
  end.

(** One turn of the retry loop, from the current [retry]. *)
Definition joinRound (nsInfo : PartitionMetaInfo.t) (raftID : Z)
    (retry : Z) (obs : JoinObs.t) : list Event * Z * RoundOutcome :=
  let mems := JoinObs.Members obs in
  if alreadyJoined nsInfo raftID mems then
    if JoinObs.RaftSynced obs then ([IsRaftSynced], retry, RoundSynced)
    else if JoinObs.Stopped obs then ([IsRaftSynced], retry, RoundExiting)
    else ([IsRaftSynced], retry, RoundRetry)
  else
    let isr :=
      if Z.of_nat (List.length (PartitionMetaInfo.GetISR nsInfo)) =? 0
      then PartitionMetaInfo.RaftNodes nsInfo
      else PartitionMetaInfo.GetISR nsInfo in
    match isr with
    | [] => ([], retry, RoundPanic)
    | _ :: _ =>
        let '(remote, retry') :=
          pickRemote (S (List.length isr)) isr mems retry "" in
        (requestJoinNamespaceGroup raftID nsInfo remote, retry',
         if JoinObs.Stopped obs then RoundExiting else RoundRetry)
    end.

(** The retry loop; each element of [rounds] is a turn that starts
    within the 30 seconds of the budget.  The result is the trace and
    what the function does after the loop: return [ErrNamespaceExiting]
    from inside it, or fall out of it with [joinErr]. *)
Fixpoint joinLoop (nsInfo : PartitionMetaInfo.t) (raftID : Z)
    (rounds : list JoinObs.t) (retry : Z) (joinErr : option CoordErr)
    : list Event * Outcome (CoordErr + option CoordErr) :=
  match rounds with
  | [] => ([], Returns (inr joinErr))
  | obs :: rest =>
      let '(evs, retry', out) := joinRound nsInfo raftID retry obs in
      match out with
      | RoundSynced => (evs, Returns (inr None))
      | RoundExiting => (evs, Returns (inl ErrNamespaceExiting))
      | RoundPanic => (evs, Panics)
      | RoundRetry =>
          let '(evs', r) :=
            joinLoop nsInfo raftID rest retry' (Some ErrNamespaceWaitingSync) in
          (evs ++ evs', r)
      end
  end.

(** The test at the head of [ensureJoinNamespaceGroup]: self is in
    [Removings] with the replica id it has in [RaftIDs]. *)
Definition selfIsRemoving (nsInfo : PartitionMetaInfo.t) : bool :=
  match mapGet GetMyID (PartitionMetaInfo.Removings nsInfo) with
  | Some rm =>
      RemovingInfo.RemoveReplicaID rm
      =? PartitionMetaInfo.RaftID nsInfo GetMyID
  | None => false
  end.

(** [ensureJoinNamespaceGroup], from the value of [catchupRunning] when
    it is called: the value when it returns, the trace and the result. *)
Definition ensureJoinNamespaceGroup (catchupRunning : Z)
    (nsInfo : PartitionMetaInfo.t) (rounds : list JoinObs.t)
    : Z * list Event * Outcome (option CoordErr) :=
  if selfIsRemoving nsInfo then (catchupRunning, [], Returns None)
  else
    let myRunning := wrap32 (catchupRunning + 1) in
    let released := wrap32 (myRunning + -1) in
    if MAX_RAFT_JOIN_RUNNING <? myRunning then
      (released, [TryCheckNamespaces], Returns (Some ErrCatchupRunningBusy))
    else
      match mapGet GetMyID (PartitionMetaInfo.RaftIDs nsInfo) with
      | None =>
          (released, [SetDataFixState false],
           Returns (Some ErrNamespaceConfInvalid))
      | Some raftID =>
          let '(evs, r) := joinLoop nsInfo raftID rounds 0 None in
          match r with
          | Panics => (released, SetDataFixState false :: evs, Panics)
          | Returns (inl e) =>
              (released, SetDataFixState false :: evs, Returns (Some e))
          | Returns (inr (Some e)) =>
              (released, SetDataFixState false :: evs ++ [TryCheckNamespaces],
               Returns (Some e))
          | Returns (inr None) =>
              (released, SetDataFixState false :: evs, Returns None)
          end
      end.

(** *** Shutdown *)

(** [self.localNSMgr.GetNamespaceNode] as [prepareLeavingCluster] calls
    it on a coordinator whose manager may be nil. *)
Definition nsMgrGetNamespaceNode (c : DataCoordinator.t) (desp : string)
    : Outcome (option NamespaceNode.t) :=
  if DataCoordinator.hasNSMgr c then Returns (GetNamespaceNode desp)
  else if nilNSMgrCallReturns then Returns None
  else Panics.

(** The loop over the ISR that hands the leadership to the first node
    other than self. *)
Fixpoint transferToFirstOther (nsInfo : PartitionMetaInfo.t)
    (isr : list string) : list Event :=
  match isr with
  | [] => []
  | newLeader :: rest =>
      if String.eqb newLeader GetMyID then transferToFirstOther nsInfo rest
      else transferMyNamespaceLeader nsInfo newLeader
  end.

(** The body of the inner loop of [prepareLeavingCluster]. *)
Definition leavePartition (c : DataCoordinator.t)
    (nsInfo : PartitionMetaInfo.t) : Outcome (list Event) :=
  if FindSlice (PartitionMetaInfo.RaftNodes nsInfo) (NodeInfo.GetID myNode)
     =? -1
  then Returns []
  else
    localNamespace <- nsMgrGetNamespaceNode c (PartitionMetaInfo.GetDesp nsInfo) ;;
    match localNamespace with
    | None => Returns []
    | Some _ =>
        if negb (getNamespaceRaftLeader nsInfo =? GetMyRegID) then Returns []
        else Returns (transferToFirstOther nsInfo (PartitionMetaInfo.GetISR nsInfo))
    end.

Fixpoint leavePartitions (c : DataCoordinator.t)
    (parts : list PartitionMetaInfo.t) : Outcome (list Event) :=
  match parts with
  | [] => Returns []
  | nsInfo :: rest =>
      evs <- leavePartition c nsInfo ;;
      evs' <- leavePartitions c rest ;;
      Returns (evs ++ evs')
  end.

(** The partitions that the two nested loops of [prepareLeavingCluster]
    visit; an error of the registry leaves nothing to visit. *)
Definition allPartitions : list PartitionMetaInfo.t :=
  match GetAllNamespaces with
  | inl _ => []
  | inr allNamespaces =>
      flat_map (fun '(_, nsParts) => map snd nsParts) allNamespaces
  end.

Definition prepareLeavingCluster (c : DataCoordinator.t)
    : Outcome (DataCoordinator.t * list Event) :=
  (* self.register.GetAllNamespaces() on a nil interface value *)
  if negb (DataCoordinator.hasRegister c) then Panics
  else
    evs <- leavePartitions c allPartitions ;;
    evs' <- (if DataCoordinator.hasNSMgr c then Returns [StopNamespaceMgr]
             else if nilNSMgrCallReturns then Returns []
             else Panics) ;;
    if DataCoordinator.hasRegister c then
      Returns
        (DataCoordinator.mk
           (DataCoordinator.hasRegister c)
           (DataCoordinator.hasNSMgr c)
           1
           (DataCoordinator.stopChanClosed c),
         evs ++ evs' ++ [Unregister; StopRegister])
    else Returns (c, evs ++ evs').

Definition Stop (c : DataCoordinator.t)
    : Outcome (DataCoordinator.t * list Event) :=
  if DataCoordinator.stopping c =? 1 then Returns (c, [])
  else
    r <- prepareLeavingCluster c ;;
    let '(c', evs) := r in
    (* close(self.stopChan) *)
    if DataCoordinator.stopChanClosed c' then Panics
    else
      Returns
        (DataCoordinator.mk
           (DataCoordinator.hasRegister c')
           (DataCoordinator.hasNSMgr c')
           (DataCoordinator.stopping c')
           true,
         evs ++ [CloseStopChan; WaitWorkers]).

(** *** Statistics *)

Definition isrStatsOf (nodes : list string) : list ISRStat.t :=
  map (fun nid => ISRStat.mk "" nid) nodes.

Definition Stats (namespace : string) (part : Z)
    : list NamespaceCoordStat.t :=
  if 0 <? Z.of_nat (String.length namespace) then
    match GetNamespaceMetaInfo namespace with
    | inl _ => []
    | inr meta =>
        if 0 <=? part then
          match GetNamespacePartInfo namespace part with
          | inl _ => []
          | inr nsInfo =>
              [NamespaceCoordStat.mk namespace part
                 (isrStatsOf (PartitionMetaInfo.RaftNodes nsInfo))]
          end
        else
          flat_map
            (fun _ : nat =>
               match GetNamespacePartInfo namespace part with
               | inl _ => []
               | inr nsInfo =>
                   [NamespaceCoordStat.mk namespace
                      (PartitionMetaInfo.Partition nsInfo)
                      (isrStatsOf (PartitionMetaInfo.RaftNodes nsInfo))]
               end)
            (seq 0 (Z.to_nat (NamespaceMetaInfo.PartitionNum meta)))
    end
  else [].

(** *** Vocabulary of the statements *)

(** The nodes that the retry loop asks: the ISR, or [RaftNodes] when
    the ISR is empty. *)
Definition joinCandidates (nsInfo : PartitionMetaInfo.t) : list string :=
  match PartitionMetaInfo.GetISR nsInfo with
  | [] => PartitionMetaInfo.RaftNodes nsInfo
  | _ :: _ => PartitionMetaInfo.GetISR nsInfo
  end.

(** The node that the [j]-th probe of the round-robin reads, counting
    from the probe at [retry]. *)
Definition probe (isr : list string) (retry : Z) (j : nat) : string :=
  nth (Z.to_nat (Z.rem (retry + Z.of_nat j) (Z.of_nat (List.length isr))))
    isr "".

(** A node that the round-robin does not skip: not self, and no member
    of [mems] has its registration id. *)
Definition eligible (mems : list MemberInfo.t) (remote : string) : bool :=
  negb (String.eqb remote GetMyID)
  && negb (memsMapHas mems (ExtractRegIDFromGenID remote)).

(** The member info that a join request carries. *)
Definition joinMember (nsInfo : PartitionMetaInfo.t) (raftID : Z)
    : MemberInfo.t :=
  FillMyMemberInfo
    (MemberInfo.mk raftID GetMyRegID (groupIDOf nsInfo)
       (PartitionMetaInfo.GetDesp nsInfo) []).

(** The seed that [prepareNamespaceConf] builds for a node of the
    ISR. *)
Definition seedOf (nsInfo : PartitionMetaInfo.t) (nid : string)
    : ReplicaInfo.t :=
  if String.eqb nid GetMyID then
    ReplicaInfo.mk GetMyRegID (PartitionMetaInfo.RaftID nsInfo GetMyID)
      (NodeInfo.RaftTransportAddr myNode)
  else
    ReplicaInfo.mk (ExtractRegIDFromGenID nid)
      (PartitionMetaInfo.RaftID nsInfo nid)
      (match GetNodeInfo nid with
       | inr node => NodeInfo.RaftTransportAddr node
       | inl _ => ""
       end).

(** A node of the ISR whose seed can be resolved: self, or a node with
    an entry in [RaftIDs] whose node info the registry returns. *)
Definition resolvable (nsInfo : PartitionMetaInfo.t) (nid : string) : bool :=
  String.eqb nid GetMyID
  || (match mapGet nid (PartitionMetaInfo.RaftIDs nsInfo) with
      | Some _ => true
      | None => false
      end
      && match GetNodeInfo nid with
         | inr _ => true
         | inl _ => false
         end).

(** The seed list in the words of the specification: the ISR in order,
    without the nodes that cannot be resolved. *)
Definition seedNodesSpec (nsInfo : PartitionMetaInfo.t) : list ReplicaInfo.t :=
  map (seedOf nsInfo)
    (filter (resolvable nsInfo) (PartitionMetaInfo.ISR nsInfo)).

(** What the interleavings preserve: the counter is the number of
    goroutines inside the function, and at most
    [MAX_RAFT_JOIN_RUNNING] of them are joining. *)
Definition limitInvariant (n : nat) (s : JoinLimit.State) : Prop :=
  List.length (JoinLimit.goroutines s) = n
  /\ JoinLimit.catchupRunning s
     = Z.of_nat (JoinLimit.count JoinLimit.isInside (JoinLimit.goroutines s))
  /\ Z.of_nat (JoinLimit.joining s) <= MAX_RAFT_JOIN_RUNNING.

(** ** Properties *)

(** Forget the collaborators that the statement at hand does not
    mention, so that no decision procedure picks them up. *)
Ltac drop_env :=
  try clear nilNSMgrCallReturns;
  try clear FillMyMemberInfo;
  try clear GetNamespaceAndPartition;
  try clear GetAllNamespaces;
  try clear GetNamespaceMetaInfo;
  try clear GetNamespacePartInfo;
  try clear GetNodeInfo;
  try clear GetNamespaceNode;
  try clear APIGetMembers;
  try clear ExtractRegIDFromGenID;
  try clear myNode.

(** *** Placement predicates *)

Lemma FindSlice_lower (xs : list string) (x : string) : -1 <= FindSlice xs x.
Proof.
  induction xs as [|y rest IH]; simpl; [lia|].
  destruct (String.eqb y x); [lia|].
  destruct (FindSlice rest x =? -1) eqn:E; lia.
Qed.

Lemma FindSlice_absent (xs : list string) (x : string) :
  FindSlice xs x = -1 <-> ~ In x xs.
Proof.
  drop_env.
  induction xs as [|y rest IH]; simpl.
  - split; [tauto | reflexivity].
  - destruct (String.eqb y x) eqn:E.
    + apply String.eqb_eq in E. split; [lia | tauto].
    + apply String.eqb_neq in E.
      pose proof (FindSlice_lower rest x) as L.
      destruct (FindSlice rest x =? -1) eqn:F.
      * apply Z.eqb_eq in F. split; [tauto | reflexivity].
      * apply Z.eqb_neq in F. split; [lia | tauto].
  Qed.

Lemma memberIsMe_spec (nsInfo : PartitionMetaInfo.t) (m : MemberInfo.t) :
  memberIsMe nsInfo m = true <->
  MemberInfo.NodeID m = GetMyRegID
  /\ MemberInfo.ID m = PartitionMetaInfo.RaftID nsInfo GetMyID.
Proof.
  drop_env.
  unfold memberIsMe. rewrite andb_true_iff, !Z.eqb_eq. tauto.
Qed.

(** A peer affirms: it is not self, it answers, and its listing has a
    member with self's registration id and self's replica id. *)
Definition peerAffirms (nsInfo : PartitionMetaInfo.t) (remoteNode : string)
    : Prop :=
  remoteNode <> GetMyID
  /\ exists rsp m,
      APIGetMembers remoteNode (PartitionMetaInfo.GetDesp nsInfo) = inr rsp
      /\ In m rsp
      /\ MemberInfo.NodeID m = GetMyRegID
      /\ MemberInfo.ID m = PartitionMetaInfo.RaftID nsInfo GetMyID.

Lemma isMeInRaftGroup_from_true (nsInfo : PartitionMetaInfo.t)
    (isr : list string) (lastErr : option string) :
  fst (isMeInRaftGroup_from nsInfo isr lastErr) = true <->
  exists remoteNode, In remoteNode isr /\ peerAffirms nsInfo remoteNode.
Proof.
  drop_env.
  revert lastErr.
  induction isr as [|r rest IH]; intros lastErr; simpl.
  - split; [discriminate | intros (? & [] & _)].
  - destruct (String.eqb r GetMyID) eqn:E.
    + rewrite IH. apply String.eqb_eq in E.
      split; intros (x & Hin & Hp).
      * exists x. tauto.
      * destruct Hin as [<- | Hin]; [destruct Hp as [Hne _]; tauto | eauto].
    + apply String.eqb_neq in E.
      destruct (APIGetMembers r (PartitionMetaInfo.GetDesp nsInfo))
        as [err | rsp] eqn:A.
      * rewrite IH. split; intros (x & Hin & Hp).
        -- exists x. tauto.
        -- destruct Hin as [<- | Hin]; [| eauto].
           destruct Hp as (_ & rsp & m & Hrsp & _). congruence.
      * destruct (existsb (memberIsMe nsInfo) rsp) eqn:X.
        -- simpl. split; [intros _ | reflexivity].
           apply existsb_exists in X. destruct X as (m & Hm & Hme).
           apply memberIsMe_spec in Hme.
           exists r. split; [now left |].
           split; [exact E |]. exists rsp, m. tauto.
        -- rewrite IH. split; intros (x & Hin & Hp).
           ++ exists x. tauto.
           ++ destruct Hin as [<- | Hin]; [| eauto].
              destruct Hp as (_ & rsp' & m & Hrsp & Hm & Hme).
              assert (rsp' = rsp) by congruence. subst rsp'.
              assert (existsb (memberIsMe nsInfo) rsp = true) as Y.
              { apply existsb_exists. exists m. split; [exact Hm |].
                now apply memberIsMe_spec. }
              congruence.
Qed.

(** [isNamespaceShouldStop] answers [false] on every meta and replica:
    in its three early returns, and also on its last line, which it
    reaches when self is in [Removings] with the replica id it has in
    [RaftIDs] and no peer lists it any more. *)
Lemma isNamespaceShouldStop_false (nsInfo : PartitionMetaInfo.t)
    (localNamespace : NamespaceNode.t) :
  isNamespaceShouldStop nsInfo localNamespace = false.
Proof.
  unfold isNamespaceShouldStop.
  destruct (mapGet GetMyID (PartitionMetaInfo.Removings nsInfo)) as [rm|];
    [| reflexivity].
  destruct (negb _); [reflexivity |].
  destruct (isMeInRaftGroup nsInfo) as [inRaft err].
  now destruct (inRaft || _).
Qed.

(** C2: [isNamespaceShouldStart] is false when self is not in
    [RaftNodes]; true when self is in [RaftNodes] and not in
    [Removings]; true when the removal entry of self names another
    replica id than [RaftIDs[self]]; and otherwise the answer of
    [isMeInRaftGroup], which is true exactly when some node of the ISR
    other than self answers with a listing that has a member with self's
    registration id and replica id. *)
Theorem isNamespaceShouldStart_cases (nsInfo : PartitionMetaInfo.t) :
  (~ In GetMyID (PartitionMetaInfo.RaftNodes nsInfo) ->
   isNamespaceShouldStart nsInfo = false)
  /\ (In GetMyID (PartitionMetaInfo.RaftNodes nsInfo) ->
      mapGet GetMyID (PartitionMetaInfo.Removings nsInfo) = None ->
      isNamespaceShouldStart nsInfo = true)
  /\ (forall rm,
        In GetMyID (PartitionMetaInfo.RaftNodes nsInfo) ->
        mapGet GetMyID (PartitionMetaInfo.Removings nsInfo) = Some rm ->
        RemovingInfo.RemoveReplicaID rm
        <> PartitionMetaInfo.RaftID nsInfo GetMyID ->
        isNamespaceShouldStart nsInfo = true)
  /\ (forall rm,
        In GetMyID (PartitionMetaInfo.RaftNodes nsInfo) ->
        mapGet GetMyID (PartitionMetaInfo.Removings nsInfo) = Some rm ->
        RemovingInfo.RemoveReplicaID rm
        = PartitionMetaInfo.RaftID nsInfo GetMyID ->
        isNamespaceShouldStart nsInfo = fst (isMeInRaftGroup nsInfo))
  /\ (fst (isMeInRaftGroup nsInfo) = true <->
      exists remoteNode,
        In remoteNode (PartitionMetaInfo.ISR nsInfo)
        /\ peerAffirms nsInfo remoteNode).
Proof.
  drop_env.
  unfold isNamespaceShouldStart.
  repeat split.
  - intros Hout. apply (proj2 (FindSlice_absent _ _)) in Hout.
    now rewrite Hout.
  - intros Hin Hrm.
    destruct (FindSlice _ GetMyID =? -1) eqn:F.
    + apply Z.eqb_eq in F. apply (proj1 (FindSlice_absent _ _)) in F. tauto.
    + simpl. now rewrite Hrm.
  - intros rm Hin Hrm Hne.
    destruct (FindSlice _ GetMyID =? -1) eqn:F.
    + apply Z.eqb_eq in F. apply (proj1 (FindSlice_absent _ _)) in F. tauto.
    + simpl. rewrite Hrm. apply (proj2 (Z.eqb_neq _ _)) in Hne.
      now rewrite Hne.
  - intros rm Hin Hrm Heq.
    destruct (FindSlice _ GetMyID =? -1) eqn:F.
    + apply Z.eqb_eq in F. apply (proj1 (FindSlice_absent _ _)) in F. tauto.
    + simpl. rewrite Hrm. apply (proj2 (Z.eqb_eq _ _)) in Heq.
      rewrite Heq. simpl.
      now destruct (isMeInRaftGroup nsInfo).
  - apply isMeInRaftGroup_from_true.
  - apply isMeInRaftGroup_from_true.
Qed.

(** *** Proposals *)

Lemma markedAsRemoving_spec (removings : list (string * RemovingInfo.t))
    (m : MemberInfo.t) :
  markedAsRemoving removings m = true <->
  exists nid removing,
    In (nid, removing) removings
    /\ MemberInfo.ID m = RemovingInfo.RemoveReplicaID removing
    /\ MemberInfo.NodeID m = ExtractRegIDFromGenID nid.
Proof.
  unfold markedAsRemoving. rewrite existsb_exists. split.
  - intros ([nid removing] & Hin & H).
    apply andb_true_iff in H. rewrite !Z.eqb_eq in H. eauto.
  - intros (nid & removing & Hin & H1 & H2).
    exists (nid, removing). split; [exact Hin |].
    apply andb_true_iff. now rewrite !Z.eqb_eq.
Qed.

(** C10: when some entry [(nid, removing)] of [Removings] has
    [m.ID = removing.RemoveReplicaID] and [m.NodeID] the registration id
    of [nid], [addNamespaceRaftMember] returns without a call of
    [ProposeAddMember] (it calls nothing at all). *)
Theorem addNamespaceRaftMember_skips_removing (nsInfo : PartitionMetaInfo.t)
    (m : MemberInfo.t) (nid : string) (removing : RemovingInfo.t) :
  In (nid, removing) (PartitionMetaInfo.Removings nsInfo) ->
  MemberInfo.ID m = RemovingInfo.RemoveReplicaID removing ->
  MemberInfo.NodeID m = ExtractRegIDFromGenID nid ->
  addNamespaceRaftMember nsInfo m = []
  /\ forall m', ~ In (ProposeAddMember m') (addNamespaceRaftMember nsInfo m).
Proof.
  intros Hin Hid Hnode.
  assert (addNamespaceRaftMember nsInfo m = []) as E.
  { unfold addNamespaceRaftMember.
    assert (markedAsRemoving (PartitionMetaInfo.Removings nsInfo) m = true) as M
      by (apply markedAsRemoving_spec; eauto).
    now rewrite M. }
  split; [exact E |]. intros m'. rewrite E. intros [].
Qed.

(** *** Membership reconciler *)

Lemma addNamespaceRaftMember_events (nsInfo : PartitionMetaInfo.t)
    (m : MemberInfo.t) (e : Event) :
  In e (addNamespaceRaftMember nsInfo m) -> e = ProposeAddMember m.
Proof.
  unfold addNamespaceRaftMember.
  destruct (markedAsRemoving _ m); [intros [] |].
  destruct (GetNamespaceNode _); [| intros []].
  intros [<- | []]. reflexivity.
Qed.

Lemma removeNamespaceRaftMember_events (nsInfo : PartitionMetaInfo.t)
    (m : MemberInfo.t) (e : Event) :
  In e (removeNamespaceRaftMember nsInfo m) -> e = ProposeRemoveMember m.
Proof.
  unfold removeNamespaceRaftMember.
  destruct (GetNamespaceNode _); [| intros []].
  intros [<- | []]. reflexivity.
Qed.

Lemma addMissingMembers_events (nsInfo : PartitionMetaInfo.t)
    (members : list MemberInfo.t) (raftIDs : list (string * Z))
    (anyJoined : bool) (e : Event) :
  In e (snd (addMissingMembers nsInfo members raftIDs anyJoined)) ->
  exists m, e = ProposeAddMember m.
Proof.
  revert anyJoined.
  induction raftIDs as [|[nid rid] rest IH]; intros anyJoined; simpl.
  - intros [].
  - destruct (memberWithID members rid); [apply IH |].
    destruct (addMissingMembers nsInfo members rest true)
      as [anyJoined' evs'] eqn:R.
    simpl. rewrite in_app_iff. intros [H | H].
    + destruct (getRaftAddrForNode nid); [destruct H |].
      apply addNamespaceRaftMember_events in H. eauto.
    + apply (IH true). now rewrite R.
Qed.

Lemma addMissingMembers_keeps_flag (nsInfo : PartitionMetaInfo.t)
    (members : list MemberInfo.t) (raftIDs : list (string * Z)) :
  fst (addMissingMembers nsInfo members raftIDs true) = true.
Proof.
  induction raftIDs as [|[nid rid] rest IH]; simpl; [reflexivity |].
  destruct (memberWithID members rid); [exact IH |].
  destruct (addMissingMembers nsInfo members rest true)
    as [anyJoined' evs'] eqn:R.
  simpl in *. exact IH.
Qed.

(** A proposal to add a member sets [anyJoined]. *)
Lemma addMissingMembers_sets_flag (nsInfo : PartitionMetaInfo.t)
    (members : list MemberInfo.t) (raftIDs : list (string * Z))
    (anyJoined : bool) (e : Event) :
  In e (snd (addMissingMembers nsInfo members raftIDs anyJoined)) ->
  fst (addMissingMembers nsInfo members raftIDs anyJoined) = true.
Proof.
  revert anyJoined.
  induction raftIDs as [|[nid rid] rest IH]; intros anyJoined; simpl.
  - intros [].
  - destruct (memberWithID members rid); [apply IH |].
    pose proof (addMissingMembers_keeps_flag nsInfo members rest) as K.
    destruct (addMissingMembers nsInfo members rest true)
      as [anyJoined' evs'] eqn:R.
    intros _. exact K.
Qed.

Lemma removeMarked_events (nsInfo : PartitionMetaInfo.t) (m : MemberInfo.t)
    (removings : list (string * RemovingInfo.t)) (e : Event) :
  In e (removeMarked nsInfo m removings) -> e = ProposeRemoveMember m.
Proof.
  induction removings as [|[nid removing] rest IH]; simpl; [intros [] |].
  rewrite in_app_iff. intros [H | H]; [| now apply IH].
  destruct (_ && _); [| destruct H].
  now apply removeNamespaceRaftMember_events in H.
Qed.

Lemma removeUnneededMembers_events (nsInfo : PartitionMetaInfo.t)
    (members : list MemberInfo.t) (e : Event) :
  In e (removeUnneededMembers nsInfo members) ->
  exists m, In m members /\ e = ProposeRemoveMember m.
Proof.
  induction members as [|m rest IH]; simpl; [intros [] |].
  rewrite in_app_iff. intros [H | H].
  - exists m. split; [now left |].
    destruct (existsb _ _).
    + now apply removeMarked_events in H.
    + now apply removeNamespaceRaftMember_events in H.
  - destruct (IH H) as (m' & Hin & ->). eauto.
Qed.

(** C3: in the member sync of a pass, [ProposeRemoveMember] is called
    (and then for a current member) only when the pass proposed no
    addition, the members outnumber [Replica] and the ISR has at least
    [Replica] nodes; and whenever a member was proposed for addition, or
    the members are at most [Replica], or the ISR is smaller than
    [Replica], the pass schedules the debounced retry and proposes no
    removal. *)
Theorem syncMembers_shrink_safety (namespaceMeta : PartitionMetaInfo.t) :
  let isrList := PartitionMetaInfo.GetISR namespaceMeta in
  let members := getNamespaceRaftMembers namespaceMeta in
  let trace :=
    syncMembers namespaceMeta
      (PartitionMetaInfo.Replica namespaceMeta
       <=? Z.of_nat (List.length isrList)) in
  (forall m,
     In (ProposeRemoveMember m) trace ->
     In m members
     /\ (forall m', ~ In (ProposeAddMember m') trace)
     /\ PartitionMetaInfo.Replica namespaceMeta < Z.of_nat (List.length members)
     /\ PartitionMetaInfo.Replica namespaceMeta <= Z.of_nat (List.length isrList))
  /\ ((exists m', In (ProposeAddMember m') trace)
      \/ Z.of_nat (List.length members) <= PartitionMetaInfo.Replica namespaceMeta
      \/ Z.of_nat (List.length isrList) < PartitionMetaInfo.Replica namespaceMeta ->
      In TryCheckNamespaces trace
      /\ forall m, ~ In (ProposeRemoveMember m) trace).
Proof.
  intros isrList members trace. subst trace. unfold syncMembers.
  fold members.
  pose proof (addMissingMembers_events namespaceMeta members
                (PartitionMetaInfo.RaftIDs namespaceMeta) false) as Hadds.
  pose proof (addMissingMembers_sets_flag namespaceMeta members
                (PartitionMetaInfo.RaftIDs namespaceMeta) false) as Hflag.
  destruct (addMissingMembers namespaceMeta members
              (PartitionMetaInfo.RaftIDs namespaceMeta) false)
    as [anyJoined adds] eqn:A.
  simpl in Hadds, Hflag.
  assert (forall m, ~ In (ProposeRemoveMember m) (adds ++ [TryCheckNamespaces]))
    as NoRemove.
  { intros m H. apply in_app_iff in H. destruct H as [H | [H | []]].
    - destruct (Hadds _ H) as (m' & E). discriminate.
    - discriminate. }
  destruct anyJoined; simpl.
  { split.
    - intros m H. now apply NoRemove in H.
    - intros _. split; [| exact NoRemove].
      apply in_app_iff. right. now left. }
  assert (adds = []) as ->.
  { destruct adds as [|e adds]; [reflexivity |].
    specialize (Hflag e (or_introl eq_refl)). discriminate. }
  simpl.
  destruct (Z.of_nat (List.length members)
            <=? PartitionMetaInfo.Replica namespaceMeta) eqn:L; simpl.
  { split.
    - intros m [H | []]. discriminate.
    - intros _. split; [now left |]. intros m [H | []]. discriminate. }
  apply Z.leb_gt in L.
  destruct (PartitionMetaInfo.Replica namespaceMeta
            <=? Z.of_nat (List.length isrList)) eqn:R; simpl.
  - apply Z.leb_le in R.
    assert (forall m', ~ In (ProposeAddMember m')
                         (removeUnneededMembers namespaceMeta members))
      as NoAdd.
    { intros m' H. apply removeUnneededMembers_events in H.
      destruct H as (m & _ & E). discriminate. }
    split.
    + intros m H. apply removeUnneededMembers_events in H.
      destruct H as (m0 & Hin & [= ->]). auto.
    + intros [(m' & H) | [H | H]]; [now apply NoAdd in H | lia | lia].
  - split.
    + intros m [H | []]. discriminate.
    + intros _. split; [now left |]. intros m [H | []]. discriminate.
Qed.

Lemma syncMembers_no_transfer (namespaceMeta : PartitionMetaInfo.t)
    (isReplicasEnough : bool) (toNode toRaftID : Z) :
  ~ In (TransferMyLeader toNode toRaftID)
      (syncMembers namespaceMeta isReplicasEnough).
Proof.
  unfold syncMembers.
  pose proof (addMissingMembers_events namespaceMeta
                (getNamespaceRaftMembers namespaceMeta)
                (PartitionMetaInfo.RaftIDs namespaceMeta) false) as Hadds.
  destruct (addMissingMembers _ _ _ false) as [anyJoined adds].
  simpl in Hadds.
  destruct (_ || _ || _); rewrite in_app_iff; intros [H | H].
  - destruct (Hadds _ H) as (m & E). discriminate.
  - destruct H as [H | []]. discriminate.
  - destruct (Hadds _ H) as (m & E). discriminate.
  - apply removeUnneededMembers_events in H.
    destruct H as (m & _ & E). discriminate.
Qed.

(** C4: for a replica whose raft leader is self (a started coordinator
    has [RegID > 0]) and whose meta, as the registry returns it, has self
    in the ISR, the pass calls [TransferMyLeader] exactly when the ISR
    has at least [Replica] nodes, its head is not self and the head has a
    replica id in [RaftIDs]: the call is then the whole pass for this
    replica, to the head of the ISR.  With self at the head no transfer
    is proposed, and [transferMyNamespaceLeader] calls nothing when the
    target has no entry in [RaftIDs]. *)
Theorem checkLocalNamespace_leader_steering (name namespace : string)
    (pid : Z) (localNamespace : NamespaceNode.t)
    (namespaceMeta : PartitionMetaInfo.t) :
  GetNamespaceAndPartition name = (namespace, pid) ->
  namespace <> "" ->
  GetNamespacePartInfo namespace pid = inr namespaceMeta ->
  0 < GetMyRegID ->
  getNamespaceRaftLeader namespaceMeta = GetMyRegID ->
  In GetMyID (PartitionMetaInfo.GetISR namespaceMeta) ->
  let isrList := PartitionMetaInfo.GetISR namespaceMeta in
  let trace := checkLocalNamespace name localNamespace in
  (forall toNode toRaftID,
     In (TransferMyLeader toNode toRaftID) trace <->
     PartitionMetaInfo.Replica namespaceMeta <= Z.of_nat (List.length isrList)
     /\ hd "" isrList <> GetMyID
     /\ toNode = ExtractRegIDFromGenID (hd "" isrList)
     /\ mapGet (hd "" isrList) (PartitionMetaInfo.RaftIDs namespaceMeta)
        = Some toRaftID)
  /\ (PartitionMetaInfo.Replica namespaceMeta <= Z.of_nat (List.length isrList) ->
      hd "" isrList <> GetMyID ->
      trace = transferMyNamespaceLeader namespaceMeta (hd "" isrList))
  /\ (hd "" isrList = GetMyID ->
      forall toNode toRaftID, ~ In (TransferMyLeader toNode toRaftID) trace)
  /\ (forall nid,
        mapGet nid (PartitionMetaInfo.RaftIDs namespaceMeta) = None ->
        transferMyNamespaceLeader namespaceMeta nid = []).
Proof.
  intros Hname Hns Hmeta Hreg Hlead Hisr isrList trace.
  assert (exists nsNode,
            GetNamespaceNode (PartitionMetaInfo.GetDesp namespaceMeta)
            = Some nsNode) as (nsNode & Hnode).
  { unfold getNamespaceRaftLeader in Hlead.
    destruct (GetNamespaceNode _) as [n|]; [eauto | lia]. }
  assert (trace =
          if (PartitionMetaInfo.Replica namespaceMeta
              <=? Z.of_nat (List.length isrList))
             && negb (String.eqb (hd "" isrList) GetMyID)
          then transferMyNamespaceLeader namespaceMeta (hd "" isrList)
          else syncMembers namespaceMeta
                 (PartitionMetaInfo.Replica namespaceMeta
                  <=? Z.of_nat (List.length isrList))) as Htrace.
  { subst trace. unfold checkLocalNamespace. rewrite Hname.
    apply String.eqb_neq in Hns. rewrite Hns, Hmeta.
    rewrite isNamespaceShouldStop_false, Hlead.
    assert ((GetMyRegID =? 0) = false) as -> by (apply Z.eqb_neq; lia).
    fold isrList. fold GetMyID.
    assert ((FindSlice isrList GetMyID =? -1) = false) as ->.
    { apply Z.eqb_neq. intros F. now apply FindSlice_absent in F. }
    rewrite Z.eqb_refl. simpl.
    assert ((Z.of_nat (List.length isrList) =? 0) = false) as ->.
    { apply Z.eqb_neq. subst isrList.
      destruct (PartitionMetaInfo.GetISR namespaceMeta); [destruct Hisr |].
      simpl List.length. lia. }
    reflexivity. }
  assert (forall nid toNode toRaftID,
            In (TransferMyLeader toNode toRaftID)
              (transferMyNamespaceLeader namespaceMeta nid) <->
            toNode = ExtractRegIDFromGenID nid
            /\ mapGet nid (PartitionMetaInfo.RaftIDs namespaceMeta)
               = Some toRaftID) as Htransfer.
  { intros nid toNode toRaftID. unfold transferMyNamespaceLeader.
    rewrite Hnode.
    destruct (mapGet nid _) as [r|]; simpl.
    - split.
      + intros [[= <- <-] | []]. auto.
      + intros (-> & [= ->]). now left.
    - split; [intros [] | intros (_ & [=])]. }
  repeat split.
  - rewrite Htrace in H.
    destruct (_ <=? _) eqn:R; simpl in H.
    + now apply Z.leb_le.
    + now apply syncMembers_no_transfer in H.
  - rewrite Htrace in H. intros Hhd.
    apply String.eqb_eq in Hhd. rewrite Hhd, andb_false_r in H.
    now apply syncMembers_no_transfer in H.
  - rewrite Htrace in H.
    destruct (_ && _); [now apply Htransfer in H |].
    now apply syncMembers_no_transfer in H.
  - rewrite Htrace in H.
    destruct (_ && _); [now apply Htransfer in H |].
    now apply syncMembers_no_transfer in H.
  - intros (R & Hhd & -> & Hid). rewrite Htrace.
    apply Z.leb_le in R. apply String.eqb_neq in Hhd. rewrite R, Hhd. simpl.
    now apply Htransfer.
  - intros R Hhd. rewrite Htrace.
    apply Z.leb_le in R. apply String.eqb_neq in Hhd. now rewrite R, Hhd.
  - intros Hhd toNode toRaftID H. rewrite Htrace in H.
    apply String.eqb_eq in Hhd. rewrite Hhd, andb_false_r in H.
    now apply syncMembers_no_transfer in H.
  - intros nid Hnone. unfold transferMyNamespaceLeader.
    rewrite Hnone. now destruct (GetNamespaceNode _).
Qed.

(** *** Join protocol *)

Lemma alreadyJoined_spec (nsInfo : PartitionMetaInfo.t) (raftID : Z)
    (mems : list MemberInfo.t) :
  alreadyJoined nsInfo raftID mems = true <->
  (exists m,
     In m mems
     /\ MemberInfo.NodeID m = GetMyRegID
     /\ MemberInfo.GroupName m = PartitionMetaInfo.GetDesp nsInfo
     /\ MemberInfo.ID m = raftID)
  /\ Z.quot (Z.of_nat (List.length (PartitionMetaInfo.GetISR nsInfo))) 2
     < Z.of_nat (List.length mems).
Proof.
  drop_env.
  unfold alreadyJoined. rewrite existsb_exists. split.
  - intros (m & Hin & H).
    rewrite !andb_true_iff, !Z.eqb_eq, String.eqb_eq, Z.ltb_lt in H.
    split; [exists m |]; tauto.
  - intros ((m & Hin & H1 & H2 & H3) & L). exists m. split; [exact Hin |].
    rewrite !andb_true_iff, !Z.eqb_eq, String.eqb_eq, Z.ltb_lt. tauto.
Qed.

Lemma probe_shift (isr : list string) (retry : Z) (j : nat) :
  probe isr (retry + 1) j = probe isr retry (S j).
Proof.
  unfold probe. do 3 f_equal. lia.
Qed.

Lemma pickRemote_first_step (fuel : nat) (isr : list string)
    (mems : list MemberInfo.t) (retry : Z) (remote : string) :
  pickRemote (S fuel) isr mems retry remote =
  if eligible mems (probe isr retry 0) then (probe isr retry 0, retry + 1)
  else pickRemote fuel isr mems (retry + 1) (probe isr retry 0).
Proof.
  unfold probe, eligible. change (Z.of_nat 0) with 0.
  rewrite Z.add_0_r. simpl pickRemote.
  destruct (String.eqb _ GetMyID); simpl; [reflexivity |].
  now destruct (memsMapHas _ _).
Qed.

(** The loop stops at the first probe that is eligible; when none of its
    probes is, it ends with the last one. *)
Lemma pickRemote_spec (fuel : nat) (isr : list string)
    (mems : list MemberInfo.t) (retry : Z) (remote0 : string) :
  let '(remote, retry') := pickRemote fuel isr mems retry remote0 in
  (exists k,
     (k < fuel)%nat
     /\ (forall j, (j < k)%nat -> eligible mems (probe isr retry j) = false)
     /\ eligible mems (probe isr retry k) = true
     /\ remote = probe isr retry k
     /\ retry' = retry + Z.of_nat k + 1)
  \/ ((forall j, (j < fuel)%nat -> eligible mems (probe isr retry j) = false)
      /\ retry' = retry + Z.of_nat fuel
      /\ remote = match fuel with
                  | O => remote0
                  | S f => probe isr retry f
                  end).
Proof.
  revert retry remote0.
  induction fuel as [|fuel IH]; intros retry remote0.
  - simpl. right. split; [intros j Hj; lia |]. split; [lia | reflexivity].
  - rewrite pickRemote_first_step.
    destruct (eligible mems (probe isr retry 0)) eqn:E.
    + left. exists 0%nat. repeat split; [lia | intros j Hj; lia | exact E | lia].
    + specialize (IH (retry + 1) (probe isr retry 0)).
      destruct (pickRemote fuel isr mems (retry + 1) (probe isr retry 0))
        as [remote retry'].
      destruct IH as [(k & Hk & Hbefore & Hat & Hr & Hretry)
                     | (Hnone & Hretry & Hr)].
      * left. exists (S k). rewrite probe_shift in Hat, Hr.
        repeat split; [lia | | exact Hat | exact Hr | lia].
        intros [|j] Hj; [exact E |].
        rewrite <- probe_shift. apply Hbefore. lia.
      * right. repeat split; [| lia |].
        -- intros [|j] Hj; [exact E |].
           rewrite <- probe_shift. apply Hnone. lia.
        -- destruct fuel as [|f]; [exact Hr |].
           now rewrite probe_shift in Hr.
Qed.

Lemma probe_In (isr : list string) (retry : Z) (j : nat) :
  isr <> [] -> 0 <= retry -> In (probe isr retry j) isr.
Proof.
  intros Hne Hretry. unfold probe. apply nth_In.
  assert (0 < Z.of_nat (List.length isr)) as Hlen.
  { destruct isr; [congruence | simpl List.length; lia]. }
  rewrite Z.rem_mod_nonneg by lia.
  pose proof (Z.mod_pos_bound (retry + Z.of_nat j)
                (Z.of_nat (List.length isr)) Hlen).
  lia.
Qed.

(** The first [len(isr)] probes read every node of [isr]. *)
Lemma probe_covers (isr : list string) (retry : Z) (c : string) :
  0 <= retry -> In c isr ->
  exists j, (j < List.length isr)%nat /\ probe isr retry j = c.
Proof.
  intros Hretry Hin.
  destruct (In_nth isr c "" Hin) as (i & Hi & Hnth).
  set (len := Z.of_nat (List.length isr)).
  assert (0 < len) as Hlen by (subst len; lia).
  pose proof (Z.mod_pos_bound (Z.of_nat i - retry) len Hlen) as B.
  exists (Z.to_nat ((Z.of_nat i - retry) mod len)).
  split; [subst len; lia |].
  unfold probe. fold len. rewrite Z2Nat.id by lia.
  rewrite Z.rem_mod_nonneg by lia.
  rewrite Zplus_mod_idemp_r.
  replace (retry + (Z.of_nat i - retry)) with (Z.of_nat i) by lia.
  rewrite Z.mod_small by (subst len; lia).
  now rewrite Nat2Z.id.
Qed.

Lemma requestJoinNamespaceGroup_events (raftID : Z)
    (nsInfo : PartitionMetaInfo.t) (remote : string) :
  requestJoinNamespaceGroup raftID nsInfo remote =
  if String.eqb remote GetMyID then []
  else [PostAddNode remote (joinMember nsInfo raftID)].
Proof. reflexivity. Qed.

Lemma joinCandidates_eq (nsInfo : PartitionMetaInfo.t) :
  (if Z.of_nat (List.length (PartitionMetaInfo.GetISR nsInfo)) =? 0
   then PartitionMetaInfo.RaftNodes nsInfo
   else PartitionMetaInfo.GetISR nsInfo) = joinCandidates nsInfo.
Proof.
  unfold joinCandidates.
  now destruct (PartitionMetaInfo.GetISR nsInfo).
Qed.

(** C5, as the code has it: in a turn of the retry loop the node counts
    as already joined exactly when the local members have one with
    self's registration id, the group name [Desp] and the replica id
    [RaftIDs[self]], and the members outnumber half of the ISR; only
    then is [IsRaftSynced] asked.  Otherwise the turn probes the ISR
    ([RaftNodes] when the ISR is empty) round-robin from [retry], at
    most [len + 1] times, and stops at the first node that is neither
    self nor a member: when there is such a node, the join request is
    posted to it; when there is none, the turn ends with its last probe,
    and the request is posted to that node unless it is self, in which
    case nothing is posted. *)
Theorem joinRound_spec (nsInfo : PartitionMetaInfo.t) (raftID retry : Z)
    (obs : JoinObs.t) :
  0 <= retry ->
  joinCandidates nsInfo <> [] ->
  let mems := JoinObs.Members obs in
  let isr := joinCandidates nsInfo in
  let trace := fst (fst (joinRound nsInfo raftID retry obs)) in
  (alreadyJoined nsInfo raftID mems = true <->
   (exists m,
      In m mems
      /\ MemberInfo.NodeID m = GetMyRegID
      /\ MemberInfo.GroupName m = PartitionMetaInfo.GetDesp nsInfo
      /\ MemberInfo.ID m = raftID)
   /\ Z.quot (Z.of_nat (List.length (PartitionMetaInfo.GetISR nsInfo))) 2
      < Z.of_nat (List.length mems))
  /\ (In IsRaftSynced trace <-> alreadyJoined nsInfo raftID mems = true)
  /\ (alreadyJoined nsInfo raftID mems = true ->
      forall remote m, ~ In (PostAddNode remote m) trace)
  /\ (alreadyJoined nsInfo raftID mems = false ->
      (exists c, In c isr /\ eligible mems c = true) ->
      exists k,
        (k < List.length isr)%nat
        /\ (forall j, (j < k)%nat -> eligible mems (probe isr retry j) = false)
        /\ eligible mems (probe isr retry k) = true
        /\ In (probe isr retry k) isr
        /\ trace = [PostAddNode (probe isr retry k) (joinMember nsInfo raftID)])
  /\ (alreadyJoined nsInfo raftID mems = false ->
      (forall c, In c isr -> eligible mems c = false) ->
      let last := probe isr retry (List.length isr) in
      In last isr
      /\ trace = if String.eqb last GetMyID then []
                 else [PostAddNode last (joinMember nsInfo raftID)]).
Proof.
  intros Hretry Hne mems isr trace.
  assert (alreadyJoined nsInfo raftID mems = false ->
          trace =
          requestJoinNamespaceGroup raftID nsInfo
            (fst (pickRemote (S (List.length isr)) isr mems retry "")))
    as Helse.
  { intros Hnot. subst trace isr. unfold joinRound. fold mems.
    rewrite Hnot, joinCandidates_eq.
    destruct (joinCandidates nsInfo) as [|c0 rest]; [congruence |].
    cbv iota.
    now destruct (pickRemote (S (List.length (c0 :: rest))) (c0 :: rest)
                    mems retry ""). }
  assert (alreadyJoined nsInfo raftID mems = true -> trace = [IsRaftSynced])
    as Hthen.
  { intros Hyes. subst trace. unfold joinRound. fold mems. rewrite Hyes.
    destruct (JoinObs.RaftSynced obs); [reflexivity |].
    now destruct (JoinObs.Stopped obs). }
  pose proof (pickRemote_spec (S (List.length isr)) isr mems retry "") as Hpick.
  destruct (pickRemote (S (List.length isr)) isr mems retry "")
    as [remote retry'].
  simpl fst in Helse.
  split; [apply alreadyJoined_spec |].
  split.
  { destruct (alreadyJoined nsInfo raftID mems) eqn:J.
    - rewrite (Hthen eq_refl). split; [reflexivity | intros _; now left].
    - rewrite (Helse eq_refl), requestJoinNamespaceGroup_events.
      split; [| discriminate].
      destruct (String.eqb remote GetMyID); [intros [] | intros [H | []]].
      discriminate. }
  split.
  { intros Hyes remote' m. rewrite (Hthen Hyes). intros [H | []]. discriminate. }
  split.
  - intros Hnot (c & Hc & Hel). rewrite (Helse Hnot).
    destruct Hpick as [(k & Hk & Hbefore & Hat & -> & _) | (Hnone & _)].
    + destruct (Nat.eq_dec k (List.length isr)) as [-> | Hkne].
      * destruct (probe_covers isr retry c Hretry Hc) as (j & Hj & Hp).
        specialize (Hbefore j Hj). congruence.
      * exists k. repeat split; [lia | exact Hbefore | exact Hat | |].
        -- now apply probe_In.
        -- rewrite requestJoinNamespaceGroup_events.
           unfold eligible in Hat. apply andb_true_iff in Hat.
           destruct Hat as [Hself _].
           now destruct (String.eqb (probe isr retry k) GetMyID).
    + destruct (probe_covers isr retry c Hretry Hc) as (j & Hj & Hp).
      specialize (Hnone j (Nat.lt_lt_succ_r _ _ Hj)). congruence.
  - intros Hnot Hall last. split; [now apply probe_In |].
    rewrite (Helse Hnot), requestJoinNamespaceGroup_events.
    destruct Hpick as [(k & Hk & _ & Hat & _) | (_ & _ & ->)].
    + rewrite Hall in Hat by now apply probe_In. discriminate.
    + reflexivity.
Qed.

(** *** Backpressure of the join protocol *)

Lemma wrap32_small (z : Z) : - 2 ^ 31 <= z < 2 ^ 31 -> wrap32 z = z.
Proof.
  intros H. unfold wrap32. rewrite Z.mod_small; lia.
Qed.

Lemma count_app (f : JoinLimit.Phase -> bool) (l1 l2 : list JoinLimit.Phase) :
  JoinLimit.count f (l1 ++ l2)
  = (JoinLimit.count f l1 + JoinLimit.count f l2)%nat.
Proof.
  induction l1 as [|p l1 IH]; simpl; [reflexivity |]. rewrite IH. lia.
Qed.

Lemma count_length (f : JoinLimit.Phase -> bool) (l : list JoinLimit.Phase) :
  (JoinLimit.count f l <= List.length l)%nat.
Proof.
  induction l as [|p l IH]; simpl; [lia |]. destruct (f p); lia.
Qed.

Lemma count_joining_inside (l : list JoinLimit.Phase) :
  (JoinLimit.count JoinLimit.isJoining l
   <= JoinLimit.count JoinLimit.isInside l)%nat.
Proof.
  induction l as [|p l IH]; simpl; [lia |]. destruct p; simpl; lia.
Qed.

Lemma count_repeat_Idle (f : JoinLimit.Phase -> bool) (n : nat) :
  f JoinLimit.Idle = false ->
  JoinLimit.count f (repeat JoinLimit.Idle n) = O.
Proof.
  intros H. induction n as [|n IH]; simpl; [reflexivity |].
  now rewrite H, IH.
Qed.

Lemma limitInvariant_step (n : nat) (s s' : JoinLimit.State) :
  Z.of_nat n < 2 ^ 31 ->
  limitInvariant n s -> JoinLimit.step s s' -> limitInvariant n s'.
Proof.
  intros Hn (Hlen & Hcnt & Hjoin) Hstep.
  unfold limitInvariant, JoinLimit.joining, MAX_RAFT_JOIN_RUNNING in *.
  destruct Hstep as [counter before after | counter before after p Hp];
    simpl in *; rewrite ?count_app, ?length_app in *; simpl in *.
  - pose proof (count_length JoinLimit.isInside before).
    pose proof (count_length JoinLimit.isInside after).
    pose proof (count_joining_inside before).
    pose proof (count_joining_inside after).
    unfold JoinLimit.enter, MAX_RAFT_JOIN_RUNNING.
    rewrite wrap32_small by lia. simpl.
    destruct (5 <? counter + 1) eqn:T; simpl.
    + repeat split; lia.
    + apply Z.ltb_ge in T. repeat split; lia.
  - pose proof (count_length JoinLimit.isInside before).
    pose proof (count_length JoinLimit.isInside after).
    unfold JoinLimit.leave.
    destruct p; [congruence | |]; simpl in *;
      (rewrite wrap32_small by lia); repeat split; lia.
Qed.

Lemma limitInvariant_reachable (n : nat) (s : JoinLimit.State) :
  Z.of_nat n < 2 ^ 31 -> JoinLimit.reachable n s -> limitInvariant n s.
Proof.
  intros Hn Hreach. induction Hreach as [|s s' _ IH Hstep].
  - unfold limitInvariant, JoinLimit.joining, MAX_RAFT_JOIN_RUNNING. simpl.
    rewrite repeat_length, !count_repeat_Idle by reflexivity.
    repeat split; lia.
  - now apply (limitInvariant_step n s s').
Qed.

(** C6: a call of [ensureJoinNamespaceGroup] for a meta that does not
    mark self as removing, whose increment takes [catchupRunning] above
    [MAX_RAFT_JOIN_RUNNING] (= 5), returns [ErrCatchupRunningBusy] after
    the retry nudge and nothing else: no join request, and the counter
    is released.  Hence, however the atomic operations of the goroutines
    (fewer than [2^31] of them) interleave, at most 5 calls are admitted
    and joining at any time. *)
Theorem ensureJoinNamespaceGroup_backpressure (nsInfo : PartitionMetaInfo.t)
    (catchupRunning : Z) (rounds : list JoinObs.t) :
  selfIsRemoving nsInfo = false ->
  MAX_RAFT_JOIN_RUNNING < wrap32 (catchupRunning + 1) ->
  MAX_RAFT_JOIN_RUNNING = 5
  /\ ensureJoinNamespaceGroup catchupRunning nsInfo rounds
     = (JoinLimit.leave (fst (JoinLimit.enter catchupRunning)),
        [TryCheckNamespaces],
        Returns (Some ErrCatchupRunningBusy))
  /\ snd (JoinLimit.enter catchupRunning) = JoinLimit.Rejected
  /\ (forall remote m,
        ~ In (PostAddNode remote m)
            (snd (fst (ensureJoinNamespaceGroup catchupRunning nsInfo rounds))))
  /\ (forall n s,
        Z.of_nat n < 2 ^ 31 ->
        JoinLimit.reachable n s ->
        (JoinLimit.joining s <= 5)%nat).
Proof.
  intros Hrm Hbusy.
  assert (ensureJoinNamespaceGroup catchupRunning nsInfo rounds
          = (JoinLimit.leave (fst (JoinLimit.enter catchupRunning)),
             [TryCheckNamespaces],
             Returns (Some ErrCatchupRunningBusy))) as E.
  { unfold ensureJoinNamespaceGroup. rewrite Hrm.
    apply Z.ltb_lt in Hbusy. now rewrite Hbusy. }
  split; [reflexivity |].
  split; [exact E |].
  split.
  { unfold JoinLimit.enter. simpl. apply Z.ltb_lt in Hbusy. now rewrite Hbusy. }
  split.
  { intros remote m. rewrite E. simpl. intros [H | []]. discriminate. }
  intros n s Hn Hreach.
  destruct (limitInvariant_reachable n s Hn Hreach) as (_ & _ & H).
  unfold MAX_RAFT_JOIN_RUNNING in H. lia.
Qed.

(** *** Replica configuration *)

Lemma seedNodesFrom_spec (nsInfo : PartitionMetaInfo.t) (isr : list string) :
  seedNodesFrom nsInfo (PartitionMetaInfo.RaftID nsInfo GetMyID) isr =
  map (seedOf nsInfo) (filter (resolvable nsInfo) isr).
Proof.
  induction isr as [|nid rest IH]; simpl; [reflexivity |].
  destruct (String.eqb nid GetMyID) eqn:E.
  - unfold resolvable at 1. rewrite E. simpl.
    unfold seedOf at 1. rewrite E. f_equal. exact IH.
  - unfold resolvable at 1. rewrite E. simpl orb.
    destruct (mapGet nid (PartitionMetaInfo.RaftIDs nsInfo)) as [rid|] eqn:M;
      simpl; [| exact IH].
    unfold getRaftAddrForNode.
    destruct (GetNodeInfo nid) as [err | node] eqn:G; simpl; [exact IH |].
    assert (PartitionMetaInfo.RaftID nsInfo nid = rid) as R
      by (unfold PartitionMetaInfo.RaftID; now rewrite M).
    unfold seedOf at 1. rewrite E, G, R. f_equal. exact IH.
Qed.

Lemma groupIDOf_mod (nsInfo : PartitionMetaInfo.t) :
  groupIDOf nsInfo =
  (PartitionMetaInfo.MinGID nsInfo + PartitionMetaInfo.Partition nsInfo)
  mod 2 ^ 64.
Proof.
  unfold groupIDOf, wrap64. now rewrite <- Zplus_mod.
Qed.

(** C7: [prepareNamespaceConf] fails exactly when [RaftIDs] has no
    entry for self or no seed can be derived, and then with
    [ErrNamespaceConfInvalid]; otherwise its config has [Replicator =
    Replica], [GroupID = MinGID + Partition] (in [uint64] arithmetic;
    the plain sum when that fits), and as [SeedNodes] the seeds of the
    ISR in order, without the nodes other than self that have no entry
    in [RaftIDs] or whose raft address the registry does not resolve. *)
Theorem prepareNamespaceConf_spec (nsInfo : PartitionMetaInfo.t) :
  ((exists e, prepareNamespaceConf nsInfo = inl e) <->
   mapGet GetMyID (PartitionMetaInfo.RaftIDs nsInfo) = None
   \/ seedNodesSpec nsInfo = [])
  /\ (forall e,
        prepareNamespaceConf nsInfo = inl e -> e = ErrNamespaceConfInvalid)
  /\ (forall nsConf,
        prepareNamespaceConf nsInfo = inr nsConf ->
        NamespaceConfig.Replicator nsConf = PartitionMetaInfo.Replica nsInfo
        /\ NamespaceConfig.GroupID nsConf
           = (PartitionMetaInfo.MinGID nsInfo
              + PartitionMetaInfo.Partition nsInfo) mod 2 ^ 64
        /\ (0 <= PartitionMetaInfo.MinGID nsInfo ->
            0 <= PartitionMetaInfo.Partition nsInfo ->
            PartitionMetaInfo.MinGID nsInfo
            + PartitionMetaInfo.Partition nsInfo < 2 ^ 64 ->
            NamespaceConfig.GroupID nsConf
            = PartitionMetaInfo.MinGID nsInfo
              + PartitionMetaInfo.Partition nsInfo)
        /\ NamespaceConfig.SeedNodes nsConf = seedNodesSpec nsInfo).
Proof.
  unfold prepareNamespaceConf.
  destruct (mapGet GetMyID (PartitionMetaInfo.RaftIDs nsInfo))
    as [raftID|] eqn:M.
  - assert (PartitionMetaInfo.RaftID nsInfo GetMyID = raftID) as R
      by (unfold PartitionMetaInfo.RaftID; now rewrite M).
    rewrite <- R. simpl NamespaceConfig.SeedNodes.
    unfold PartitionMetaInfo.GetISR. rewrite seedNodesFrom_spec.
    fold (seedNodesSpec nsInfo).
    destruct (seedNodesSpec nsInfo) as [|seed seeds] eqn:Seeds.
    + simpl. split; [split; [auto | eauto] |].
      split; [now intros e [= <-] | intros nsConf [=]].
    + simpl List.length.
      assert ((Z.of_nat (S (List.length seeds)) =? 0) = false) as ->
        by (apply Z.eqb_neq; lia).
      split.
      { split; [intros (e & [=]) | intros [[=] | [=]]]. }
      split; [intros e [=] |].
      intros nsConf [= <-]. simpl.
      split; [reflexivity |].
      split; [apply groupIDOf_mod |].
      split; [| reflexivity].
      intros H1 H2 H3. rewrite groupIDOf_mod. apply Z.mod_small. lia.
  - split; [split; [auto | eauto] |].
    split; [now intros e [= <-] | intros nsConf [=]].
Qed.

(** *** Shutdown *)

(** C8: when a call of [Stop] completes, the [stopping] flag is set, and
    a second call returns at once: it changes nothing and calls nothing
    (in particular it does not close [stopChan] again).  A first call
    that does more than test the flag completes only on a coordinator
    with a register: without one, [prepareLeavingCluster] dereferences
    the nil register. *)
Theorem Stop_idempotent (c c' : DataCoordinator.t) (evs : list Event) :
  Stop c = Returns (c', evs) ->
  DataCoordinator.stopping c' = 1
  /\ Stop c' = Returns (c', [])
  /\ (DataCoordinator.stopping c <> 1 ->
      DataCoordinator.hasRegister c = true
      /\ DataCoordinator.stopChanClosed c = false
      /\ DataCoordinator.stopChanClosed c' = true
      /\ In CloseStopChan evs).
Proof.
  unfold Stop.
  destruct (DataCoordinator.stopping c =? 1) eqn:S.
  - intros [= <- <-]. rewrite S. apply Z.eqb_eq in S. tauto.
  - unfold prepareLeavingCluster.
    destruct (DataCoordinator.hasRegister c); simpl; [| discriminate].
    destruct (leavePartitions c allPartitions) as [evs0|]; simpl;
      [| discriminate].
    destruct (if DataCoordinator.hasNSMgr c then Returns [StopNamespaceMgr]
              else if nilNSMgrCallReturns then Returns [] else Panics)
      as [evs1|]; simpl; [| discriminate].
    destruct (DataCoordinator.stopChanClosed c) eqn:Closed; [discriminate |].
    intros [= <- <-]. simpl.
    repeat split; try reflexivity.
    rewrite !in_app_iff. right. now left.
Qed.

(** On a coordinator without a register, a call of [Stop] that passes
    the test of the flag does not complete: [prepareLeavingCluster]
    starts with [self.register.GetAllNamespaces()]. *)
Lemma Stop_without_register (c : DataCoordinator.t) :
  DataCoordinator.hasRegister c = false ->
  DataCoordinator.stopping c <> 1 ->
  Stop c = Panics.
Proof.
  intros Hreg Hflag. unfold Stop, prepareLeavingCluster.
  apply Z.eqb_neq in Hflag. now rewrite Hflag, Hreg.
Qed.

(** *** Statistics *)

(** For a partition [part >= 0] that the registry has, [Stats] returns
    one entry, with one [ISRStat] per node of [RaftNodes]. *)
Lemma Stats_lists_RaftNodes (namespace : string) (part : Z)
    (meta : NamespaceMetaInfo.t) (nsInfo : PartitionMetaInfo.t) :
  namespace <> "" ->
  GetNamespaceMetaInfo namespace = inr meta ->
  0 <= part ->
  GetNamespacePartInfo namespace part = inr nsInfo ->
  Stats namespace part =
  [NamespaceCoordStat.mk namespace part
     (isrStatsOf (PartitionMetaInfo.RaftNodes nsInfo))].
Proof.
  intros Hns Hmeta Hpart Hinfo. unfold Stats.
  assert ((0 <? Z.of_nat (String.length namespace)) = true) as ->.
  { apply Z.ltb_lt. destruct namespace; [congruence | simpl; lia]. }
  rewrite Hmeta.
  apply Z.leb_le in Hpart. now rewrite Hpart, Hinfo.
Qed.

(** ** Further properties of the reconciler *)

(** The test of the removal phase: some entry of [RaftIDs] has the
    replica id of the member. *)
Definition listedInRaftIDs (nsInfo : PartitionMetaInfo.t) (m : MemberInfo.t)
    : bool :=
  existsb (fun '(_, rid) => MemberInfo.ID m =? rid)
    (PartitionMetaInfo.RaftIDs nsInfo).

(** The member that the add phase builds for the entry [(nid, rid)] of
    [RaftIDs] once the raft address of [nid] is resolved. *)
Definition missingMember (nsInfo : PartitionMetaInfo.t) (nid : string)
    (rid : Z) (raddr : string) : MemberInfo.t :=
  MemberInfo.mk rid (ExtractRegIDFromGenID nid) (groupIDOf nsInfo)
    (PartitionMetaInfo.GetDesp nsInfo) [raddr].

Lemma addMissingMembers_adds (nsInfo : PartitionMetaInfo.t)
    (members : list MemberInfo.t) (raftIDs : list (string * Z))
    (anyJoined : bool) (m : MemberInfo.t) :
  In (ProposeAddMember m)
    (snd (addMissingMembers nsInfo members raftIDs anyJoined)) ->
  exists nid rid raddr,
    In (nid, rid) raftIDs
    /\ memberWithID members rid = false
    /\ getRaftAddrForNode nid = inr raddr
    /\ m = missingMember nsInfo nid rid raddr
    /\ markedAsRemoving (PartitionMetaInfo.Removings nsInfo) m = false
    /\ GetNamespaceNode (PartitionMetaInfo.GetDesp nsInfo) <> None.
Proof.
  revert anyJoined.
  induction raftIDs as [|[nid rid] rest IH]; intros anyJoined; simpl.
  - intros [].
  - destruct (memberWithID members rid) eqn:Found.
    + intros H. destruct (IH _ H) as (n & r & a & Hin & Hrest).
      exists n, r, a. split; [now right | exact Hrest].
    + destruct (addMissingMembers nsInfo members rest true)
        as [anyJoined' evs'] eqn:R.
      simpl. rewrite in_app_iff. intros [H | H].
      * destruct (getRaftAddrForNode nid) as [err | raddr] eqn:A;
          [destruct H |].
        unfold addNamespaceRaftMember in H. simpl in H.
        fold (missingMember nsInfo nid rid raddr) in H.
        destruct (markedAsRemoving _ (missingMember nsInfo nid rid raddr))
          eqn:Marked; [destruct H |].
        destruct (GetNamespaceNode (PartitionMetaInfo.GetDesp nsInfo))
          as [nsNode|] eqn:Node; [| destruct H].
        destruct H as [[= <-] | []].
        exists nid, rid, raddr.
        repeat split; try assumption; try reflexivity.
        -- now left.
        -- discriminate.
      * assert (In (ProposeAddMember m)
                  (snd (addMissingMembers nsInfo members rest true))) as H'
          by now rewrite R.
        destruct (IH _ H') as (n & r & a & Hin & Hrest).
        exists n, r, a. split; [now right | exact Hrest].
Qed.

Lemma addMissingMembers_all_joined (nsInfo : PartitionMetaInfo.t)
    (members : list MemberInfo.t) (raftIDs : list (string * Z))
    (anyJoined : bool) :
  (forall nid rid, In (nid, rid) raftIDs -> memberWithID members rid = true) ->
  addMissingMembers nsInfo members raftIDs anyJoined = (anyJoined, []).
Proof.
  induction raftIDs as [|[nid rid] rest IH]; intros Hall; simpl;
    [reflexivity |].
  rewrite (Hall nid rid) by now left.
  apply IH. intros n r Hin. apply (Hall n r). now right.
Qed.

Lemma removeMarked_In (nsInfo : PartitionMetaInfo.t) (m m' : MemberInfo.t)
    (removings : list (string * RemovingInfo.t)) (nsNode : NamespaceNode.t) :
  GetNamespaceNode (PartitionMetaInfo.GetDesp nsInfo) = Some nsNode ->
  In (ProposeRemoveMember m') (removeMarked nsInfo m removings) <->
  m' = m /\ markedAsRemoving removings m = true.
Proof.
  intros Hnode. unfold markedAsRemoving.
  induction removings as [|[nid removing] rest IH]; simpl.
  - split; [intros [] | intros (_ & [=])].
  - rewrite in_app_iff, IH. unfold removeNamespaceRaftMember. rewrite Hnode.
    destruct ((MemberInfo.ID m =? RemovingInfo.RemoveReplicaID removing)
              && (MemberInfo.NodeID m =? ExtractRegIDFromGenID nid)); simpl.
    + split.
      * intros [[[= ->] | []] | (-> & _)]; auto.
      * intros (-> & _). left. now left.
    + split.
      * intros [[] | H]; exact H.
      * intros H. right. exact H.
Qed.

Lemma removeUnneededMembers_In (nsInfo : PartitionMetaInfo.t)
    (members : list MemberInfo.t) (m : MemberInfo.t)
    (nsNode : NamespaceNode.t) :
  GetNamespaceNode (PartitionMetaInfo.GetDesp nsInfo) = Some nsNode ->
  In (ProposeRemoveMember m) (removeUnneededMembers nsInfo members) <->
  In m members
  /\ (listedInRaftIDs nsInfo m = false
      \/ markedAsRemoving (PartitionMetaInfo.Removings nsInfo) m = true).
Proof.
  intros Hnode.
  induction members as [|m0 rest IH]; simpl.
  - split; [intros [] | intros ([] & _)].
  - rewrite in_app_iff, IH. fold (listedInRaftIDs nsInfo m0).
    destruct (listedInRaftIDs nsInfo m0) eqn:Listed.
    + rewrite (removeMarked_In nsInfo m0 m _ nsNode Hnode). split.
      * intros [(-> & Hm) | (Hin & Hm)]; auto.
      * intros ([<- | Hin] & [Hm | Hm]).
        -- congruence.
        -- left. split; [reflexivity | exact Hm].
        -- right. split; [exact Hin | now left].
        -- right. split; [exact Hin | now right].
    + unfold removeNamespaceRaftMember. rewrite Hnode. split.
      * intros [[[= ->] | []] | (Hin & Hm)]; auto.
      * intros ([<- | Hin] & Hm); [left; now left | right; now split].
Qed.

(** X1: every member that a pass proposes to add comes from an entry
    [(nid, rid)] of [RaftIDs] whose replica id no current member has
    and whose raft address the registry resolves: the proposal carries
    that replica id, the registration id of [nid], the group id and
    name of the partition and that single address; it is not marked as
    removing, and the local replica exists. *)
Theorem syncMembers_additions (namespaceMeta : PartitionMetaInfo.t)
    (isReplicasEnough : bool) (m : MemberInfo.t) :
  In (ProposeAddMember m) (syncMembers namespaceMeta isReplicasEnough) ->
  exists nid rid raddr,
    In (nid, rid) (PartitionMetaInfo.RaftIDs namespaceMeta)
    /\ memberWithID (getNamespaceRaftMembers namespaceMeta) rid = false
    /\ getRaftAddrForNode nid = inr raddr
    /\ m = missingMember namespaceMeta nid rid raddr
    /\ markedAsRemoving (PartitionMetaInfo.Removings namespaceMeta) m = false
    /\ GetNamespaceNode (PartitionMetaInfo.GetDesp namespaceMeta) <> None.
Proof.
  unfold syncMembers.
  pose proof (addMissingMembers_adds namespaceMeta
                (getNamespaceRaftMembers namespaceMeta)
                (PartitionMetaInfo.RaftIDs namespaceMeta) false m) as Hadds.
  destruct (addMissingMembers _ _ _ false) as [anyJoined adds].
  simpl in Hadds.
  destruct (_ || _ || _); rewrite in_app_iff; intros [H | H].
  - now apply Hadds.
  - destruct H as [H | []]. discriminate.
  - now apply Hadds.
  - apply removeUnneededMembers_events in H.
    destruct H as (m' & _ & E). discriminate.
Qed.

(** X2: a member that a pass proposes to remove is a current member
    that no entry of [RaftIDs] lists or that [Removings] marks; and in
    the removal phase (every replica id of [RaftIDs] has a member, the
    members outnumber [Replica], the ISR is large enough, the local
    replica exists) every such member is proposed. *)
Theorem syncMembers_removals (namespaceMeta : PartitionMetaInfo.t)
    (isReplicasEnough : bool) :
  let members := getNamespaceRaftMembers namespaceMeta in
  let trace := syncMembers namespaceMeta isReplicasEnough in
  let unneeded m :=
    In m members
    /\ (listedInRaftIDs namespaceMeta m = false
        \/ markedAsRemoving (PartitionMetaInfo.Removings namespaceMeta) m
           = true) in
  (forall m, In (ProposeRemoveMember m) trace -> unneeded m)
  /\ ((forall nid rid,
         In (nid, rid) (PartitionMetaInfo.RaftIDs namespaceMeta) ->
         memberWithID members rid = true) ->
      PartitionMetaInfo.Replica namespaceMeta < Z.of_nat (List.length members) ->
      isReplicasEnough = true ->
      forall m, unneeded m -> In (ProposeRemoveMember m) trace).
Proof.
  intros members trace unneeded. subst trace unneeded. unfold syncMembers.
  fold members.
  pose proof (addMissingMembers_events namespaceMeta members
                (PartitionMetaInfo.RaftIDs namespaceMeta) false) as Hadds.
  pose proof (addMissingMembers_all_joined namespaceMeta members
                (PartitionMetaInfo.RaftIDs namespaceMeta) false) as Hall.
  destruct (addMissingMembers namespaceMeta members
              (PartitionMetaInfo.RaftIDs namespaceMeta) false)
    as [anyJoined adds] eqn:A.
  simpl in Hadds.
  destruct (GetNamespaceNode (PartitionMetaInfo.GetDesp namespaceMeta))
    as [nsNode|] eqn:Node.
  - split.
    + intros m. destruct (_ || _ || _); rewrite in_app_iff; intros [H | H].
      * destruct (Hadds _ H) as (m' & E). discriminate.
      * destruct H as [H | []]. discriminate.
      * destruct (Hadds _ H) as (m' & E). discriminate.
      * now apply (removeUnneededMembers_In namespaceMeta members m nsNode Node).
    + intros Hjoined Hmore -> m Hm.
      specialize (Hall Hjoined). injection Hall as -> ->.
      assert ((Z.of_nat (List.length members)
               <=? PartitionMetaInfo.Replica namespaceMeta) = false) as ->
        by (apply Z.leb_gt; exact Hmore).
      simpl.
      now apply (removeUnneededMembers_In namespaceMeta members m nsNode Node).
  - assert (members = []) as Hnil
      by (subst members; unfold getNamespaceRaftMembers; now rewrite Node).
    split.
    + intros m. destruct (_ || _ || _); rewrite in_app_iff; intros [H | H].
      * destruct (Hadds _ H) as (m' & E). discriminate.
      * destruct H as [H | []]. discriminate.
      * destruct (Hadds _ H) as (m' & E). discriminate.
      * rewrite Hnil in H. destruct H.
    + intros _ _ _ m (Hin & _). rewrite Hnil in Hin. destruct Hin.
Qed.

(** X3: on a group that has converged (every replica id of [RaftIDs]
    has a member and the members are at most [Replica]) a pass proposes
    nothing, but it still schedules the retry. *)
Theorem syncMembers_converged (namespaceMeta : PartitionMetaInfo.t)
    (isReplicasEnough : bool) :
  (forall nid rid,
     In (nid, rid) (PartitionMetaInfo.RaftIDs namespaceMeta) ->
     memberWithID (getNamespaceRaftMembers namespaceMeta) rid = true) ->
  Z.of_nat (List.length (getNamespaceRaftMembers namespaceMeta))
  <= PartitionMetaInfo.Replica namespaceMeta ->
  syncMembers namespaceMeta isReplicasEnough = [TryCheckNamespaces].
Proof.
  intros Hjoined Hfew. unfold syncMembers.
  rewrite (addMissingMembers_all_joined _ _ _ false Hjoined).
  apply Z.leb_le in Hfew. now rewrite Hfew.
Qed.

Lemma syncMembers_events (namespaceMeta : PartitionMetaInfo.t)
    (isReplicasEnough : bool) (e : Event) :
  In e (syncMembers namespaceMeta isReplicasEnough) ->
  (exists m, e = ProposeAddMember m)
  \/ (exists m, e = ProposeRemoveMember m)
  \/ e = TryCheckNamespaces.
Proof.
  unfold syncMembers.
  pose proof (addMissingMembers_events namespaceMeta
                (getNamespaceRaftMembers namespaceMeta)
                (PartitionMetaInfo.RaftIDs namespaceMeta) false) as Hadds.
  destruct (addMissingMembers _ _ _ false) as [anyJoined adds].
  simpl in Hadds.
  destruct (_ || _ || _); rewrite in_app_iff; intros [H | H].
  - left. now apply Hadds.
  - destruct H as [<- | []]. right. now right.
  - left. now apply Hadds.
  - apply removeUnneededMembers_events in H.
    destruct H as (m & _ & ->). right. left. now exists m.
Qed.

Lemma transferMyNamespaceLeader_events (nsInfo : PartitionMetaInfo.t)
    (nid : string) (e : Event) :
  In e (transferMyNamespaceLeader nsInfo nid) ->
  exists toRaftID,
    e = TransferMyLeader (ExtractRegIDFromGenID nid) toRaftID
    /\ mapGet nid (PartitionMetaInfo.RaftIDs nsInfo) = Some toRaftID.
Proof.
  unfold transferMyNamespaceLeader.
  destruct (GetNamespaceNode _); [| intros []].
  destruct (mapGet nid _) as [r|]; [| intros []].
  intros [<- | []]. now exists r.
Qed.

Lemma removeLocalNamespaceFromRaft_data (localNamespace : NamespaceNode.t) :
  fst (removeLocalNamespaceFromRaft localNamespace true) =
  if NamespaceNode.Ready localNamespace
  then [ProposeRemoveMember (NamespaceNode.LocalMemberInfo localNamespace)]
  else [].
Proof.
  unfold removeLocalNamespaceFromRaft. simpl.
  destruct (NamespaceNode.Ready localNamespace); simpl; [| reflexivity].
  now destruct (NamespaceNode.ProposeRemoveErr localNamespace).
Qed.

(** What the loop body of [doWork] does once the registry has returned
    the meta of the replica. *)
Lemma checkLocalNamespace_found (name namespace : string) (pid : Z)
    (localNamespace : NamespaceNode.t) (namespaceMeta : PartitionMetaInfo.t) :
  GetNamespaceAndPartition name = (namespace, pid) ->
  namespace <> "" ->
  GetNamespacePartInfo namespace pid = inr namespaceMeta ->
  let isrList := PartitionMetaInfo.GetISR namespaceMeta in
  let leader := getNamespaceRaftLeader namespaceMeta in
  let isReplicasEnough :=
    PartitionMetaInfo.Replica namespaceMeta <=? Z.of_nat (List.length isrList) in
  checkLocalNamespace name localNamespace =
  if leader =? 0 then []
  else if FindSlice isrList GetMyID =? -1 then
    if 0 <? Z.of_nat (List.length isrList)
    then fst (removeLocalNamespaceFromRaft localNamespace true)
    else []
  else if negb (leader =? GetMyRegID) || (Z.of_nat (List.length isrList) =? 0)
  then []
  else if isReplicasEnough && negb (String.eqb (hd "" isrList) GetMyID)
  then transferMyNamespaceLeader namespaceMeta (hd "" isrList)
  else syncMembers namespaceMeta isReplicasEnough.
Proof.
  intros Hname Hns Hmeta isrList leader isReplicasEnough.
  unfold checkLocalNamespace. rewrite Hname.
  apply String.eqb_neq in Hns. rewrite Hns, Hmeta.
  now rewrite isNamespaceShouldStop_false.
Qed.

(** When the loop body of [doWork] destroys a replica. *)
Lemma checkLocalNamespace_Destroy_iff (name namespace : string) (pid : Z)
    (localNamespace n : NamespaceNode.t) :
  GetNamespaceAndPartition name = (namespace, pid) ->
  In (Destroy n) (checkLocalNamespace name localNamespace) <->
  n = localNamespace
  /\ namespace <> ""
  /\ GetNamespacePartInfo namespace pid = inl ErrKeyNotFound
  /\ GetNamespaceMetaInfo namespace = inl ErrKeyNotFound.
Proof.
  intros Hname.
  destruct (String.eqb namespace "") eqn:Empty.
  { unfold checkLocalNamespace. rewrite Hname, Empty.
    apply String.eqb_eq in Empty.
    split; [intros [] | intros (_ & Hne & _); congruence]. }
  assert (namespace <> "") as Hns by now apply String.eqb_neq.
  destruct (GetNamespacePartInfo namespace pid) as [err | namespaceMeta] eqn:P.
  - unfold checkLocalNamespace. rewrite Hname, Empty, P.
    destruct err as [|msg].
    + destruct (GetNamespaceMetaInfo namespace) as [[|msg] | meta] eqn:M.
      * rewrite removeLocalNamespaceFromRaft_data, !in_app_iff.
        unfold forceRemoveLocalNamespace. split.
        -- intros [[H | H] | H].
           ++ destruct (NamespaceNode.Ready localNamespace);
                [destruct H as [H | []]; discriminate | destruct H].
           ++ destruct H as [[= ->] | []]. auto.
           ++ destruct H as [H | []]. discriminate.
        -- intros (-> & _). left. right. now left.
      * simpl.
        split; [intros [H | []]; discriminate | intros (_ & _ & _ & [=])].
      * simpl.
        split; [intros [H | []]; discriminate | intros (_ & _ & _ & [=])].
    + simpl. split; [intros [H | []]; discriminate | intros (_ & _ & [=] & _)].
  - rewrite (checkLocalNamespace_found name namespace pid localNamespace
               namespaceMeta Hname Hns P).
    split; [| intros (_ & _ & [=] & _)].
    intros H. exfalso.
    destruct (_ =? 0); [destruct H |].
    destruct (FindSlice _ GetMyID =? -1).
    { destruct (0 <? _); [| destruct H].
      rewrite removeLocalNamespaceFromRaft_data in H.
      destruct (NamespaceNode.Ready localNamespace);
        [destruct H as [H | []]; discriminate | destruct H]. }
    destruct (negb _ || _); [destruct H |].
    destruct (_ && _).
    + apply transferMyNamespaceLeader_events in H.
      destruct H as (r & E & _). discriminate.
    + apply syncMembers_events in H.
      destruct H as [(m & E) | [(m & E) | E]]; discriminate.
Qed.

(** X4: the loop body of [doWork] destroys a local replica only when
    the registry has neither its partition nor the meta of its
    namespace (both lookups answer [ErrKeyNotFound]), and then it
    destroys exactly that replica; a replica whose meta the registry
    still returns is never destroyed. *)
Theorem checkLocalNamespace_destroys (name namespace : string) (pid : Z)
    (localNamespace n : NamespaceNode.t) :
  GetNamespaceAndPartition name = (namespace, pid) ->
  In (Destroy n) (checkLocalNamespace name localNamespace) <->
  n = localNamespace
  /\ namespace <> ""
  /\ GetNamespacePartInfo namespace pid = inl ErrKeyNotFound
  /\ GetNamespaceMetaInfo namespace = inl ErrKeyNotFound.
Proof.
  exact (checkLocalNamespace_Destroy_iff name namespace pid localNamespace n).
Qed.

(** X5: a replica that does not lead its group leaves the group alone:
    when no leader is known, or when another node leads and self is in
    the ISR, the pass does nothing for the replica. *)
Theorem checkLocalNamespace_follower_passive (name namespace : string)
    (pid : Z) (localNamespace : NamespaceNode.t)
    (namespaceMeta : PartitionMetaInfo.t) :
  GetNamespaceAndPartition name = (namespace, pid) ->
  GetNamespacePartInfo namespace pid = inr namespaceMeta ->
  getNamespaceRaftLeader namespaceMeta = 0
  \/ (getNamespaceRaftLeader namespaceMeta <> GetMyRegID
      /\ In GetMyID (PartitionMetaInfo.GetISR namespaceMeta)) ->
  checkLocalNamespace name localNamespace = [].
Proof.
  intros Hname Hmeta Hcase.
  destruct (String.eqb namespace "") eqn:Empty.
  { unfold checkLocalNamespace. now rewrite Hname, Empty. }
  assert (namespace <> "") as Hns by now apply String.eqb_neq.
  rewrite (checkLocalNamespace_found name namespace pid localNamespace
             namespaceMeta Hname Hns Hmeta).
  destruct Hcase as [-> | (Hlead & Hisr)]; [reflexivity |].
  destruct (_ =? 0); [reflexivity |].
  assert ((FindSlice (PartitionMetaInfo.GetISR namespaceMeta) GetMyID =? -1)
          = false) as ->.
  { apply Z.eqb_neq. intros F. now apply FindSlice_absent in F. }
  apply Z.eqb_neq in Hlead. now rewrite Hlead.
Qed.

(** X6: a replica that the meta no longer has in a non-empty ISR asks
    its group to remove it, whoever leads: once a leader is known, the
    pass proposes the removal of the local member when the replica is
    ready, and does nothing else for the replica. *)
Theorem checkLocalNamespace_outside_isr (name namespace : string) (pid : Z)
    (localNamespace : NamespaceNode.t) (namespaceMeta : PartitionMetaInfo.t) :
  GetNamespaceAndPartition name = (namespace, pid) ->
  namespace <> "" ->
  GetNamespacePartInfo namespace pid = inr namespaceMeta ->
  getNamespaceRaftLeader namespaceMeta <> 0 ->
  ~ In GetMyID (PartitionMetaInfo.GetISR namespaceMeta) ->
  PartitionMetaInfo.GetISR namespaceMeta <> [] ->
  checkLocalNamespace name localNamespace =
  if NamespaceNode.Ready localNamespace
  then [ProposeRemoveMember (NamespaceNode.LocalMemberInfo localNamespace)]
  else [].
Proof.
  intros Hname Hns Hmeta Hlead Hout Hisr.
  rewrite (checkLocalNamespace_found name namespace pid localNamespace
             namespaceMeta Hname Hns Hmeta).
  apply Z.eqb_neq in Hlead. rewrite Hlead.
  apply (proj2 (FindSlice_absent _ _)) in Hout. rewrite Hout. simpl.
  assert ((0 <? Z.of_nat (List.length (PartitionMetaInfo.GetISR namespaceMeta)))
          = true) as ->.
  { apply Z.ltb_lt.
    destruct (PartitionMetaInfo.GetISR namespaceMeta); [congruence |].
    simpl List.length. lia. }
  apply removeLocalNamespaceFromRaft_data.
Qed.

(** ** Further properties of the join protocol *)

Lemma wrap32_release (c : Z) :
  - 2 ^ 31 <= c < 2 ^ 31 -> wrap32 (wrap32 (c + 1) + -1) = c.
Proof.
  intros H. unfold wrap32.
  replace ((c + 1 + 2 ^ 31) mod 2 ^ 32 - 2 ^ 31 + -1 + 2 ^ 31)
    with ((c + 1 + 2 ^ 31) mod 2 ^ 32 - 1) by lia.
  rewrite Zminus_mod_idemp_l.
  replace (c + 1 + 2 ^ 31 - 1) with (c + 2 ^ 31) by lia.
  rewrite Z.mod_small; lia.
Qed.

Lemma probe_In_any (isr : list string) (retry : Z) (j : nat) :
  isr <> [] -> In (probe isr retry j) isr.
Proof.
  intros Hne. unfold probe. apply nth_In.
  assert (0 < Z.of_nat (List.length isr)) as Hlen.
  { destruct isr; [congruence | simpl List.length; lia]. }
  pose proof (Z.rem_bound_abs (retry + Z.of_nat j)
                (Z.of_nat (List.length isr))) as B.
  lia.
Qed.

Lemma pickRemote_In (fuel : nat) (isr : list string)
    (mems : list MemberInfo.t) (retry : Z) (remote0 : string) :
  isr <> [] -> In remote0 isr ->
  In (fst (pickRemote fuel isr mems retry remote0)) isr.
Proof.
  intros Hne. revert retry remote0.
  induction fuel as [|fuel IH]; intros retry remote0 H0; [exact H0 |].
  rewrite pickRemote_first_step.
  destruct (eligible mems (probe isr retry 0)).
  - now apply probe_In_any.
  - apply IH. now apply probe_In_any.
Qed.

Lemma pickRemote_picks (fuel : nat) (isr : list string)
    (mems : list MemberInfo.t) (retry : Z) :
  isr <> [] -> In (fst (pickRemote (S fuel) isr mems retry "")) isr.
Proof.
  intros Hne. rewrite pickRemote_first_step.
  destruct (eligible mems (probe isr retry 0)).
  - now apply probe_In_any.
  - apply pickRemote_In; [exact Hne | now apply probe_In_any].
Qed.

(** The calls of a turn: the question [IsRaftSynced], or one join
    request, to a candidate other than self. *)
Lemma joinRound_events (nsInfo : PartitionMetaInfo.t) (raftID retry : Z)
    (obs : JoinObs.t) (e : Event) :
  In e (fst (fst (joinRound nsInfo raftID retry obs))) ->
  e = IsRaftSynced
  \/ exists remote,
       e = PostAddNode remote (joinMember nsInfo raftID)
       /\ remote <> GetMyID
       /\ In remote (joinCandidates nsInfo).
Proof.
  unfold joinRound.
  destruct (alreadyJoined nsInfo raftID (JoinObs.Members obs)).
  - destruct (JoinObs.RaftSynced obs); [| destruct (JoinObs.Stopped obs)];
      simpl; intros [<- | []]; now left.
  - rewrite joinCandidates_eq.
    destruct (joinCandidates nsInfo) as [|c0 rest] eqn:C; [intros [] |].
    pose proof (pickRemote_picks (List.length (c0 :: rest)) (c0 :: rest)
                  (JoinObs.Members obs) retry) as Hpick.
    destruct (pickRemote (S (List.length (c0 :: rest))) (c0 :: rest)
                (JoinObs.Members obs) retry "") as [remote retry'].
    simpl fst in *. rewrite requestJoinNamespaceGroup_events.
    destruct (String.eqb remote GetMyID) eqn:E; [intros [] |].
    intros [<- | []]. right. exists remote.
    split; [reflexivity |]. split; [now apply String.eqb_neq |].
    apply Hpick. discriminate.
Qed.

(** How the retry loop ends, from the current [joinErr]. *)
Lemma joinLoop_result (nsInfo : PartitionMetaInfo.t) (raftID : Z)
    (rounds : list JoinObs.t) (retry : Z) (joinErr : option CoordErr) :
  let '(evs, r) := joinLoop nsInfo raftID rounds retry joinErr in
  (forall e,
     In e evs ->
     e = IsRaftSynced
     \/ exists remote,
          e = PostAddNode remote (joinMember nsInfo raftID)
          /\ remote <> GetMyID
          /\ In remote (joinCandidates nsInfo))
  /\ (r = Returns (inr None) ->
      (rounds = [] /\ joinErr = None)
      \/ exists obs,
           In obs rounds
           /\ alreadyJoined nsInfo raftID (JoinObs.Members obs) = true
           /\ JoinObs.RaftSynced obs = true)
  /\ (forall e,
        r = Returns (inr (Some e)) ->
        e = ErrNamespaceWaitingSync \/ (rounds = [] /\ joinErr = Some e))
  /\ (forall e,
        r = Returns (inl e) ->
        e = ErrNamespaceExiting
        /\ exists obs, In obs rounds /\ JoinObs.Stopped obs = true).
Proof.
  revert retry joinErr.
  induction rounds as [|obs rest IH]; intros retry joinErr.
  - simpl. split; [intros e [] |].
    split; [intros [= <-]; now left |].
    split; [intros e [= <-]; now right | intros e [=]].
  - simpl.
    pose proof (joinRound_events nsInfo raftID retry obs) as Hev.
    assert (snd (joinRound nsInfo raftID retry obs) = RoundSynced ->
            alreadyJoined nsInfo raftID (JoinObs.Members obs) = true
            /\ JoinObs.RaftSynced obs = true) as Hsynced.
    { unfold joinRound.
      destruct (alreadyJoined nsInfo raftID (JoinObs.Members obs)).
      - destruct (JoinObs.RaftSynced obs); [auto |].
        destruct (JoinObs.Stopped obs); discriminate.
      - destruct (if _ =? 0 then _ else _); [discriminate |].
        destruct (pickRemote _ _ _ _ _).
        destruct (JoinObs.Stopped obs); discriminate. }
    assert (snd (joinRound nsInfo raftID retry obs) = RoundExiting ->
            JoinObs.Stopped obs = true) as Hexit.
    { unfold joinRound.
      destruct (alreadyJoined nsInfo raftID (JoinObs.Members obs)).
      - destruct (JoinObs.RaftSynced obs); [discriminate |].
        destruct (JoinObs.Stopped obs); [reflexivity | discriminate].
      - destruct (if _ =? 0 then _ else _); [discriminate |].
        destruct (pickRemote _ _ _ _ _).
        destruct (JoinObs.Stopped obs); [reflexivity | discriminate]. }
    destruct (joinRound nsInfo raftID retry obs) as [[evs retry'] out].
    simpl in Hev, Hsynced, Hexit.
    destruct out.
    + split; [exact Hev |].
      split; [intros _; right; exists obs; split; [now left | auto] |].
      split; [intros e [=] | intros e [=]].
    + split; [exact Hev |].
      split; [intros [=] |].
      split; [intros e [=] |].
      intros e [= <-]. split; [reflexivity |].
      exists obs. split; [now left | auto].
    + specialize (IH retry' (Some ErrNamespaceWaitingSync)).
      destruct (joinLoop nsInfo raftID rest retry'
                  (Some ErrNamespaceWaitingSync)) as [evs' r].
      destruct IH as (IHev & IHok & IHerr & IHexit).
      split.
      { intros e He. apply in_app_iff in He. destruct He; auto. }
      split.
      { intros Hr. right.
        destruct (IHok Hr) as [(_ & [=]) | (o & Hin & Ho)].
        exists o. split; [now right | exact Ho]. }
      split.
      { intros e Hr. left.
        destruct (IHerr e Hr) as [-> | (_ & [= <-])]; reflexivity. }
      intros e Hr. destruct (IHexit e Hr) as (-> & o & Hin & Ho).
      split; [reflexivity |]. exists o. split; [now right | exact Ho].
    + split; [exact Hev |].
      split; [intros [=] |].
      split; [intros e [=] | intros e [=]].
Qed.

(** X7: [ensureJoinNamespaceGroup] gives back what it takes from
    [catchupRunning]: for every [int32] value of the counter, every meta
    and every course of the retry loop (success, timeout, shutdown,
    busy, invalid configuration, and a panic too, since the release is
    deferred) the counter has its old value when the call is over. *)
Theorem ensureJoinNamespaceGroup_releases (nsInfo : PartitionMetaInfo.t)
    (catchupRunning : Z) (rounds : list JoinObs.t) :
  - 2 ^ 31 <= catchupRunning < 2 ^ 31 ->
  fst (fst (ensureJoinNamespaceGroup catchupRunning nsInfo rounds))
  = catchupRunning.
Proof.
  intros Hrange. unfold ensureJoinNamespaceGroup.
  destruct (selfIsRemoving nsInfo); [reflexivity |].
  rewrite wrap32_release by exact Hrange.
  destruct (MAX_RAFT_JOIN_RUNNING <? _); [reflexivity |].
  destruct (mapGet GetMyID _) as [raftID|]; [| reflexivity].
  destruct (joinLoop nsInfo raftID rounds 0 None) as [evs [[e | [e|]]|]];
    reflexivity.
Qed.

(** X8: [ensureJoinNamespaceGroup] reports success ([nil]) for a node
    that the meta does not mark as removing only after a turn of the
    retry loop has found the node among the local members (with its
    registration id, group name and replica id, the members more than
    half of the ISR) and the replica synced. *)
Theorem ensureJoinNamespaceGroup_success (nsInfo : PartitionMetaInfo.t)
    (catchupRunning : Z) (rounds : list JoinObs.t) :
  selfIsRemoving nsInfo = false ->
  rounds <> [] ->
  snd (ensureJoinNamespaceGroup catchupRunning nsInfo rounds) = Returns None ->
  exists obs,
    In obs rounds
    /\ alreadyJoined nsInfo (PartitionMetaInfo.RaftID nsInfo GetMyID)
         (JoinObs.Members obs) = true
    /\ JoinObs.RaftSynced obs = true.
Proof.
  intros Hrm Hrounds. unfold ensureJoinNamespaceGroup. rewrite Hrm.
  destruct (MAX_RAFT_JOIN_RUNNING <? _); [discriminate |].
  unfold PartitionMetaInfo.RaftID.
  destruct (mapGet GetMyID _) as [raftID|]; [| discriminate].
  pose proof (joinLoop_result nsInfo raftID rounds 0 None) as L.
  destruct (joinLoop nsInfo raftID rounds 0 None) as [evs r].
  destruct L as (_ & Hok & _).
  destruct r as [[e | [e|]]|]; simpl; try discriminate.
  intros _. destruct (Hok eq_refl) as [(Hnil & _) | H]; [congruence | exact H].
Qed.

(** X9: a join request is never posted to self: every request that
    [ensureJoinNamespaceGroup] posts goes to a node of the ISR (of
    [RaftNodes] when the ISR is empty) other than self, and carries the
    member info of self with the replica id [RaftIDs[self]]. *)
Theorem ensureJoinNamespaceGroup_posts (nsInfo : PartitionMetaInfo.t)
    (catchupRunning : Z) (rounds : list JoinObs.t) (remote : string)
    (m : MemberInfo.t) :
  In (PostAddNode remote m)
    (snd (fst (ensureJoinNamespaceGroup catchupRunning nsInfo rounds))) ->
  remote <> GetMyID
  /\ In remote (joinCandidates nsInfo)
  /\ m = joinMember nsInfo (PartitionMetaInfo.RaftID nsInfo GetMyID)
  /\ mapGet GetMyID (PartitionMetaInfo.RaftIDs nsInfo) <> None
  /\ selfIsRemoving nsInfo = false.
Proof.
  unfold ensureJoinNamespaceGroup.
  destruct (selfIsRemoving nsInfo); [intros [] |].
  destruct (MAX_RAFT_JOIN_RUNNING <? _);
    [intros [H | []]; discriminate |].
  unfold PartitionMetaInfo.RaftID.
  destruct (mapGet GetMyID _) as [raftID|];
    [| intros [H | []]; discriminate].
  pose proof (joinLoop_result nsInfo raftID rounds 0 None) as L.
  destruct (joinLoop nsInfo raftID rounds 0 None) as [evs r].
  destruct L as (Hev & _).
  assert (In (PostAddNode remote m) evs ->
          remote <> GetMyID
          /\ In remote (joinCandidates nsInfo)
          /\ m = joinMember nsInfo raftID
          /\ Some raftID <> None
          /\ false = false) as Hpost.
  { intros H. destruct (Hev _ H) as [E | (r' & [= -> ->] & Hne & Hin)];
      [discriminate |].
    repeat split; try assumption. discriminate. }
  destruct r as [[e | [e|]]|]; simpl; intros [H | H];
    try discriminate; try (now apply Hpost).
  apply in_app_iff in H. destruct H as [H | [H | []]];
    [now apply Hpost | discriminate].
Qed.

(** X10: [ensureJoinNamespaceGroup] schedules the retry nudge exactly
    when it returns [ErrCatchupRunningBusy] or
    [ErrNamespaceWaitingSync]: not on success, not for a node that is
    being removed, not on an invalid configuration and not on shutdown. *)
Theorem ensureJoinNamespaceGroup_nudge (nsInfo : PartitionMetaInfo.t)
    (catchupRunning : Z) (rounds : list JoinObs.t) :
  let '(_, trace, result) :=
    ensureJoinNamespaceGroup catchupRunning nsInfo rounds in
  In TryCheckNamespaces trace <->
  result = Returns (Some ErrCatchupRunningBusy)
  \/ result = Returns (Some ErrNamespaceWaitingSync).
Proof.
  drop_env. unfold ensureJoinNamespaceGroup.
  destruct (selfIsRemoving nsInfo).
  { split; [intros [] | intros [[=] | [=]]]. }
  destruct (MAX_RAFT_JOIN_RUNNING <? _).
  { split; [intros _; now left | intros _; now left]. }
  destruct (mapGet GetMyID _) as [raftID|].
  2: { split; [intros [H | []]; discriminate | intros [[=] | [=]]]. }
  pose proof (joinLoop_result nsInfo raftID rounds 0 None) as L.
  destruct (joinLoop nsInfo raftID rounds 0 None) as [evs r].
  destruct L as (Hev & _ & Herr & Hexit).
  assert (~ In TryCheckNamespaces evs) as Hno.
  { intros H. destruct (Hev _ H) as [E | (r' & E & _)]; discriminate. }
  destruct r as [[e | [e|]]|].
  - destruct (Hexit e eq_refl) as (-> & _).
    split; [intros [H | H]; [discriminate | tauto] | intros [[=] | [=]]].
  - destruct (Herr e eq_refl) as [-> | (_ & [=])].
    split; [intros _; now right |].
    intros _. right. apply in_app_iff. right. now left.
  - split; [intros [H | H]; [discriminate | tauto] | intros [[=] | [=]]].
  - split; [intros [H | H]; [discriminate | tauto] | intros [[=] | [=]]].
Qed.

(** The calls that [ensureJoinNamespaceGroup] makes. *)
Lemma ensureJoinNamespaceGroup_events (nsInfo : PartitionMetaInfo.t)
    (catchupRunning : Z) (rounds : list JoinObs.t) (e : Event) :
  In e (snd (fst (ensureJoinNamespaceGroup catchupRunning nsInfo rounds))) ->
  e = SetDataFixState false
  \/ e = IsRaftSynced
  \/ e = TryCheckNamespaces
  \/ exists remote m, e = PostAddNode remote m.
Proof.
  unfold ensureJoinNamespaceGroup.
  destruct (selfIsRemoving nsInfo); [intros [] |].
  destruct (MAX_RAFT_JOIN_RUNNING <? _); [intros [<- | []]; auto |].
  destruct (mapGet GetMyID _) as [raftID|]; [| intros [<- | []]; auto].
  pose proof (joinLoop_result nsInfo raftID rounds 0 None) as L.
  destruct (joinLoop nsInfo raftID rounds 0 None) as [evs r].
  destruct L as (Hev & _).
  assert (In e evs ->
          e = SetDataFixState false
          \/ e = IsRaftSynced
          \/ e = TryCheckNamespaces
          \/ exists remote m, e = PostAddNode remote m) as Hin.
  { intros H. destruct (Hev _ H) as [-> | (r' & -> & _)]; eauto 6. }
  destruct r as [[e' | [e'|]]|]; simpl; intros [<- | H]; auto.
  apply in_app_iff in H. destruct H as [H | [<- | []]]; auto.
Qed.

(** ** Further properties of the configuration, shutdown and statistics *)

Lemma seedNodesFrom_self (nsInfo : PartitionMetaInfo.t) (raftID : Z)
    (isr : list string) :
  In GetMyID isr ->
  In (ReplicaInfo.mk GetMyRegID raftID (NodeInfo.RaftTransportAddr myNode))
    (seedNodesFrom nsInfo raftID isr).
Proof.
  induction isr as [|nid rest IH]; simpl; [intros [] |].
  destruct (String.eqb nid GetMyID) eqn:E.
  - intros _. now left.
  - apply String.eqb_neq in E. intros [H | H]; [congruence |].
    specialize (IH H).
    destruct (mapGet nid _); [| exact IH].
    destruct (getRaftAddrForNode nid); [exact IH | now right].
Qed.

(** X11: a node that is in the ISR and has a replica id in [RaftIDs]
    always gets a configuration, whatever the registry answers about
    the other nodes: [prepareNamespaceConf] succeeds, and the seed list
    has self with its own registration id, replica id and raft
    address (which is not looked up in the registry). *)
Theorem prepareNamespaceConf_self_seed (nsInfo : PartitionMetaInfo.t)
    (raftID : Z) :
  In GetMyID (PartitionMetaInfo.GetISR nsInfo) ->
  mapGet GetMyID (PartitionMetaInfo.RaftIDs nsInfo) = Some raftID ->
  exists nsConf,
    prepareNamespaceConf nsInfo = inr nsConf
    /\ In (ReplicaInfo.mk GetMyRegID raftID (NodeInfo.RaftTransportAddr myNode))
         (NamespaceConfig.SeedNodes nsConf).
Proof.
  intros Hisr Hid. unfold prepareNamespaceConf. rewrite Hid.
  pose proof (seedNodesFrom_self nsInfo raftID _ Hisr) as Hseed.
  simpl NamespaceConfig.SeedNodes.
  destruct (seedNodesFrom nsInfo raftID (PartitionMetaInfo.GetISR nsInfo))
    as [|seed seeds] eqn:S0; [destruct Hseed |].
  simpl List.length.
  assert ((Z.of_nat (S (List.length seeds)) =? 0) = false) as ->
    by (apply Z.eqb_neq; lia).
  eexists. split; [reflexivity |]. simpl. exact Hseed.
Qed.

(** The loop of [prepareLeavingCluster] over the ISR asks at most one
    node: the first one that is not self. *)
Lemma transferToFirstOther_spec (nsInfo : PartitionMetaInfo.t)
    (isr : list string) :
  transferToFirstOther nsInfo isr = []
  \/ exists before newLeader rest toRaftID,
       isr = before ++ newLeader :: rest
       /\ (forall x, In x before -> x = GetMyID)
       /\ newLeader <> GetMyID
       /\ mapGet newLeader (PartitionMetaInfo.RaftIDs nsInfo) = Some toRaftID
       /\ transferToFirstOther nsInfo isr
          = [TransferMyLeader (ExtractRegIDFromGenID newLeader) toRaftID].
Proof.
  induction isr as [|nid rest IH]; simpl; [now left |].
  destruct (String.eqb nid GetMyID) eqn:E.
  - apply String.eqb_eq in E.
    destruct IH as [IH | (before & n & rest' & r & -> & Hb & Hn & Hr & Ht)];
      [now left |].
    right. exists (nid :: before), n, rest', r.
    repeat split; try assumption.
    intros x [<- | Hx]; [exact E | now apply Hb].
  - apply String.eqb_neq in E.
    unfold transferMyNamespaceLeader.
    destruct (GetNamespaceNode _); [| now left].
    destruct (mapGet nid _) as [r|] eqn:R; [| now left].
    right. exists [], nid, rest, r.
    repeat split; try assumption. intros x [].
Qed.

(** X12: before it leaves, the coordinator hands the leadership of a
    partition to at most one node, and never to self: a transfer is
    issued only for a partition that has self in [RaftNodes] and that
    self leads, to the first node of the ISR other than self, and only
    if that node has a replica id in [RaftIDs] (a later node of the ISR
    is not tried). *)
Theorem leavePartition_transfer (c : DataCoordinator.t)
    (nsInfo : PartitionMetaInfo.t) (evs : list Event) :
  leavePartition c nsInfo = Returns evs ->
  evs = []
  \/ exists before newLeader rest toRaftID,
       PartitionMetaInfo.GetISR nsInfo = before ++ newLeader :: rest
       /\ (forall x, In x before -> x = GetMyID)
       /\ newLeader <> GetMyID
       /\ mapGet newLeader (PartitionMetaInfo.RaftIDs nsInfo) = Some toRaftID
       /\ evs = [TransferMyLeader (ExtractRegIDFromGenID newLeader) toRaftID]
       /\ In GetMyID (PartitionMetaInfo.RaftNodes nsInfo)
       /\ getNamespaceRaftLeader nsInfo = GetMyRegID.
Proof.
  unfold leavePartition. fold GetMyID.
  destruct (FindSlice _ GetMyID =? -1) eqn:F; [intros [= <-]; now left |].
  assert (In GetMyID (PartitionMetaInfo.RaftNodes nsInfo)) as Hin.
  { apply Z.eqb_neq in F.
    destruct (in_dec string_dec GetMyID (PartitionMetaInfo.RaftNodes nsInfo))
      as [H | H]; [exact H |].
    apply (proj2 (FindSlice_absent _ _)) in H. congruence. }
  destruct (nsMgrGetNamespaceNode c _) as [[localNamespace|]|]; simpl;
    [| intros [= <-]; now left | discriminate].
  destruct (getNamespaceRaftLeader nsInfo =? GetMyRegID) eqn:L; simpl;
    [| intros [= <-]; now left].
  apply Z.eqb_eq in L. intros [= <-].
  destruct (transferToFirstOther_spec nsInfo (PartitionMetaInfo.GetISR nsInfo))
    as [-> | (before & n & rest & r & Hisr & Hb & Hn & Hr & ->)];
    [now left |].
  right. exists before, n, rest, r. repeat split; assumption.
Qed.

Lemma leavePartition_events (c : DataCoordinator.t)
    (nsInfo : PartitionMetaInfo.t) (evs : list Event) :
  leavePartition c nsInfo = Returns evs ->
  evs = []
  \/ exists toNode toRaftID, evs = [TransferMyLeader toNode toRaftID].
Proof.
  unfold leavePartition.
  destruct (FindSlice _ _ =? -1); [intros [= <-]; now left |].
  destruct (nsMgrGetNamespaceNode c _) as [[localNamespace|]|]; simpl;
    [| intros [= <-]; now left | discriminate].
  destruct (getNamespaceRaftLeader nsInfo =? GetMyRegID); simpl;
    [| intros [= <-]; now left].
  intros [= <-].
  destruct (transferToFirstOther_spec nsInfo (PartitionMetaInfo.GetISR nsInfo))
    as [-> | (before & n & rest & r & _ & _ & _ & _ & ->)];
    [now left | right; eauto].
Qed.

Lemma leavePartitions_events (c : DataCoordinator.t)
    (parts : list PartitionMetaInfo.t) (evs : list Event) :
  leavePartitions c parts = Returns evs ->
  (forall e,
     In e evs -> exists toNode toRaftID, e = TransferMyLeader toNode toRaftID)
  /\ (List.length evs <= List.length parts)%nat.
Proof.
  revert evs.
  induction parts as [|nsInfo rest IH]; simpl; intros evs.
  - intros [= <-]. split; [intros e [] | simpl; lia].
  - destruct (leavePartition c nsInfo) as [evs0|] eqn:P; simpl;
      [| discriminate].
    destruct (leavePartitions c rest) as [evs1|]; simpl; [| discriminate].
    intros [= <-]. destruct (IH evs1 eq_refl) as (IHev & IHlen).
    destruct (leavePartition_events c nsInfo evs0 P)
      as [-> | (toNode & toRaftID & ->)].
    + split; [exact IHev | simpl; lia].
    + split; [| simpl; lia].
      intros e [<- | He]; [eauto | now apply IHev].
Qed.

(** X13: a call of [Stop] that does its work (the [stopping] flag was
    not set) and completes has unregistered the node exactly once,
    after the leader transfers (at most one per partition of the
    registry) and after the namespace manager was stopped, and has
    closed [stopChan] only after that. *)
Theorem Stop_trace (c c' : DataCoordinator.t) (evs : list Event) :
  Stop c = Returns (c', evs) ->
  DataCoordinator.stopping c <> 1 ->
  exists transfers,
    (forall e,
       In e transfers ->
       exists toNode toRaftID, e = TransferMyLeader toNode toRaftID)
    /\ (List.length transfers <= List.length allPartitions)%nat
    /\ evs = transfers
             ++ (if DataCoordinator.hasNSMgr c then [StopNamespaceMgr] else [])
             ++ [Unregister; StopRegister; CloseStopChan; WaitWorkers].
Proof.
  intros Hstop Hflag. unfold Stop in Hstop.
  apply Z.eqb_neq in Hflag. rewrite Hflag in Hstop.
  unfold prepareLeavingCluster in Hstop.
  destruct (DataCoordinator.hasRegister c); simpl in Hstop; [| discriminate].
  destruct (leavePartitions c allPartitions) as [transfers|] eqn:P;
    simpl in Hstop; [| discriminate].
  destruct (leavePartitions_events c allPartitions transfers P) as (Hev & Hlen).
  exists transfers. split; [exact Hev |]. split; [exact Hlen |].
  destruct (DataCoordinator.hasNSMgr c); simpl in Hstop.
  - destruct (DataCoordinator.stopChanClosed c); [discriminate |].
    injection Hstop as <- <-. now rewrite <- !app_assoc.
  - destruct nilNSMgrCallReturns; simpl in Hstop; [| discriminate].
    destruct (DataCoordinator.stopChanClosed c); [discriminate |].
    injection Hstop as <- <-. now rewrite <- !app_assoc.
Qed.

(** [Stop] cannot complete on a coordinator whose [stopChan] is already
    closed while the [stopping] flag is not set (the state that a failed
    [Start] leaves): the call panics, on the nil register or on the
    second [close]. *)
Lemma Stop_on_closed_channel (c : DataCoordinator.t) :
  DataCoordinator.stopChanClosed c = true ->
  DataCoordinator.stopping c <> 1 ->
  Stop c = Panics.
Proof.
  intros Hclosed Hflag. unfold Stop.
  apply Z.eqb_neq in Hflag. rewrite Hflag.
  unfold prepareLeavingCluster.
  destruct (DataCoordinator.hasRegister c); simpl; [| reflexivity].
  destruct (leavePartitions c allPartitions); simpl; [| reflexivity].
  destruct (DataCoordinator.hasNSMgr c); simpl.
  - now rewrite Hclosed.
  - destruct nilNSMgrCallReturns; simpl; [now rewrite Hclosed | reflexivity].
Qed.

Lemma flat_map_const {A B : Type} (l : list B) (xs : list A) :
  flat_map (fun _ : A => l) xs = List.concat (repeat l (List.length xs)).
Proof.
  induction xs as [|x xs IH]; simpl; [reflexivity |]. now rewrite IH.
Qed.

(** X14: for a negative [part], [Stats] does not visit the partitions
    of the namespace: it asks the registry for the partition [part]
    itself, once per partition of the namespace, so it returns nothing
    when the registry has no such partition, and otherwise
    [PartitionNum] copies of the entry of that one partition. *)
Theorem Stats_negative_part (namespace : string) (part : Z)
    (meta : NamespaceMetaInfo.t) :
  namespace <> "" ->
  GetNamespaceMetaInfo namespace = inr meta ->
  part < 0 ->
  Stats namespace part =
  match GetNamespacePartInfo namespace part with
  | inl _ => []
  | inr nsInfo =>
      repeat
        (NamespaceCoordStat.mk namespace (PartitionMetaInfo.Partition nsInfo)
           (isrStatsOf (PartitionMetaInfo.RaftNodes nsInfo)))
        (Z.to_nat (NamespaceMetaInfo.PartitionNum meta))
  end.
Proof.
  intros Hns Hmeta Hpart. unfold Stats.
  assert ((0 <? Z.of_nat (String.length namespace)) = true) as ->.
  { apply Z.ltb_lt. destruct namespace; [congruence | simpl; lia]. }
  rewrite Hmeta.
  assert ((0 <=? part) = false) as -> by (apply Z.leb_gt; exact Hpart).
  rewrite flat_map_const, length_seq.
  destruct (GetNamespacePartInfo namespace part) as [err | nsInfo].
  - induction (Z.to_nat _) as [|k IH]; simpl; [reflexivity | exact IH].
  - induction (Z.to_nat _) as [|k IH]; simpl; [reflexivity | now rewrite IH].
Qed.

(** The errors that [ensureJoinNamespaceGroup] returns. *)
Lemma ensureJoinNamespaceGroup_errors (nsInfo : PartitionMetaInfo.t)
    (catchupRunning : Z) (rounds : list JoinObs.t) (e : CoordErr) :
  snd (ensureJoinNamespaceGroup catchupRunning nsInfo rounds)
  = Returns (Some e) ->
  e = ErrCatchupRunningBusy
  \/ e = ErrNamespaceConfInvalid
  \/ e = ErrNamespaceWaitingSync
  \/ e = ErrNamespaceExiting.
Proof.
  unfold ensureJoinNamespaceGroup.
  destruct (selfIsRemoving nsInfo); [discriminate |].
  destruct (MAX_RAFT_JOIN_RUNNING <? _); [intros [= <-]; auto |].
  destruct (mapGet GetMyID _) as [raftID|]; [| intros [= <-]; auto].
  pose proof (joinLoop_result nsInfo raftID rounds 0 None) as L.
  destruct (joinLoop nsInfo raftID rounds 0 None) as [evs r].
  destruct L as (_ & _ & Herr & Hexit).
  destruct r as [[e' | [e'|]]|]; simpl; try discriminate.
  - intros [= <-]. destruct (Hexit e' eq_refl) as (-> & _). auto.
  - intros [= <-]. destruct (Herr e' eq_refl) as [-> | (_ & [=])]. auto.
Qed.

End Coordinator.

(** ** Scenarios

    A namespace [ns] with one partition, replicated on the nodes [A],
    [B] and [C] (registration ids 1, 2, 3; replica ids 1, 2, 3), seen
    from the coordinator of node [B]. *)

Definition exRegID (nid : string) : Z :=
  if String.eqb nid "A" then 1
  else if String.eqb nid "B" then 2
  else if String.eqb nid "C" then 3
  else 0.

Definition exNode (nid ip : string) (regID : Z) : NodeInfo.t :=
  NodeInfo.mk nid regID ip "18001" (ip ++ ":12380")%string "/data"
    "zanredisdb" 0.

Definition nodeB : NodeInfo.t := exNode "B" "10.0.0.2" 2.

Definition exGetNodeInfo (nid : string) : RegisterErr + NodeInfo.t :=
  if String.eqb nid "A" then inr (exNode "A" "10.0.0.1" 1)
  else if String.eqb nid "B" then inr nodeB
  else if String.eqb nid "C" then inr (exNode "C" "10.0.0.3" 3)
  else inl ErrKeyNotFound.

Definition exMember (rid regID : Z) : MemberInfo.t :=
  MemberInfo.mk rid regID 100 "ns-0" [].

Definition exFill (m : MemberInfo.t) : MemberInfo.t :=
  MemberInfo.mk (MemberInfo.ID m) (MemberInfo.NodeID m) (MemberInfo.GroupID m)
    (MemberInfo.GroupName m) ["http://10.0.0.2:12380"].

Definition exMeta (isr : list string)
    (removings : list (string * RemovingInfo.t)) : PartitionMetaInfo.t :=
  PartitionMetaInfo.mk "ns" 0 3 1 100 "rockredis" 0 ["A"; "B"; "C"] isr
    [("A", 1); ("B", 2); ("C", 3)] removings.

(** All three replicas in sync. *)
Definition metaHealthy : PartitionMetaInfo.t := exMeta ["A"; "B"; "C"] [].

(** [B] is being removed, with the replica id it has in [RaftIDs]. *)
Definition metaDraining : PartitionMetaInfo.t :=
  exMeta ["A"; "C"] [("B", RemovingInfo.mk 2)].

(** A namespace with a single replica, on [B]. *)
Definition metaSolo : PartitionMetaInfo.t :=
  PartitionMetaInfo.mk "ns" 0 1 1 100 "rockredis" 0 ["B"] ["B"] [("B", 2)] [].

(** Two replicas in sync, [A] first. *)
Definition metaPair : PartitionMetaInfo.t := exMeta ["A"; "B"] [].

(** The peers answer with a listing that no longer has [B]. *)
Definition peersWithoutB (remote desp : string) : string + list MemberInfo.t :=
  inr [exMember 1 1; exMember 3 3].

(** The peers answer with a listing that still has [B]. *)
Definition peersWithB (remote desp : string) : string + list MemberInfo.t :=
  inr [exMember 1 1; exMember 2 2; exMember 3 3].

(** The local replica of [B], which leads the group. *)
Definition exLocal (members : list MemberInfo.t) : NamespaceNode.t :=
  NamespaceNode.mk members (Some (exMember 2 2)) (exMember 2 2) true None.

Definition exMembers : list MemberInfo.t :=
  [exMember 1 1; exMember 2 2; exMember 3 3].

(** The members with one more that the meta does not list. *)
Definition exMembersExtra : list MemberInfo.t :=
  exMembers ++ [exMember 9 9].

Definition exMgr (members : list MemberInfo.t) (desp : string)
    : option NamespaceNode.t :=
  if String.eqb desp "ns-0" then Some (exLocal members) else None.

Definition exNamespaceAndPartition (name : string) : string * Z :=
  if String.eqb name "ns-0" then ("ns", 0) else ("", 0).

Definition exPartInfo (meta : PartitionMetaInfo.t) (namespace : string)
    (pid : Z) : RegisterErr + PartitionMetaInfo.t :=
  if String.eqb namespace "ns" && (pid =? 0) then inr meta
  else inl ErrKeyNotFound.

Definition exMetaInfo (namespace : string)
    : RegisterErr + NamespaceMetaInfo.t :=
  if String.eqb namespace "ns" then inr (NamespaceMetaInfo.mk 1)
  else inl ErrKeyNotFound.

Definition exAllNamespaces
    : RegisterErr + list (string * list (Z * PartitionMetaInfo.t)) :=
  inr [("ns", [(0, metaHealthy)])].

Definition exConf : NamespaceConfig.t :=
  NamespaceConfig.mk "ns" "ns-0" "rockredis" 1 3 100
    [ReplicaInfo.mk 1 1 "10.0.0.1:12380";
     ReplicaInfo.mk 2 2 "10.0.0.2:12380";
     ReplicaInfo.mk 3 3 "10.0.0.3:12380"].

(** A coordinator with a register and a namespace manager, running. *)
Definition coordRunning : DataCoordinator.t :=
  DataCoordinator.mk true true 0 false.

(** The same coordinator after [Stop]. *)
Definition coordStopped : DataCoordinator.t :=
  DataCoordinator.mk true true 1 true.

(** The boundary scenarios of the specification, run on the embedding. *)

(** Preferred-leader transfer: one [TransferMyLeader] to [A], and no
    proposal. *)
Example scenario_preferred_leader_transfer :
  checkLocalNamespace nodeB exRegID peersWithB (exMgr exMembers)
    exGetNodeInfo (exPartInfo metaHealthy) exMetaInfo
    exNamespaceAndPartition "ns-0" (exLocal exMembers)
  = [TransferMyLeader 1 1].
Proof. reflexivity. Qed.

(** Missing member add: [B] leads and heads the ISR, the members lack
    [C]; the pass proposes [C] and schedules the retry, without a
    removal. *)
Example scenario_missing_member_add :
  checkLocalNamespace nodeB exRegID peersWithB
    (exMgr [exMember 1 1; exMember 2 2])
    exGetNodeInfo (exPartInfo (exMeta ["B"; "A"; "C"] [])) exMetaInfo
    exNamespaceAndPartition "ns-0" (exLocal [exMember 1 1; exMember 2 2])
  = [ProposeAddMember (MemberInfo.mk 3 3 100 "ns-0" ["10.0.0.3:12380"]);
     TryCheckNamespaces].
Proof. reflexivity. Qed.

(** Extraneous member remove: the member that the meta does not list is
    proposed for removal. *)
Example scenario_extraneous_member_remove :
  checkLocalNamespace nodeB exRegID peersWithB (exMgr exMembersExtra)
    exGetNodeInfo (exPartInfo (exMeta ["B"; "A"; "C"] [])) exMetaInfo
    exNamespaceAndPartition "ns-0" (exLocal exMembersExtra)
  = [ProposeRemoveMember (exMember 9 9)].
Proof. reflexivity. Qed.

(** Registry deletion: the replica leaves the group and is destroyed. *)
Example scenario_registry_deletion :
  checkLocalNamespace nodeB exRegID peersWithB (exMgr exMembers)
    exGetNodeInfo (fun _ _ => inl ErrKeyNotFound)
    (fun _ => inl ErrKeyNotFound)
    exNamespaceAndPartition "ns-0" (exLocal exMembers)
  = [ProposeRemoveMember (exMember 2 2); Destroy (exLocal exMembers);
     TryCheckNamespaces].
Proof. reflexivity. Qed.

(** Fresh join: the first turn posts the join request to [A]. *)
Example scenario_fresh_join :
  joinRound nodeB exRegID exFill metaHealthy 2 0 (JoinObs.mk [] false false)
  = ([PostAddNode "A"
        (MemberInfo.mk 2 2 100 "ns-0" ["http://10.0.0.2:12380"])],
     1, RoundRetry).
Proof. reflexivity. Qed.

Example scenario_prepare_conf :
  prepareNamespaceConf nodeB exRegID exGetNodeInfo metaHealthy = inr exConf.
Proof. reflexivity. Qed.

(** C1, at a meta that marks [B] as removing with its current replica
    id, when no peer lists [B] any more and no request fails: the three
    earlier cases do not apply, [isMeInRaftGroup] answers [false] without
    an error, and [isNamespaceShouldStop] still answers [false]. *)
Example isNamespaceShouldStop_fully_removed :
  mapGet (GetMyID nodeB) (PartitionMetaInfo.Removings metaDraining)
  = Some (RemovingInfo.mk 2)
  /\ RemovingInfo.RemoveReplicaID (RemovingInfo.mk 2)
     = PartitionMetaInfo.RaftID metaDraining (GetMyID nodeB)
  /\ isMeInRaftGroup nodeB peersWithoutB metaDraining = (false, None)
  /\ isNamespaceShouldStop nodeB peersWithoutB metaDraining (exLocal exMembers)
     = false.
Proof. repeat split. Qed.

(** [isNamespaceShouldStart_cases] at the draining meta, with peers
    that still list [B]. *)
Lemma isNamespaceShouldStart_cases_witness :
  isNamespaceShouldStart nodeB peersWithB metaDraining
  = fst (isMeInRaftGroup nodeB peersWithB metaDraining).
Proof.
  refine (proj1 (proj2 (proj2 (proj2
            (isNamespaceShouldStart_cases nodeB peersWithB metaDraining))))
            (RemovingInfo.mk 2) _ _ _).
  - simpl. auto.
  - reflexivity.
  - reflexivity.
Defined.

(** [syncMembers_shrink_safety] at the healthy meta, with a member that
    the meta does not list. *)
Lemma syncMembers_shrink_safety_witness :
  In (exMember 9 9) (getNamespaceRaftMembers (exMgr exMembersExtra) metaHealthy)
  /\ PartitionMetaInfo.Replica metaHealthy
     < Z.of_nat (List.length
                   (getNamespaceRaftMembers (exMgr exMembersExtra) metaHealthy))
  /\ PartitionMetaInfo.Replica metaHealthy
     <= Z.of_nat (List.length (PartitionMetaInfo.GetISR metaHealthy)).
Proof.
  assert (In (ProposeRemoveMember (exMember 9 9))
            (syncMembers exRegID (exMgr exMembersExtra) exGetNodeInfo
               metaHealthy
               (PartitionMetaInfo.Replica metaHealthy
                <=? Z.of_nat (List.length (PartitionMetaInfo.GetISR metaHealthy)))))
    as H by (vm_compute; left; reflexivity).
  destruct (proj1 (syncMembers_shrink_safety exRegID (exMgr exMembersExtra)
                     exGetNodeInfo metaHealthy) (exMember 9 9) H)
    as (Hin & _ & Hmembers & Hisr).
  exact (conj Hin (conj Hmembers Hisr)).
Defined.

(** [checkLocalNamespace_leader_steering] at the healthy meta: [B]
    leads, [A] heads the ISR. *)
Lemma checkLocalNamespace_leader_steering_witness :
  In (TransferMyLeader 1 1)
    (checkLocalNamespace nodeB exRegID peersWithB (exMgr exMembers)
       exGetNodeInfo (exPartInfo metaHealthy) exMetaInfo
       exNamespaceAndPartition "ns-0" (exLocal exMembers)).
Proof.
  refine (proj2 (proj1
            (checkLocalNamespace_leader_steering nodeB exRegID peersWithB
               (exMgr exMembers) exGetNodeInfo (exPartInfo metaHealthy)
               exMetaInfo exNamespaceAndPartition "ns-0" "ns" 0
               (exLocal exMembers) metaHealthy _ _ _ _ _ _) 1 1) _).
  - reflexivity.
  - discriminate.
  - reflexivity.
  - reflexivity.
  - reflexivity.
  - simpl. auto.
  - repeat split; discriminate.
Defined.

(** The turn need not post to a node that it has not skipped: with [B]
    the only node of the ISR and no member yet, the turn is not "already
    joined" and posts no join request; and with [A] the only member and
    [A], [B] the ISR, the turn posts its request to [A], a node that is
    already in the members. *)
Lemma joinRound_no_post_or_to_member :
  (alreadyJoined nodeB metaSolo 2 [] = false
   /\ fst (fst (joinRound nodeB exRegID exFill metaSolo 2 0
                  (JoinObs.mk [] false false))) = [])
  /\ (alreadyJoined nodeB metaPair 2 [exMember 1 1] = false
      /\ memsMapHas [exMember 1 1] (exRegID "A") = true
      /\ fst (fst (joinRound nodeB exRegID exFill metaPair 2 0
                     (JoinObs.mk [exMember 1 1] false false)))
         = [PostAddNode "A" (joinMember nodeB exFill metaPair 2)]).
Proof. repeat split. Qed.

(** [joinRound_spec] at the healthy meta, when [B] has only itself as
    member. *)
Lemma joinRound_spec_witness :
  In IsRaftSynced
    (fst (fst (joinRound nodeB exRegID exFill metaHealthy 2 0
                 (JoinObs.mk [exMember 2 2] false false))))
  <-> alreadyJoined nodeB metaHealthy 2 [exMember 2 2] = true.
Proof.
  refine (proj1 (proj2
            (joinRound_spec nodeB exRegID exFill metaHealthy 2 0
               (JoinObs.mk [exMember 2 2] false false) _ _))).
  - discriminate.
  - discriminate.
Defined.

(** [ensureJoinNamespaceGroup_backpressure] with five joins running. *)
Lemma ensureJoinNamespaceGroup_backpressure_witness :
  ensureJoinNamespaceGroup nodeB exRegID exFill 5 metaHealthy
    [JoinObs.mk [] false false]
  = (JoinLimit.leave (fst (JoinLimit.enter 5)),
     [TryCheckNamespaces],
     Returns (Some ErrCatchupRunningBusy)).
Proof.
  refine (proj1 (proj2
            (ensureJoinNamespaceGroup_backpressure nodeB exRegID exFill
               metaHealthy 5 [JoinObs.mk [] false false] _ _))).
  - reflexivity.
  - reflexivity.
Defined.

(** [prepareNamespaceConf_spec] at the healthy meta. *)
Lemma prepareNamespaceConf_spec_witness :
  NamespaceConfig.GroupID exConf
  = PartitionMetaInfo.MinGID metaHealthy + PartitionMetaInfo.Partition metaHealthy
  /\ NamespaceConfig.SeedNodes exConf
     = seedNodesSpec nodeB exRegID exGetNodeInfo metaHealthy.
Proof.
  destruct (proj2 (proj2
              (prepareNamespaceConf_spec nodeB exRegID exGetNodeInfo
                 metaHealthy)) exConf eq_refl)
    as (_ & _ & Hgid & Hseeds).
  split; [apply Hgid; [discriminate | discriminate | reflexivity] | exact Hseeds].
Defined.

(** [Stop_idempotent] on a running coordinator that leads the
    partition. *)
Lemma Stop_idempotent_witness :
  Stop nodeB exRegID (exMgr exMembers) exAllNamespaces false coordStopped
  = Returns (coordStopped, []).
Proof.
  refine (proj1 (proj2
            (Stop_idempotent nodeB exRegID (exMgr exMembers) exAllNamespaces
               false coordRunning coordStopped
               [TransferMyLeader 1 1; StopNamespaceMgr; Unregister;
                StopRegister; CloseStopChan; WaitWorkers] _))).
  reflexivity.
Defined.

(** C9, at the draining meta: the ISR is [A], [C], and the entry that
    [Stats] returns for the partition lists [A], [B] and [C]: the
    [RaftNodes], with the node that is being removed. *)
Example Stats_lists_removing_node :
  PartitionMetaInfo.GetISR metaDraining = ["A"; "C"]
  /\ Stats (exPartInfo metaDraining) exMetaInfo "ns" 0
     = [NamespaceCoordStat.mk "ns" 0
          [ISRStat.mk "" "A"; ISRStat.mk "" "B"; ISRStat.mk "" "C"]].
Proof. split; reflexivity. Qed.

(** [addNamespaceRaftMember_skips_removing] at the draining meta: [B]
    is not proposed again. *)
Lemma addNamespaceRaftMember_skips_removing_witness :
  addNamespaceRaftMember exRegID (exMgr exMembers) metaDraining (exMember 2 2)
  = [].
Proof.
  refine (proj1
            (addNamespaceRaftMember_skips_removing exRegID (exMgr exMembers)
               metaDraining (exMember 2 2) "B" (RemovingInfo.mk 2) _ _ _)).
  - simpl. auto.
  - reflexivity.
  - reflexivity.
Defined.

(** * The rest of the coordinator

    The functions of [data_node_coordinator.go] around the reconciler:
    file names, the snapshot descriptors, the watcher of the placement
    driver, the load pass, [Start] and a whole pass of [doWork]. *)

(** ** File names *)

Definition GetNamespacePartitionFileName (namespace : string) (partition : Z)
    (suffix : string) : string :=
  (namespace ++ "-" ++ Itoa partition ++ suffix)%string.

Lemma append_inj_l (s a b : string) :
  (s ++ a)%string = (s ++ b)%string -> a = b.
Proof.
  induction s as [|c s IH]; simpl; [auto |]. intros [= H]. auto.
Qed.

Lemma length_append (a b : string) :
  String.length (a ++ b)%string = (String.length a + String.length b)%nat.
Proof.
  induction a as [|c a IH]; simpl; [reflexivity |]. now rewrite IH.
Qed.

Lemma append_inj_r (s a b : string) :
  (a ++ s)%string = (b ++ s)%string -> a = b.
Proof.
  revert b. induction a as [|c a IH]; intros [|d b]; simpl.
  - reflexivity.
  - intros H. apply (f_equal String.length) in H. simpl in H.
    rewrite length_append in H. lia.
  - intros H. apply (f_equal String.length) in H. simpl in H.
    rewrite length_append in H. lia.
  - intros [= -> H]. f_equal. now apply IH.
Qed.

Lemma Itoa_inj (a b : Z) : Itoa a = Itoa b -> a = b.
Proof.
  unfold Itoa. intros H.
  assert (forall z, NilZero.int_of_string (NilZero.string_of_int (Z.to_int z))
                    = Some (Z.to_int z)) as Hparse.
  { intros z. apply NilZero.isi; destruct z as [|p|p]; simpl;
      try discriminate; intros [= E];
      now apply (DecimalPos.Unsigned.to_uint_nonnil p). }
  apply (f_equal NilZero.int_of_string) in H.
  rewrite !Hparse in H. injection H as H.
  now apply DecimalZ.to_int_inj.
Qed.

(** X15: the file names of two partitions of a namespace, with the
    same suffix, are equal only for the same partition. *)
Theorem GetNamespacePartitionFileName_partition (namespace suffix : string)
    (p q : Z) :
  GetNamespacePartitionFileName namespace p suffix
  = GetNamespacePartitionFileName namespace q suffix
  <-> p = q.
Proof.
  split; [| now intros ->].
  unfold GetNamespacePartitionFileName. intros H.
  apply append_inj_l in H. simpl in H. injection H as H.
  apply append_inj_r in H. now apply Itoa_inj.
Qed.

(** ** The watcher of the placement driver *)

(** The update of [self.pdLeader] that [watchPD] does, under the
    mutex, for a leader [n] received from the registry. *)
Definition onPDLeader (pdLeader n : NodeInfo.t) : NodeInfo.t :=
  if negb (String.eqb (NodeInfo.GetID n) (NodeInfo.GetID pdLeader))
     || negb (NodeInfo.Epoch n =? NodeInfo.Epoch pdLeader)
  then n
  else pdLeader.

(** [self.pdLeader] when [leaderChan] is closed after it has delivered
    [leaders], in this order. *)
Definition watchPD (pdLeader : NodeInfo.t) (leaders : list NodeInfo.t)
    : NodeInfo.t :=
  fold_left onPDLeader leaders pdLeader.

(** X16: the stored placement-driver leader follows the registry on
    the identity and the epoch: after [watchPD] has received a leader,
    [pdLeader] has the id and the epoch of the last one received (the
    other fields are replaced only together with one of these two). *)
Theorem watchPD_follows (pdLeader last : NodeInfo.t)
    (leaders : list NodeInfo.t) :
  let current := watchPD pdLeader (leaders ++ [last]) in
  NodeInfo.GetID current = NodeInfo.GetID last
  /\ NodeInfo.Epoch current = NodeInfo.Epoch last
  /\ (current = last \/ current = watchPD pdLeader leaders).
Proof.
  unfold watchPD. rewrite fold_left_app. simpl.
  set (before := fold_left onPDLeader leaders pdLeader).
  unfold onPDLeader.
  destruct (String.eqb (NodeInfo.GetID last) (NodeInfo.GetID before)) eqn:I;
    simpl.
  - destruct (NodeInfo.Epoch last =? NodeInfo.Epoch before) eqn:E; simpl.
    + apply String.eqb_eq in I. apply Z.eqb_eq in E. auto.
    + auto.
  - auto.
Qed.

(** ** Snapshot sync descriptors *)

Module SnapshotSyncInfo.
(** [common.SnapshotSyncInfo] *)
Record t := mk
  { NodeID : Z;
    DataRoot : string;
    ReplicaID : Z;
    RemoteAddr : string;
    HttpAPIPort : string;
    RsyncModule : string }.
End SnapshotSyncInfo.

Section Snapshot.

Variable GetNodeInfo : string -> RegisterErr + NodeInfo.t.
Variable GetNamespacePartInfo : string -> Z -> RegisterErr + PartitionMetaInfo.t.
Variable GetNamespaceAndPartition : string -> string * Z.

(** The loop of [GetSnapshotSyncInfo] over the ISR. *)
Fixpoint ssiListFrom (nsInfo : PartitionMetaInfo.t) (isr : list string)
    : list SnapshotSyncInfo.t :=
  match isr with
  | [] => []
  | nid :: rest =>
      match GetNodeInfo nid with
      | inl _ => ssiListFrom nsInfo rest
      | inr node =>
          SnapshotSyncInfo.mk (NodeInfo.RegID node) (NodeInfo.DataRoot node)
            (PartitionMetaInfo.RaftID nsInfo nid) (NodeInfo.NodeIP node)
            (NodeInfo.HttpPort node) (NodeInfo.RsyncModule node)
          :: ssiListFrom nsInfo rest
      end
  end.

(** [GetSnapshotSyncInfo]: the error, or the list (the nil slice is the
    empty list). *)
Definition GetSnapshotSyncInfo (fullNamespace : string)
    : RegisterErr + list SnapshotSyncInfo.t :=
  let '(namespace, pid) := GetNamespaceAndPartition fullNamespace in
  if String.eqb namespace "" then inr []
  else
    match GetNamespacePartInfo namespace pid with
    | inl err => inl err
    | inr nsInfo => inr (ssiListFrom nsInfo (PartitionMetaInfo.GetISR nsInfo))
    end.

(** The nodes of the ISR that the registry resolves, in order. *)
Definition resolvedNodes (isr : list string) : list (string * NodeInfo.t) :=
  flat_map
    (fun nid =>
       match GetNodeInfo nid with
       | inl _ => []
       | inr node => [(nid, node)]
       end)
    isr.

Lemma ssiListFrom_spec (nsInfo : PartitionMetaInfo.t) (isr : list string) :
  ssiListFrom nsInfo isr =
  map (fun '(nid, node) =>
         SnapshotSyncInfo.mk (NodeInfo.RegID node) (NodeInfo.DataRoot node)
           (PartitionMetaInfo.RaftID nsInfo nid) (NodeInfo.NodeIP node)
           (NodeInfo.HttpPort node) (NodeInfo.RsyncModule node))
    (resolvedNodes isr).
Proof.
  induction isr as [|nid rest IH]; simpl; [reflexivity |].
  destruct (GetNodeInfo nid) as [err | node]; simpl; [exact IH |].
  now rewrite IH.
Qed.

Lemma resolvedNodes_length (isr : list string) :
  (List.length (resolvedNodes isr) <= List.length isr)%nat.
Proof.
  induction isr as [|nid rest IH]; simpl; [lia |].
  destruct (GetNodeInfo nid); simpl; lia.
Qed.

(** X17: for a partition that the registry returns,
    [GetSnapshotSyncInfo] describes the nodes of the ISR that the
    registry resolves, in the order of the ISR and never more than the
    ISR has; an unresolved node is left out without an error, and a
    resolved node that has no entry in [RaftIDs] is kept, with the
    replica id 0. *)
Theorem GetSnapshotSyncInfo_spec (fullNamespace namespace : string) (pid : Z)
    (nsInfo : PartitionMetaInfo.t) :
  GetNamespaceAndPartition fullNamespace = (namespace, pid) ->
  namespace <> "" ->
  GetNamespacePartInfo namespace pid = inr nsInfo ->
  exists ssiList,
    GetSnapshotSyncInfo fullNamespace = inr ssiList
    /\ map SnapshotSyncInfo.NodeID ssiList
       = map (fun p => NodeInfo.RegID (snd p))
           (resolvedNodes (PartitionMetaInfo.GetISR nsInfo))
    /\ map SnapshotSyncInfo.ReplicaID ssiList
       = map (fun p => PartitionMetaInfo.RaftID nsInfo (fst p))
           (resolvedNodes (PartitionMetaInfo.GetISR nsInfo))
    /\ (List.length ssiList
        <= List.length (PartitionMetaInfo.GetISR nsInfo))%nat
    /\ (forall nid node,
          In nid (PartitionMetaInfo.GetISR nsInfo) ->
          GetNodeInfo nid = inr node ->
          mapGet nid (PartitionMetaInfo.RaftIDs nsInfo) = None ->
          In (SnapshotSyncInfo.mk (NodeInfo.RegID node)
                (NodeInfo.DataRoot node) 0 (NodeInfo.NodeIP node)
                (NodeInfo.HttpPort node) (NodeInfo.RsyncModule node))
             ssiList).
Proof.
  intros Hname Hns Hinfo. unfold GetSnapshotSyncInfo.
  rewrite Hname. apply String.eqb_neq in Hns. rewrite Hns, Hinfo.
  eexists. split; [reflexivity |].
  rewrite ssiListFrom_spec.
  split; [rewrite map_map; apply map_ext; now intros [nid node] |].
  split; [rewrite map_map; apply map_ext; now intros [nid node] |].
  split; [rewrite length_map; apply resolvedNodes_length |].
  intros nid node Hin Hnode Hid.
  apply in_map_iff. exists (nid, node). split.
  - unfold PartitionMetaInfo.RaftID. now rewrite Hid.
  - unfold resolvedNodes. apply in_flat_map. exists nid.
    split; [exact Hin |]. rewrite Hnode. now left.
Qed.

End Snapshot.

(** ** The load pass and [Start] *)

(** The calls of the load pass and of [Start]: those of the
    reconciler, and the calls into the namespace manager, the local
    replica and the registry that only these functions make. *)
Inductive Call :=
| Coord (e : Event)
| CheckMagicCode (desp : string) (magicCode : Z) (tryFix : bool)
| InitNamespaceNode (nsConf : NamespaceConfig.t) (raftID : Z)
| CheckRaftConf (raftID : Z) (nsConf : NamespaceConfig.t)
| SetMagicCode (magicCode : Z)
| SetDynamicInfo
| StartNode
| RegisterNode
| StartNamespaceMgr
| SpawnWatchPD
| SpawnCheckForUnsynced.

(** What the body of a [for ... range] loop asks of the loop. *)
Inductive LoopControl :=
| Continue
| Break.

(** The errors of [updateLocalNamespace]: one of the coordinator's
    errors, or [&CoordErr{checkErr.Error(), RpcNoErr, CoordLocalErr}]
    for a raft configuration that does not match. *)
Inductive UpdateErr :=
| UpdateCoordErr (e : CoordErr)
| UpdateRaftConfMismatch (checkErr : string).

(** The errors of [Start]. *)
Inductive StartErr :=
| InvalidRegisterID
| RegisterFailed (err : string)
| LoadFailed (err : RegisterErr).

Section LoadPass.

Variable myNode : NodeInfo.t.
Variable ExtractRegIDFromGenID : string -> Z.
Variable APIGetMembers : string -> string -> string + list MemberInfo.t.
Variable GetNamespaceNode : string -> option NamespaceNode.t.
Variable GetNodeInfo : string -> RegisterErr + NodeInfo.t.
Variable GetAllNamespaces :
  RegisterErr + list (string * list (Z * PartitionMetaInfo.t)).
Variable FillMyMemberInfo : MemberInfo.t -> MemberInfo.t.
Variable nilNSMgrCallReturns : bool.

(** [self.localNSMgr.CheckMagicCode] *)
Variable nsMgrCheckMagicCode : string -> Z -> bool -> option string.

(** [self.localNSMgr.InitNamespaceNode]: the node, [nil] as [None] (the
    error that comes with it is dropped by the caller). *)
Variable nsMgrInitNamespaceNode :
  NamespaceConfig.t -> Z -> option NamespaceNode.t.

(** [localNode.CheckRaftConf], [localNode.SetMagicCode] and
    [localNode.Start]: the error, [nil] as [None]. *)
Variable nodeCheckRaftConf :
  NamespaceNode.t -> Z -> NamespaceConfig.t -> option string.
Variable nodeSetMagicCode : NamespaceNode.t -> Z -> option string.
Variable nodeStart : NamespaceNode.t -> option string.

(** What the retry loop of [ensureJoinNamespaceGroup] observes when it
    is called for a partition. *)
Variable joinObservations : PartitionMetaInfo.t -> list JoinObs.t.

(** [sort.Sort] on a [PartitionList]. *)
Variable sortParts : list PartitionMetaInfo.t -> list PartitionMetaInfo.t.

(** [self.register.Register(&self.myNode)] *)
Variable registerRegister : option string.

Definition checkLocalNamespaceMagicCode (nsInfo : PartitionMetaInfo.t)
    (tryFix : bool) : list Call * option string :=
  if PartitionMetaInfo.MagicCode nsInfo <=? 0 then ([], None)
  else
    ([CheckMagicCode (PartitionMetaInfo.GetDesp nsInfo)
        (PartitionMetaInfo.MagicCode nsInfo) tryFix],
     nsMgrCheckMagicCode (PartitionMetaInfo.GetDesp nsInfo)
       (PartitionMetaInfo.MagicCode nsInfo) tryFix).

Definition updateLocalNamespace (nsInfo : PartitionMetaInfo.t)
    : list Call * option NamespaceNode.t * option UpdateErr :=
  match mapGet (GetMyID myNode) (PartitionMetaInfo.RaftIDs nsInfo) with
  | None => ([], None, Some (UpdateCoordErr ErrNamespaceConfInvalid))
  | Some raftID =>
      match prepareNamespaceConf myNode ExtractRegIDFromGenID GetNodeInfo
              nsInfo with
      | inl err => ([], None, Some (UpdateCoordErr err))
      | inr nsConf =>
          match nsMgrInitNamespaceNode nsConf raftID with
          | None =>
              ([InitNamespaceNode nsConf raftID], None,
               Some (UpdateCoordErr ErrLocalInitNamespaceFailed))
          | Some localNode =>
              match nodeCheckRaftConf localNode raftID nsConf with
              | Some checkErr =>
                  ([InitNamespaceNode nsConf raftID;
                    CheckRaftConf raftID nsConf],
                   None, Some (UpdateRaftConfMismatch checkErr))
              | None =>
                  match nodeSetMagicCode localNode
                          (PartitionMetaInfo.MagicCode nsInfo) with
                  | Some localErr =>
                      ([InitNamespaceNode nsConf raftID;
                        CheckRaftConf raftID nsConf;
                        SetMagicCode (PartitionMetaInfo.MagicCode nsInfo)],
                       Some localNode,
                       Some (UpdateCoordErr ErrLocalInitNamespaceFailed))
                  | None =>
                      ([InitNamespaceNode nsConf raftID;
                        CheckRaftConf raftID nsConf;
                        SetMagicCode (PartitionMetaInfo.MagicCode nsInfo);
                        SetDynamicInfo;
                        StartNode],
                       match nodeStart localNode with
                       | Some _ => None
                       | None => Some localNode
                       end,
                       match nodeStart localNode with
                       | Some _ =>
                           Some (UpdateCoordErr ErrLocalInitNamespaceFailed)
                       | None => None
                       end)
                  end
              end
          end
      end
  end.

(** A call of [ensureJoinNamespaceGroup] in the load pass, and the test
    [joinErr != nil && joinErr != ErrNamespaceConfInvalid] after it. *)
Definition joinStep (nsInfo : PartitionMetaInfo.t) (catchupRunning : Z)
    : Z * list Call * Outcome LoopControl :=
  let '(catchupRunning', evs, r) :=
    ensureJoinNamespaceGroup myNode ExtractRegIDFromGenID FillMyMemberInfo
      catchupRunning nsInfo (joinObservations nsInfo) in
  (catchupRunning', map Coord evs,
   match r with
   | Panics => Panics
   | Returns None => Returns Continue
   | Returns (Some ErrNamespaceConfInvalid) => Returns Continue
   | Returns (Some _) => Returns Break
   end).

(** The body of the loop of [loadLocalNamespaceData] over the sorted
    partitions of the namespace [namespaceName]. *)
Definition loadPartition (namespaceName : string)
    (nsInfo : PartitionMetaInfo.t) (catchupRunning : Z)
    : Z * list Call * Outcome LoopControl :=
  let localNamespace := GetNamespaceNode (PartitionMetaInfo.GetDesp nsInfo) in
  let shouldLoad := isNamespaceShouldStart myNode APIGetMembers nsInfo in
  if negb shouldLoad then
    (catchupRunning,
     match localNamespace with
     | Some l =>
         if PartitionMetaInfo.Replica nsInfo
            <=? Z.of_nat (List.length (PartitionMetaInfo.GetISR nsInfo))
         then map Coord (fst (removeLocalNamespaceFromRaft l true))
         else []
     | None => []
     end,
     Returns Continue)
  else
    match localNamespace with
    | Some _ => joinStep nsInfo catchupRunning
    | None =>
        if String.eqb namespaceName "" then
          (catchupRunning, [], Returns Continue)
        else
          let '(evs1, checkErr) := checkLocalNamespaceMagicCode nsInfo true in
          match checkErr with
          | Some _ => (catchupRunning, evs1, Returns Continue)
          | None =>
              let '(evs2, _, coordErr) := updateLocalNamespace nsInfo in
              match coordErr with
              | Some _ => (catchupRunning, evs1 ++ evs2, Returns Continue)
              | None =>
                  let '(catchupRunning', evs3, r) :=
                    joinStep nsInfo catchupRunning in
                  (catchupRunning', evs1 ++ evs2 ++ [SetDynamicInfo] ++ evs3, r)
              end
          end
    end.

(** The loop over the sorted partitions of a namespace. *)
Fixpoint loadPartitions (namespaceName : string)
    (sortedParts : list PartitionMetaInfo.t) (catchupRunning : Z)
    : Z * list Call * Outcome unit :=
  match sortedParts with
  | [] => (catchupRunning, [], Returns tt)
  | nsInfo :: rest =>
      let '(catchupRunning1, evs1, r) :=
        loadPartition namespaceName nsInfo catchupRunning in
      match r with
      | Panics => (catchupRunning1, evs1, Panics)
      | Returns Break => (catchupRunning1, evs1, Returns tt)
      | Returns Continue =>
          let '(catchupRunning2, evs2, r2) :=
            loadPartitions namespaceName rest catchupRunning1 in
          (catchupRunning2, evs1 ++ evs2, r2)
      end
  end.

(** The loop over the namespaces of the registry. *)
Fixpoint loadNamespaces
    (namespaceMap : list (string * list (Z * PartitionMetaInfo.t)))
    (catchupRunning : Z) : Z * list Call * Outcome unit :=
  match namespaceMap with
  | [] => (catchupRunning, [], Returns tt)
  | (namespaceName, namespaceParts) :: rest =>
      let '(catchupRunning1, evs1, r) :=
        loadPartitions namespaceName (sortParts (map snd namespaceParts))
          catchupRunning in
      match r with
      | Panics => (catchupRunning1, evs1, Panics)
      | Returns _ =>
          let '(catchupRunning2, evs2, r2) :=
            loadNamespaces rest catchupRunning1 in
          (catchupRunning2, evs1 ++ evs2, r2)
      end
  end.

Definition loadLocalNamespaceData (c : DataCoordinator.t)
    (catchupRunning : Z) : Z * list Call * Outcome (option RegisterErr) :=
  if negb (DataCoordinator.hasNSMgr c) then (catchupRunning, [], Returns None)
  else if negb (DataCoordinator.hasRegister c) then
    (* self.register.GetAllNamespaces() on a nil interface value *)
    (catchupRunning, [], Panics)
  else
    match GetAllNamespaces with
    | inl ErrKeyNotFound => (catchupRunning, [], Returns None)
    | inl err => (catchupRunning, [], Returns (Some err))
    | inr namespaceMap =>
        let '(catchupRunning', evs, r) :=
          loadNamespaces namespaceMap catchupRunning in
        (catchupRunning', evs,
         match r with
         | Panics => Panics
         | Returns _ => Returns None
         end)
    end.

(** [Start], up to the two goroutines that it spawns. *)
Definition Start (c : DataCoordinator.t) (catchupRunning : Z)
    : DataCoordinator.t * Z * list Call * Outcome (option StartErr) :=
  let load (registered : list Call) :=
    let evs0 :=
      registered
      ++ (if DataCoordinator.hasNSMgr c then [StartNamespaceMgr] else [])
      ++ [SpawnWatchPD] in
    let '(catchupRunning', evs1, r) :=
      loadLocalNamespaceData c catchupRunning in
    match r with
    | Panics => (c, catchupRunning', evs0 ++ evs1, Panics)
    | Returns (Some err) =>
        (* close(self.stopChan) *)
        if DataCoordinator.stopChanClosed c then
          (c, catchupRunning', evs0 ++ evs1, Panics)
        else
          (DataCoordinator.mk
             (DataCoordinator.hasRegister c)
             (DataCoordinator.hasNSMgr c)
             (DataCoordinator.stopping c)
             true,
           catchupRunning', evs0 ++ evs1 ++ [Coord CloseStopChan],
           Returns (Some (LoadFailed err)))
    | Returns None =>
        (c, catchupRunning', evs0 ++ evs1 ++ [SpawnCheckForUnsynced],
         Returns None)
    end in
  if DataCoordinator.hasRegister c then
    if GetMyRegID myNode <=? 0 then
      (c, catchupRunning, [], Returns (Some InvalidRegisterID))
    else
      match registerRegister with
      | Some err =>
          (c, catchupRunning, [RegisterNode], Returns (Some (RegisterFailed err)))
      | None => load [RegisterNode]
      end
  else load [].

(** *** Properties of the load pass *)

Ltac split_ands :=
  repeat match goal with H : _ /\ _ |- _ => destruct H end.

Lemma joinStep_calls (nsInfo : PartitionMetaInfo.t) (catchupRunning : Z)
    (call : Call) :
  In call (snd (fst (joinStep nsInfo catchupRunning))) ->
  exists e, call = Coord e.
Proof.
  unfold joinStep.
  destruct (ensureJoinNamespaceGroup _ _ _ _ _ _) as [[k evs] r]. simpl.
  intros H. apply in_map_iff in H. destruct H as (e & <- & _). now exists e.
Qed.

(** X18: [updateLocalNamespace] starts a replica only after the
    namespace manager has returned it for the configuration of the
    meta, its raft configuration has been checked against that
    configuration and its magic code has been set; and it returns
    without an error exactly when, in addition, the start succeeds,
    with that replica as its result. *)
Theorem updateLocalNamespace_spec (nsInfo : PartitionMetaInfo.t) :
  let '(trace, node, err) := updateLocalNamespace nsInfo in
  let prepared raftID nsConf localNode :=
    mapGet (GetMyID myNode) (PartitionMetaInfo.RaftIDs nsInfo) = Some raftID
    /\ prepareNamespaceConf myNode ExtractRegIDFromGenID GetNodeInfo nsInfo
       = inr nsConf
    /\ nsMgrInitNamespaceNode nsConf raftID = Some localNode
    /\ nodeCheckRaftConf localNode raftID nsConf = None
    /\ nodeSetMagicCode localNode (PartitionMetaInfo.MagicCode nsInfo) = None in
  (In StartNode trace <->
   exists raftID nsConf localNode, prepared raftID nsConf localNode)
  /\ (err = None <->
      exists raftID nsConf localNode,
        prepared raftID nsConf localNode
        /\ nodeStart localNode = None
        /\ node = Some localNode).
Proof.
  unfold updateLocalNamespace.
  destruct (mapGet (GetMyID myNode) _) as [raftID|] eqn:M;
    [destruct (prepareNamespaceConf _ _ _ nsInfo) as [e | nsConf] eqn:P;
     [| destruct (nsMgrInitNamespaceNode nsConf raftID) as [localNode|] eqn:I;
        [destruct (nodeCheckRaftConf localNode raftID nsConf)
           as [checkErr|] eqn:C;
         [| destruct (nodeSetMagicCode localNode _) as [localErr|] eqn:S;
            [| destruct (nodeStart localNode) as [startErr|] eqn:T]] |]] |];
    simpl; (split; split);
    first
      [ discriminate
      | now intros []
      | (intros H; repeat (destruct H as [H | H]; try discriminate);
         now destruct H)
      | (intros (r & c & l & H); split_ands; congruence)
      | (intros _; exists raftID, nsConf, localNode; auto 8)
      | (intros _; auto 8) ].
Qed.

(** X19: the load pass creates a local replica only where it is
    wanted: [InitNamespaceNode] is called for a partition only when
    [isNamespaceShouldStart] holds for its meta, no local replica
    exists, the namespace has a name, the check of the magic code
    passed (or the meta has none), and then with the configuration that
    [prepareNamespaceConf] derives from the meta and the replica id
    [RaftIDs[self]]. *)
Theorem loadPartition_creates (namespaceName : string)
    (nsInfo : PartitionMetaInfo.t) (catchupRunning : Z)
    (nsConf : NamespaceConfig.t) (raftID : Z) :
  In (InitNamespaceNode nsConf raftID)
    (snd (fst (loadPartition namespaceName nsInfo catchupRunning))) ->
  isNamespaceShouldStart myNode APIGetMembers nsInfo = true
  /\ GetNamespaceNode (PartitionMetaInfo.GetDesp nsInfo) = None
  /\ namespaceName <> ""
  /\ (PartitionMetaInfo.MagicCode nsInfo <= 0
      \/ nsMgrCheckMagicCode (PartitionMetaInfo.GetDesp nsInfo)
           (PartitionMetaInfo.MagicCode nsInfo) true = None)
  /\ mapGet (GetMyID myNode) (PartitionMetaInfo.RaftIDs nsInfo) = Some raftID
  /\ prepareNamespaceConf myNode ExtractRegIDFromGenID GetNodeInfo nsInfo
     = inr nsConf.
Proof.
  assert (In (InitNamespaceNode nsConf raftID)
            (fst (fst (updateLocalNamespace nsInfo))) ->
          mapGet (GetMyID myNode) (PartitionMetaInfo.RaftIDs nsInfo)
          = Some raftID
          /\ prepareNamespaceConf myNode ExtractRegIDFromGenID GetNodeInfo
               nsInfo = inr nsConf) as Hinit.
  { unfold updateLocalNamespace.
    destruct (mapGet (GetMyID myNode) _) as [r|]; [| intros []].
    destruct (prepareNamespaceConf _ _ _ nsInfo) as [e | c]; [intros [] |].
    destruct (nsMgrInitNamespaceNode c r) as [n|];
      [destruct (nodeCheckRaftConf n r c);
       [| destruct (nodeSetMagicCode n _)] |];
      simpl; intros H;
      repeat (destruct H as [H | H]; try discriminate);
      try (now destruct H); injection H as <- <-; auto. }
  assert (~ In (InitNamespaceNode nsConf raftID)
              (snd (fst (joinStep nsInfo catchupRunning)))) as Hjoin.
  { intros H. apply joinStep_calls in H. destruct H as (e & [=]). }
  unfold loadPartition.
  destruct (isNamespaceShouldStart myNode APIGetMembers nsInfo); simpl.
  2: { destruct (GetNamespaceNode _) as [l|]; [| intros []].
       destruct (_ <=? _); [| intros []].
       intros H. apply in_map_iff in H. destruct H as (e & [=] & _). }
  destruct (GetNamespaceNode _) as [l|] eqn:Node;
    [intros H; now apply Hjoin in H |].
  destruct (String.eqb namespaceName "") eqn:Name; [intros [] |].
  apply String.eqb_neq in Name.
  unfold checkLocalNamespaceMagicCode.
  revert Hinit Hjoin.
  destruct (updateLocalNamespace nsInfo) as [[evs2 node] coordErr].
  destruct (joinStep nsInfo catchupRunning) as [[k evs3] r].
  simpl. intros Hinit Hjoin.
  destruct (PartitionMetaInfo.MagicCode nsInfo <=? 0) eqn:Magic.
  - apply Z.leb_le in Magic.
    destruct coordErr; simpl; intros H.
    + destruct (Hinit H). auto 8.
    + apply in_app_iff in H. destruct H as [H | [H | H]];
        [destruct (Hinit H); auto 8 | discriminate | now apply Hjoin in H].
  - destruct (nsMgrCheckMagicCode _ _ true) as [checkErr|].
    { simpl. intros [H | []]. discriminate. }
    destruct coordErr; simpl; intros [H | H]; try discriminate.
    + destruct (Hinit H). auto 8.
    + apply in_app_iff in H. destruct H as [H | [H | H]];
        [destruct (Hinit H); auto 8 | discriminate | now apply Hjoin in H].
Qed.

(** X20: for a partition that should not run on this node the load
    pass creates nothing, starts nothing and asks no peer: it goes on
    to the next partition, after it has proposed the removal of the
    local member when a local replica exists, is ready and the ISR has
    at least [Replica] nodes. *)
Theorem loadPartition_not_wanted (namespaceName : string)
    (nsInfo : PartitionMetaInfo.t) (catchupRunning : Z) :
  isNamespaceShouldStart myNode APIGetMembers nsInfo = false ->
  loadPartition namespaceName nsInfo catchupRunning =
  (catchupRunning,
   match GetNamespaceNode (PartitionMetaInfo.GetDesp nsInfo) with
   | Some l =>
       if (PartitionMetaInfo.Replica nsInfo
           <=? Z.of_nat (List.length (PartitionMetaInfo.GetISR nsInfo)))
          && NamespaceNode.Ready l
       then [Coord (ProposeRemoveMember (NamespaceNode.LocalMemberInfo l))]
       else []
   | None => []
   end,
   Returns Continue).
Proof.
  intros Hstart. unfold loadPartition. rewrite Hstart. cbn [negb].
  destruct (GetNamespaceNode _) as [l|]; [| reflexivity].
  destruct (_ <=? _); [| reflexivity].
  rewrite removeLocalNamespaceFromRaft_data.
  now destruct (NamespaceNode.Ready l).
Qed.

(** X21: the load pass leaves the loop over the partitions of a
    namespace exactly at a partition whose join ends busy, waiting for
    sync or exiting: nothing is done for the partitions after it; an
    invalid configuration ([ErrNamespaceConfInvalid]) does not stop the
    loop. *)
Theorem loadPartitions_break (namespaceName : string)
    (nsInfo : PartitionMetaInfo.t) (rest : list PartitionMetaInfo.t)
    (catchupRunning : Z) :
  snd (loadPartition namespaceName nsInfo catchupRunning) = Returns Break ->
  loadPartitions namespaceName (nsInfo :: rest) catchupRunning
  = (fst (fst (loadPartition namespaceName nsInfo catchupRunning)),
     snd (fst (loadPartition namespaceName nsInfo catchupRunning)),
     Returns tt)
  /\ isNamespaceShouldStart myNode APIGetMembers nsInfo = true
  /\ exists e,
       snd (ensureJoinNamespaceGroup myNode ExtractRegIDFromGenID
              FillMyMemberInfo catchupRunning nsInfo (joinObservations nsInfo))
       = Returns (Some e)
       /\ (e = ErrCatchupRunningBusy
           \/ e = ErrNamespaceWaitingSync
           \/ e = ErrNamespaceExiting).
Proof.
  intros Hbreak. split.
  { simpl.
    destruct (loadPartition namespaceName nsInfo catchupRunning)
      as [[k evs] r].
    simpl in Hbreak. now subst r. }
  assert (snd (joinStep nsInfo catchupRunning) = Returns Break ->
          exists e,
            snd (ensureJoinNamespaceGroup myNode ExtractRegIDFromGenID
                   FillMyMemberInfo catchupRunning nsInfo
                   (joinObservations nsInfo)) = Returns (Some e)
            /\ (e = ErrCatchupRunningBusy
                \/ e = ErrNamespaceWaitingSync
                \/ e = ErrNamespaceExiting)) as Hjoin.
  { unfold joinStep.
    pose proof (ensureJoinNamespaceGroup_errors myNode ExtractRegIDFromGenID
                  FillMyMemberInfo nsInfo catchupRunning
                  (joinObservations nsInfo)) as Herrs.
    destruct (ensureJoinNamespaceGroup _ _ _ _ _ _) as [[k evs] r].
    simpl in *.
    destruct r as [[e|]|]; [| discriminate | discriminate].
    intros Hb. exists e. split; [reflexivity |].
    destruct (Herrs e eq_refl) as [-> | [-> | [-> | ->]]]; auto.
    discriminate. }
  unfold loadPartition in Hbreak.
  destruct (isNamespaceShouldStart myNode APIGetMembers nsInfo);
    [| discriminate].
  split; [reflexivity |].
  simpl in Hbreak.
  destruct (GetNamespaceNode _); [now apply Hjoin |].
  destruct (String.eqb namespaceName ""); [discriminate |].
  destruct (checkLocalNamespaceMagicCode nsInfo true) as [evs1 [checkErr|]];
    [discriminate |].
  destruct (updateLocalNamespace nsInfo) as [[evs2 node] [coordErr|]];
    [discriminate |].
  destruct (joinStep nsInfo catchupRunning) as [[k evs3] r] eqn:J.
  apply Hjoin. simpl in *. exact Hbreak.
Qed.

(** X22: when [Start] fails because the load of the namespaces fails,
    the registry had answered the listing with an error other than
    [ErrKeyNotFound], the node is registered by then and [stopChan] is
    closed; a later call of [Stop] on this coordinator does not
    complete: it panics on the second [close] of the channel. *)
Theorem Start_load_failure (c c' : DataCoordinator.t)
    (catchupRunning catchupRunning' : Z) (trace : list Call)
    (err : RegisterErr) :
  Start c catchupRunning
  = (c', catchupRunning', trace, Returns (Some (LoadFailed err))) ->
  GetAllNamespaces = inl err
  /\ err <> ErrKeyNotFound
  /\ In RegisterNode trace
  /\ DataCoordinator.stopChanClosed c' = true
  /\ (DataCoordinator.stopping c <> 1 ->
      Stop myNode ExtractRegIDFromGenID GetNamespaceNode GetAllNamespaces
        nilNSMgrCallReturns c' = Panics).
Proof.
  unfold Start.
  assert (forall registered,
            (let '(k, evs1, r) := loadLocalNamespaceData c catchupRunning in
             match r with
             | Panics => (c, k, registered ++ evs1, Panics)
             | Returns (Some e) =>
                 if DataCoordinator.stopChanClosed c
                 then (c, k, registered ++ evs1, Panics)
                 else
                   (DataCoordinator.mk (DataCoordinator.hasRegister c)
                      (DataCoordinator.hasNSMgr c)
                      (DataCoordinator.stopping c) true,
                    k, registered ++ evs1 ++ [Coord CloseStopChan],
                    Returns (Some (LoadFailed e)))
             | Returns None =>
                 (c, k, registered ++ evs1 ++ [SpawnCheckForUnsynced],
                  Returns None)
             end)
            = (c', catchupRunning', trace, Returns (Some (LoadFailed err))) ->
            GetAllNamespaces = inl err
            /\ err <> ErrKeyNotFound
            /\ DataCoordinator.hasRegister c = true
            /\ (exists evs, trace = registered ++ evs)
            /\ DataCoordinator.stopChanClosed c' = true
            /\ DataCoordinator.stopping c' = DataCoordinator.stopping c)
    as Hload.
  { intros registered. unfold loadLocalNamespaceData.
    destruct (DataCoordinator.hasNSMgr c); simpl; [| discriminate].
    destruct (DataCoordinator.hasRegister c); simpl; [| discriminate].
    destruct GetAllNamespaces as [[|msg] | namespaceMap]; simpl.
    - discriminate.
    - destruct (DataCoordinator.stopChanClosed c); [discriminate |].
      intros [= <- <- <- <-]. simpl.
      repeat split; try reflexivity; try discriminate. eauto.
    - destruct (loadNamespaces namespaceMap catchupRunning) as [[k evs] r].
      destruct r; discriminate. }
  destruct (DataCoordinator.hasRegister c) eqn:Reg.
  - destruct (GetMyRegID myNode <=? 0); [discriminate |].
    destruct registerRegister; [discriminate |].
    intros H.
    destruct (Hload ([RegisterNode]
                     ++ (if DataCoordinator.hasNSMgr c
                         then [StartNamespaceMgr] else [])
                     ++ [SpawnWatchPD]))
      as (Hall & Hne & _ & (evs & ->) & Hclosed & Hflag).
    { rewrite <- H. clear H.
      destruct (loadLocalNamespaceData c catchupRunning) as [[k evs1] r].
      destruct r as [[e|]|]; [| reflexivity | reflexivity].
      destruct (DataCoordinator.stopChanClosed c); reflexivity. }
    repeat split; try assumption.
    + now left.
    + intros Hstop. apply Stop_on_closed_channel; [exact Hclosed |].
      now rewrite Hflag.
  - intros H. exfalso.
    destruct (Hload ([]
                     ++ (if DataCoordinator.hasNSMgr c
                         then [StartNamespaceMgr] else [])
                     ++ [SpawnWatchPD]))
      as (_ & _ & [=] & _).
    rewrite <- H. clear H.
    destruct (loadLocalNamespaceData c catchupRunning) as [[k evs1] r].
    destruct r as [[e|]|]; [| reflexivity | reflexivity].
    destruct (DataCoordinator.stopChanClosed c); reflexivity.
Qed.

(** *** A whole pass of the reconciler *)

Variable GetNamespacePartInfo :
  string -> Z -> RegisterErr + PartitionMetaInfo.t.
Variable GetNamespaceMetaInfo : string -> RegisterErr + NamespaceMetaInfo.t.
Variable GetNamespaceAndPartition : string -> string * Z.

(** [self.localNSMgr.GetNamespaces()] after the load: the local
    replicas by name, in the order in which the pass ranges over them. *)
Variable GetNamespaces : list (string * NamespaceNode.t).

(** The loop of [doWork] over the local replicas. *)
Definition checkNamespaces (tmpChecks : list (string * NamespaceNode.t))
    : list Call :=
  flat_map
    (fun '(name, localNamespace) =>
       map Coord
         (checkLocalNamespace myNode ExtractRegIDFromGenID APIGetMembers
            GetNamespaceNode GetNodeInfo GetNamespacePartInfo
            GetNamespaceMetaInfo GetNamespaceAndPartition name localNamespace))
    tmpChecks.

(** [doWork], the closure of [checkForUnsyncedNamespaces]: the load
    pass, whose error is dropped, and then the loop over the local
    replicas.  The register is not nil here: [checkForUnsyncedNamespaces]
    calls [self.register.GetNamespacesNotifyChan()] before the first
    pass. *)
Definition doWork (c : DataCoordinator.t) (catchupRunning : Z)
    : Z * list Call * Outcome unit :=
  let '(catchupRunning', evs, r) := loadLocalNamespaceData c catchupRunning in
  match r with
  | Panics => (catchupRunning', evs, Panics)
  | Returns _ =>
      (* self.localNSMgr.GetNamespaces() *)
      if DataCoordinator.hasNSMgr c || nilNSMgrCallReturns then
        (catchupRunning', evs ++ checkNamespaces GetNamespaces, Returns tt)
      else (catchupRunning', evs, Panics)
  end.

Lemma updateLocalNamespace_calls (nsInfo : PartitionMetaInfo.t) (call : Call) :
  In call (fst (fst (updateLocalNamespace nsInfo))) ->
  forall e, call <> Coord e.
Proof.
  unfold updateLocalNamespace.
  destruct (mapGet (GetMyID myNode) _) as [r|]; [| intros []].
  destruct (prepareNamespaceConf _ _ _ nsInfo) as [err | c]; [intros [] |].
  destruct (nsMgrInitNamespaceNode c r) as [n|];
    [destruct (nodeCheckRaftConf n r c);
     [| destruct (nodeSetMagicCode n _)] |];
    simpl; intros H e;
    repeat (destruct H as [<- | H]; [discriminate |]); destruct H.
Qed.

Lemma joinStep_no_destroy (nsInfo : PartitionMetaInfo.t) (catchupRunning : Z)
    (n : NamespaceNode.t) :
  ~ In (Coord (Destroy n)) (snd (fst (joinStep nsInfo catchupRunning))).
Proof.
  unfold joinStep.
  pose proof (ensureJoinNamespaceGroup_events myNode ExtractRegIDFromGenID
                FillMyMemberInfo nsInfo catchupRunning
                (joinObservations nsInfo)) as Hev.
  destruct (ensureJoinNamespaceGroup _ _ _ _ _ _) as [[k evs] r].
  simpl in *. intros H. apply in_map_iff in H.
  destruct H as (e & [= ->] & Hin).
  destruct (Hev _ Hin) as [E | [E | [E | (remote & m & E)]]]; discriminate.
Qed.

Lemma loadPartition_no_destroy (namespaceName : string)
    (nsInfo : PartitionMetaInfo.t) (catchupRunning : Z) (n : NamespaceNode.t) :
  ~ In (Coord (Destroy n))
      (snd (fst (loadPartition namespaceName nsInfo catchupRunning))).
Proof.
  pose proof (joinStep_no_destroy nsInfo catchupRunning n) as Hjoin.
  pose proof (updateLocalNamespace_calls nsInfo) as Hupdate.
  unfold loadPartition.
  destruct (isNamespaceShouldStart myNode APIGetMembers nsInfo);
    cbn [negb].
  2: { cbn [snd fst]. destruct (GetNamespaceNode _) as [l|]; [| intros []].
       destruct (_ <=? _); [| intros []].
       rewrite removeLocalNamespaceFromRaft_data.
       destruct (NamespaceNode.Ready l); [| intros []].
       intros [H | []]. discriminate. }
  destruct (GetNamespaceNode _) as [l|]; [exact Hjoin |].
  destruct (String.eqb namespaceName ""); [intros [] |].
  unfold checkLocalNamespaceMagicCode.
  revert Hjoin Hupdate.
  destruct (updateLocalNamespace nsInfo) as [[evs2 node] coordErr].
  destruct (joinStep nsInfo catchupRunning) as [[k evs3] r].
  simpl. intros Hjoin Hupdate.
  assert (~ In (Coord (Destroy n)) evs2) as Hevs2
    by (intros H; exact (Hupdate _ H (Destroy n) eq_refl)).
  destruct (PartitionMetaInfo.MagicCode nsInfo <=? 0).
  - destruct coordErr; simpl; [exact Hevs2 |].
    intros H. apply in_app_iff in H.
    destruct H as [H | [H | H]];
      [exact (Hevs2 H) | discriminate | exact (Hjoin H)].
  - destruct (nsMgrCheckMagicCode _ _ true) as [checkErr|].
    { simpl. intros [H | []]. discriminate. }
    destruct coordErr; simpl; intros [H | H]; try discriminate;
      [exact (Hevs2 H) |].
    apply in_app_iff in H.
    destruct H as [H | [H | H]];
      [exact (Hevs2 H) | discriminate | exact (Hjoin H)].
Qed.

Lemma loadPartitions_no_destroy (namespaceName : string)
    (sortedParts : list PartitionMetaInfo.t) (catchupRunning : Z)
    (n : NamespaceNode.t) :
  ~ In (Coord (Destroy n))
      (snd (fst (loadPartitions namespaceName sortedParts catchupRunning))).
Proof.
  revert catchupRunning.
  induction sortedParts as [|nsInfo rest IH]; intros catchupRunning; simpl;
    [intros [] |].
  pose proof (loadPartition_no_destroy namespaceName nsInfo catchupRunning n)
    as Hpart.
  destruct (loadPartition namespaceName nsInfo catchupRunning)
    as [[k1 evs1] r].
  simpl in Hpart.
  destruct r as [[|]|]; simpl; try exact Hpart.
  specialize (IH k1).
  destruct (loadPartitions namespaceName rest k1) as [[k2 evs2] r2].
  simpl in *. intros H. apply in_app_iff in H.
  destruct H as [H | H]; [exact (Hpart H) | exact (IH H)].
Qed.

Lemma loadNamespaces_no_destroy
    (namespaceMap : list (string * list (Z * PartitionMetaInfo.t)))
    (catchupRunning : Z) (n : NamespaceNode.t) :
  ~ In (Coord (Destroy n))
      (snd (fst (loadNamespaces namespaceMap catchupRunning))).
Proof.
  revert catchupRunning.
  induction namespaceMap as [|[namespaceName namespaceParts] rest IH];
    intros catchupRunning; simpl; [intros [] |].
  pose proof (loadPartitions_no_destroy namespaceName
                (sortParts (map snd namespaceParts)) catchupRunning n)
    as Hparts.
  destruct (loadPartitions namespaceName _ catchupRunning) as [[k1 evs1] r].
  simpl in Hparts.
  destruct r as [u|]; simpl; [| exact Hparts].
  specialize (IH k1).
  destruct (loadNamespaces rest k1) as [[k2 evs2] r2].
  simpl in *. intros H. apply in_app_iff in H.
  destruct H as [H | H]; [exact (Hparts H) | exact (IH H)].
Qed.

Lemma loadLocalNamespaceData_no_destroy (c : DataCoordinator.t)
    (catchupRunning : Z) (n : NamespaceNode.t) :
  ~ In (Coord (Destroy n))
      (snd (fst (loadLocalNamespaceData c catchupRunning))).
Proof.
  unfold loadLocalNamespaceData.
  destruct (DataCoordinator.hasNSMgr c); simpl; [| intros []].
  destruct (DataCoordinator.hasRegister c); simpl; [| intros []].
  destruct GetAllNamespaces as [[|msg] | namespaceMap];
    [intros [] | intros [] |].
  pose proof (loadNamespaces_no_destroy namespaceMap catchupRunning n) as H.
  destruct (loadNamespaces namespaceMap catchupRunning) as [[k evs] r].
  exact H.
Qed.

(** X23: a whole pass of [doWork] destroys local data only for a
    replica that the namespace manager lists and whose partition and
    namespace meta the registry has both lost ([ErrKeyNotFound] for
    both lookups); the load pass at its start destroys nothing.  And a
    pass that completes destroys every such replica. *)
Theorem doWork_destroys (c : DataCoordinator.t) (catchupRunning : Z)
    (n : NamespaceNode.t) :
  DataCoordinator.hasRegister c = true ->
  let lost name :=
    exists namespace pid,
      GetNamespaceAndPartition name = (namespace, pid)
      /\ namespace <> ""
      /\ GetNamespacePartInfo namespace pid = inl ErrKeyNotFound
      /\ GetNamespaceMetaInfo namespace = inl ErrKeyNotFound in
  (In (Coord (Destroy n)) (snd (fst (doWork c catchupRunning))) ->
   exists name, In (name, n) GetNamespaces /\ lost name)
  /\ (snd (doWork c catchupRunning) = Returns tt ->
      forall name,
        In (name, n) GetNamespaces ->
        lost name ->
        In (Coord (Destroy n)) (snd (fst (doWork c catchupRunning)))).
Proof.
  intros _ lost. subst lost. unfold doWork.
  pose proof (loadLocalNamespaceData_no_destroy c catchupRunning n) as Hload.
  destruct (loadLocalNamespaceData c catchupRunning) as [[k evs] r].
  simpl in Hload.
  assert (In (Coord (Destroy n)) (checkNamespaces GetNamespaces) <->
          exists name,
            In (name, n) GetNamespaces
            /\ exists namespace pid,
                 GetNamespaceAndPartition name = (namespace, pid)
                 /\ namespace <> ""
                 /\ GetNamespacePartInfo namespace pid = inl ErrKeyNotFound
                 /\ GetNamespaceMetaInfo namespace = inl ErrKeyNotFound)
    as Hloop.
  { unfold checkNamespaces. rewrite in_flat_map. split.
    - intros ([name l] & Hin & H). apply in_map_iff in H.
      destruct H as (e & [= ->] & H).
      destruct (GetNamespaceAndPartition name) as [namespace pid] eqn:Hname.
      apply (proj1 (checkLocalNamespace_Destroy_iff myNode
                      ExtractRegIDFromGenID APIGetMembers GetNamespaceNode
                      GetNodeInfo GetNamespacePartInfo GetNamespaceMetaInfo
                      GetNamespaceAndPartition name namespace pid l n Hname))
        in H.
      destruct H as (-> & Hns & Hpart & Hmeta).
      exists name. split; [exact Hin |]. exists namespace, pid. auto.
    - intros (name & Hin & namespace & pid & Hname & Hns & Hpart & Hmeta).
      exists (name, n). split; [exact Hin |].
      apply in_map.
      apply (proj2 (checkLocalNamespace_Destroy_iff myNode
                      ExtractRegIDFromGenID APIGetMembers GetNamespaceNode
                      GetNodeInfo GetNamespacePartInfo GetNamespaceMetaInfo
                      GetNamespaceAndPartition name namespace pid n n Hname)).
      auto. }
  destruct r as [err|]; simpl.
  - destruct (DataCoordinator.hasNSMgr c || nilNSMgrCallReturns); simpl.
    + split.
      * intros H. apply in_app_iff in H.
        destruct H as [H | H]; [destruct (Hload H) |].
        exact (proj1 Hloop H).
      * intros _ name Hin Hlost. apply in_app_iff. right.
        apply (proj2 Hloop). exists name. exact (conj Hin Hlost).
    + split; [intros H; destruct (Hload H) | discriminate].
  - split; [intros H; destruct (Hload H) | discriminate].
Qed.


End LoadPass.

(** ** The peers that [isMeInRaftGroup] asks *)

Lemma isMeInRaftGroup_from_ext (myNode : NodeInfo.t)
    (api1 api2 : string -> string -> string + list MemberInfo.t)
    (nsInfo : PartitionMetaInfo.t) (isr : list string)
    (lastErr : option string) :
  (forall remoteNode,
     In remoteNode isr ->
     remoteNode <> GetMyID myNode ->
     api1 remoteNode (PartitionMetaInfo.GetDesp nsInfo)
     = api2 remoteNode (PartitionMetaInfo.GetDesp nsInfo)) ->
  isMeInRaftGroup_from myNode api1 nsInfo isr lastErr
  = isMeInRaftGroup_from myNode api2 nsInfo isr lastErr.
Proof.
  revert lastErr.
  induction isr as [|r rest IH]; intros lastErr Hsame; simpl;
    [reflexivity |].
  assert (forall e, isMeInRaftGroup_from myNode api1 nsInfo rest e
                    = isMeInRaftGroup_from myNode api2 nsInfo rest e) as IH'.
  { intros e. apply IH. intros x Hx. apply Hsame. now right. }
  destruct (String.eqb r (GetMyID myNode)) eqn:E; [apply IH' |].
  apply String.eqb_neq in E.
  rewrite <- (Hsame r (or_introl eq_refl) E).
  destruct (api1 r (PartitionMetaInfo.GetDesp nsInfo)) as [err | rsp];
    [apply IH' |].
  destruct (existsb _ rsp); [reflexivity | apply IH'].
Qed.

(** X24: [isMeInRaftGroup] asks only the nodes of the ISR other than
    self, and only for the members of this partition: its answer and
    its error are the same for any two behaviours of the peers that
    agree on those requests, whatever self or a node outside the ISR
    would answer. *)
Theorem isMeInRaftGroup_asks_isr_peers (myNode : NodeInfo.t)
    (api1 api2 : string -> string -> string + list MemberInfo.t)
    (nsInfo : PartitionMetaInfo.t) :
  (forall remoteNode,
     In remoteNode (PartitionMetaInfo.GetISR nsInfo) ->
     remoteNode <> GetMyID myNode ->
     api1 remoteNode (PartitionMetaInfo.GetDesp nsInfo)
     = api2 remoteNode (PartitionMetaInfo.GetDesp nsInfo)) ->
  isMeInRaftGroup myNode api1 nsInfo = isMeInRaftGroup myNode api2 nsInfo.
Proof.
  intros Hsame. unfold isMeInRaftGroup. now apply isMeInRaftGroup_from_ext.
Qed.

(** ** More scenarios *)

Definition nodeA : NodeInfo.t := exNode "A" "10.0.0.1" 1.

(** The members without [C]. *)
Definition exMembersAB : list MemberInfo.t := [exMember 1 1; exMember 2 2].

(** The healthy meta with [B] at the head of the ISR. *)
Definition metaLedByB : PartitionMetaInfo.t := exMeta ["B"; "A"; "C"] [].

(** A namespace manager without local replicas. *)
Definition noLocal (desp : string) : option NamespaceNode.t := None.

(** Peers that answer as [peersWithB], except that [B] itself is not
    reachable. *)
Definition peersButB (remote desp : string) : string + list MemberInfo.t :=
  if String.eqb remote "B" then inl "connection refused"
  else peersWithB remote desp.

(** A registry that is gone. *)
Definition exMissingPartInfo (namespace : string) (pid : Z)
    : RegisterErr + PartitionMetaInfo.t :=
  inl ErrKeyNotFound.

Definition exMissingMetaInfo (namespace : string)
    : RegisterErr + NamespaceMetaInfo.t :=
  inl ErrKeyNotFound.

(** A registry that answers for every partition number, also a
    negative one. *)
Definition exAnyPartInfo (namespace : string) (pid : Z)
    : RegisterErr + PartitionMetaInfo.t :=
  inr metaHealthy.

Definition exThreePartitions (namespace : string)
    : RegisterErr + NamespaceMetaInfo.t :=
  inr (NamespaceMetaInfo.mk 3).

(** A namespace manager and replicas that accept everything. *)
Definition exCheckMagicCode (desp : string) (magicCode : Z) (tryFix : bool)
    : option string := None.

Definition exInitNamespaceNode (nsConf : NamespaceConfig.t) (raftID : Z)
    : option NamespaceNode.t := Some (exLocal []).

Definition exCheckRaftConf (n : NamespaceNode.t) (raftID : Z)
    (nsConf : NamespaceConfig.t) : option string := None.

Definition exSetMagicCode (n : NamespaceNode.t) (magicCode : Z)
    : option string := None.

Definition exStartNode (n : NamespaceNode.t) : option string := None.

(** One turn of the join loop, in which the node has not joined. *)
Definition exJoinObservations (nsInfo : PartitionMetaInfo.t)
    : list JoinObs.t := [JoinObs.mk [] false false].

Definition exSortParts (parts : list PartitionMetaInfo.t)
    : list PartitionMetaInfo.t := parts.

(** The registry fails to list the namespaces. *)
Definition exListingFails
    : RegisterErr + list (string * list (Z * PartitionMetaInfo.t)) :=
  inl (ErrRegister "registry unavailable").

(** The coordinator after a [Start] that failed in the load. *)
Definition coordStartFailed : DataCoordinator.t :=
  DataCoordinator.mk true true 0 true.

(** ** Witnesses of the further properties *)

(** [syncMembers_additions], when the members lack [C]. *)
Lemma syncMembers_additions_witness :
  exists nid rid raddr,
    In (nid, rid) (PartitionMetaInfo.RaftIDs metaLedByB)
    /\ MemberInfo.mk 3 3 100 "ns-0" ["10.0.0.3:12380"]
       = missingMember exRegID metaLedByB nid rid raddr.
Proof.
  assert (In (ProposeAddMember (MemberInfo.mk 3 3 100 "ns-0" ["10.0.0.3:12380"]))
            (syncMembers exRegID (exMgr exMembersAB) exGetNodeInfo metaLedByB
               true)) as H
    by (vm_compute; left; reflexivity).
  destruct (syncMembers_additions exRegID (exMgr exMembersAB) exGetNodeInfo
              metaLedByB true _ H)
    as (nid & rid & raddr & Hin & _ & _ & Hm & _).
  exists nid, rid, raddr. exact (conj Hin Hm).
Defined.

(** [syncMembers_removals], with a member that the meta does not list. *)
Lemma syncMembers_removals_witness :
  In (ProposeRemoveMember (exMember 9 9))
    (syncMembers exRegID (exMgr exMembersExtra) exGetNodeInfo metaLedByB true).
Proof.
  refine (proj2 (syncMembers_removals exRegID (exMgr exMembersExtra)
                   exGetNodeInfo metaLedByB true) _ _ _ (exMember 9 9) _).
  - intros nid rid H. simpl in H.
    repeat (destruct H as [H | H]; [injection H as <- <-; reflexivity |]).
    destruct H.
  - reflexivity.
  - reflexivity.
  - split; [simpl; auto 6 | left; reflexivity].
Defined.

(** [syncMembers_converged], with the three replicas as members. *)
Lemma syncMembers_converged_witness :
  syncMembers exRegID (exMgr exMembers) exGetNodeInfo metaLedByB true
  = [TryCheckNamespaces].
Proof.
  refine (syncMembers_converged exRegID (exMgr exMembers) exGetNodeInfo
            metaLedByB true _ _).
  - intros nid rid H. simpl in H.
    repeat (destruct H as [H | H]; [injection H as <- <-; reflexivity |]).
    destruct H.
  - discriminate.
Defined.

(** [checkLocalNamespace_destroys], when the registry has lost the
    namespace. *)
Lemma checkLocalNamespace_destroys_witness :
  In (Destroy (exLocal exMembers))
    (checkLocalNamespace nodeB exRegID peersWithB (exMgr exMembers)
       exGetNodeInfo exMissingPartInfo exMissingMetaInfo
       exNamespaceAndPartition "ns-0" (exLocal exMembers)).
Proof.
  refine (proj2 (checkLocalNamespace_destroys nodeB exRegID peersWithB
                   (exMgr exMembers) exGetNodeInfo exMissingPartInfo
                   exMissingMetaInfo exNamespaceAndPartition "ns-0" "ns" 0
                   (exLocal exMembers) (exLocal exMembers) _) _).
  - reflexivity.
  - repeat split. discriminate.
Defined.

(** [checkLocalNamespace_follower_passive], on node [A] while [B]
    leads. *)
Lemma checkLocalNamespace_follower_passive_witness :
  checkLocalNamespace nodeA exRegID peersWithB (exMgr exMembers)
    exGetNodeInfo (exPartInfo metaHealthy) exMetaInfo
    exNamespaceAndPartition "ns-0" (exLocal exMembers)
  = [].
Proof.
  refine (checkLocalNamespace_follower_passive nodeA exRegID peersWithB
            (exMgr exMembers) exGetNodeInfo (exPartInfo metaHealthy)
            exMetaInfo exNamespaceAndPartition "ns-0" "ns" 0
            (exLocal exMembers) metaHealthy _ _ _).
  - reflexivity.
  - reflexivity.
  - right. split; [discriminate | simpl; auto].
Defined.

(** [checkLocalNamespace_outside_isr], at the draining meta. *)
Lemma checkLocalNamespace_outside_isr_witness :
  checkLocalNamespace nodeB exRegID peersWithB (exMgr exMembers)
    exGetNodeInfo (exPartInfo metaDraining) exMetaInfo
    exNamespaceAndPartition "ns-0" (exLocal exMembers)
  = [ProposeRemoveMember (exMember 2 2)].
Proof.
  refine (checkLocalNamespace_outside_isr nodeB exRegID peersWithB
            (exMgr exMembers) exGetNodeInfo (exPartInfo metaDraining)
            exMetaInfo exNamespaceAndPartition "ns-0" "ns" 0
            (exLocal exMembers) metaDraining _ _ _ _ _ _).
  - reflexivity.
  - discriminate.
  - reflexivity.
  - discriminate.
  - simpl. intros [H | [H | []]]; discriminate.
  - discriminate.
Defined.

(** [ensureJoinNamespaceGroup_releases], at the largest [int32]. *)
Lemma ensureJoinNamespaceGroup_releases_witness :
  fst (fst (ensureJoinNamespaceGroup nodeB exRegID exFill 2147483647
              metaHealthy [JoinObs.mk [] false false]))
  = 2147483647.
Proof.
  refine (ensureJoinNamespaceGroup_releases nodeB exRegID exFill metaHealthy
            2147483647 [JoinObs.mk [] false false] _).
  split; [discriminate | reflexivity].
Defined.

(** [ensureJoinNamespaceGroup_success], when the first turn finds the
    node joined and synced. *)
Lemma ensureJoinNamespaceGroup_success_witness :
  exists obs,
    In obs [JoinObs.mk exMembers true false]
    /\ alreadyJoined nodeB metaHealthy
         (PartitionMetaInfo.RaftID metaHealthy (GetMyID nodeB))
         (JoinObs.Members obs) = true
    /\ JoinObs.RaftSynced obs = true.
Proof.
  refine (ensureJoinNamespaceGroup_success nodeB exRegID exFill metaHealthy 0
            [JoinObs.mk exMembers true false] _ _ _).
  - reflexivity.
  - discriminate.
  - reflexivity.
Defined.

(** [ensureJoinNamespaceGroup_posts], for the request of a fresh
    join. *)
Lemma ensureJoinNamespaceGroup_posts_witness :
  "A" <> GetMyID nodeB /\ In "A" (joinCandidates metaHealthy).
Proof.
  assert (In (PostAddNode "A"
                (MemberInfo.mk 2 2 100 "ns-0" ["http://10.0.0.2:12380"]))
            (snd (fst (ensureJoinNamespaceGroup nodeB exRegID exFill 0
                         metaHealthy [JoinObs.mk [] false false])))) as H
    by (vm_compute; right; left; reflexivity).
  destruct (ensureJoinNamespaceGroup_posts nodeB exRegID exFill metaHealthy 0
              [JoinObs.mk [] false false] "A" _ H) as (Hne & Hin & _).
  exact (conj Hne Hin).
Defined.

(** [prepareNamespaceConf_self_seed], at the healthy meta. *)
Lemma prepareNamespaceConf_self_seed_witness :
  exists nsConf,
    prepareNamespaceConf nodeB exRegID exGetNodeInfo metaHealthy = inr nsConf
    /\ In (ReplicaInfo.mk (GetMyRegID nodeB) 2
             (NodeInfo.RaftTransportAddr nodeB))
         (NamespaceConfig.SeedNodes nsConf).
Proof.
  refine (prepareNamespaceConf_self_seed nodeB exRegID exGetNodeInfo
            metaHealthy 2 _ _).
  - simpl. auto.
  - reflexivity.
Defined.

(** [leavePartition_transfer], when [B] leads the healthy partition. *)
Lemma leavePartition_transfer_witness :
  exists newLeader toRaftID,
    newLeader <> GetMyID nodeB
    /\ [TransferMyLeader 1 1]
       = [TransferMyLeader (exRegID newLeader) toRaftID].
Proof.
  destruct (leavePartition_transfer nodeB exRegID (exMgr exMembers) false
              coordRunning metaHealthy [TransferMyLeader 1 1] eq_refl)
    as [H | (before & newLeader & rest & toRaftID & _ & _ & Hne & _ & He & _)].
  - discriminate H.
  - exists newLeader, toRaftID. exact (conj Hne He).
Defined.

(** [Stop_trace], on the running coordinator. *)
Lemma Stop_trace_witness :
  exists transfers,
    (List.length transfers <= List.length (allPartitions exAllNamespaces))%nat
    /\ [TransferMyLeader 1 1; StopNamespaceMgr; Unregister; StopRegister;
        CloseStopChan; WaitWorkers]
       = transfers ++ [StopNamespaceMgr]
         ++ [Unregister; StopRegister; CloseStopChan; WaitWorkers].
Proof.
  destruct (Stop_trace nodeB exRegID (exMgr exMembers) exAllNamespaces false
              coordRunning coordStopped
              [TransferMyLeader 1 1; StopNamespaceMgr; Unregister;
               StopRegister; CloseStopChan; WaitWorkers])
    as (transfers & _ & Hlen & Hevs).
  - reflexivity.
  - discriminate.
  - exists transfers. exact (conj Hlen Hevs).
Defined.

(** [Stats_negative_part], for a namespace of three partitions. *)
Lemma Stats_negative_part_witness :
  Stats exAnyPartInfo exThreePartitions "ns" (-1)
  = repeat
      (NamespaceCoordStat.mk "ns" 0
         [ISRStat.mk "" "A"; ISRStat.mk "" "B"; ISRStat.mk "" "C"])
      3.
Proof.
  refine (Stats_negative_part exAnyPartInfo exThreePartitions "ns" (-1)
            (NamespaceMetaInfo.mk 3) _ _ _).
  - discriminate.
  - reflexivity.
  - reflexivity.
Defined.

(** [GetSnapshotSyncInfo_spec], at the healthy meta. *)
Lemma GetSnapshotSyncInfo_spec_witness :
  exists ssiList,
    GetSnapshotSyncInfo exGetNodeInfo (exPartInfo metaHealthy)
      exNamespaceAndPartition "ns-0" = inr ssiList
    /\ map SnapshotSyncInfo.ReplicaID ssiList
       = map (fun p => PartitionMetaInfo.RaftID metaHealthy (fst p))
           (resolvedNodes exGetNodeInfo (PartitionMetaInfo.GetISR metaHealthy)).
Proof.
  destruct (GetSnapshotSyncInfo_spec exGetNodeInfo (exPartInfo metaHealthy)
              exNamespaceAndPartition "ns-0" "ns" 0 metaHealthy)
    as (ssiList & Hres & _ & Hids & _).
  - reflexivity.
  - discriminate.
  - reflexivity.
  - exists ssiList. exact (conj Hres Hids).
Defined.

(** [loadPartition_creates], for a partition without a local replica. *)
Lemma loadPartition_creates_witness :
  isNamespaceShouldStart nodeB peersWithB metaHealthy = true
  /\ prepareNamespaceConf nodeB exRegID exGetNodeInfo metaHealthy = inr exConf.
Proof.
  assert (In (InitNamespaceNode exConf 2)
            (snd (fst (loadPartition nodeB exRegID peersWithB noLocal
                         exGetNodeInfo exFill exCheckMagicCode
                         exInitNamespaceNode exCheckRaftConf exSetMagicCode
                         exStartNode exJoinObservations "ns" metaHealthy 0))))
    as H by (vm_compute; left; reflexivity).
  destruct (loadPartition_creates nodeB exRegID peersWithB noLocal
              exGetNodeInfo exFill exCheckMagicCode exInitNamespaceNode
              exCheckRaftConf exSetMagicCode exStartNode exJoinObservations
              "ns" metaHealthy 0 exConf 2 H)
    as (Hstart & _ & _ & _ & _ & Hconf).
  exact (conj Hstart Hconf).
Defined.

(** [loadPartition_not_wanted], at the draining meta when no peer
    lists [B]. *)
Lemma loadPartition_not_wanted_witness :
  loadPartition nodeB exRegID peersWithoutB (exMgr exMembers) exGetNodeInfo
    exFill exCheckMagicCode exInitNamespaceNode exCheckRaftConf
    exSetMagicCode exStartNode exJoinObservations "ns" metaDraining 0
  = (0, [], Returns Continue).
Proof.
  refine (loadPartition_not_wanted nodeB exRegID peersWithoutB
            (exMgr exMembers) exGetNodeInfo exFill exCheckMagicCode
            exInitNamespaceNode exCheckRaftConf exSetMagicCode exStartNode
            exJoinObservations "ns" metaDraining 0 _).
  reflexivity.
Defined.

(** [loadPartitions_break], when the join of the first partition does
    not converge. *)
Lemma loadPartitions_break_witness :
  loadPartitions nodeB exRegID peersWithB (exMgr []) exGetNodeInfo exFill
    exCheckMagicCode exInitNamespaceNode exCheckRaftConf exSetMagicCode
    exStartNode exJoinObservations "ns" [metaHealthy; metaHealthy] 0
  = (fst (fst (loadPartition nodeB exRegID peersWithB (exMgr [])
                 exGetNodeInfo exFill exCheckMagicCode exInitNamespaceNode
                 exCheckRaftConf exSetMagicCode exStartNode
                 exJoinObservations "ns" metaHealthy 0)),
     snd (fst (loadPartition nodeB exRegID peersWithB (exMgr [])
                 exGetNodeInfo exFill exCheckMagicCode exInitNamespaceNode
                 exCheckRaftConf exSetMagicCode exStartNode
                 exJoinObservations "ns" metaHealthy 0)),
     Returns tt).
Proof.
  refine (proj1 (loadPartitions_break nodeB exRegID peersWithB (exMgr [])
                   exGetNodeInfo exFill exCheckMagicCode exInitNamespaceNode
                   exCheckRaftConf exSetMagicCode exStartNode
                   exJoinObservations "ns" metaHealthy [metaHealthy] 0 _)).
  reflexivity.
Defined.

(** [Start_load_failure], when the registry cannot list the
    namespaces. *)
Lemma Start_load_failure_witness :
  Stop nodeB exRegID (exMgr exMembers) exListingFails false coordStartFailed
  = Panics.
Proof.
  refine (proj2 (proj2 (proj2 (proj2
            (Start_load_failure nodeB exRegID peersWithB (exMgr exMembers)
               exGetNodeInfo exListingFails exFill false exCheckMagicCode
               exInitNamespaceNode exCheckRaftConf exSetMagicCode exStartNode
               exJoinObservations exSortParts None coordRunning
               coordStartFailed 0 0
               [RegisterNode; StartNamespaceMgr; SpawnWatchPD;
                Coord CloseStopChan]
               (ErrRegister "registry unavailable") _)))) _).
  - reflexivity.
  - discriminate.
Defined.

(** [isMeInRaftGroup_asks_isr_peers], whether or not [B] would answer
    itself. *)
Lemma isMeInRaftGroup_asks_isr_peers_witness :
  isMeInRaftGroup nodeB peersWithB metaHealthy
  = isMeInRaftGroup nodeB peersButB metaHealthy.
Proof.
  refine (isMeInRaftGroup_asks_isr_peers nodeB peersWithB peersButB
            metaHealthy _).
  intros remoteNode _ Hne. unfold peersButB.
  destruct (String.eqb remoteNode "B") eqn:E; [| reflexivity].
  apply String.eqb_eq in E. contradiction.
Defined.


(** Names of local replicas: the partition 0 of [ns], and the
    partition 0 of a namespace [old] that the registry does not have. *)
Definition exNames (name : string) : string * Z :=
  if String.eqb name "ns-0" then ("ns", 0)
  else if String.eqb name "old-0" then ("old", 0)
  else ("", 0).

(** The replica that is left of [old]. *)
Definition exStale : NamespaceNode.t :=
  NamespaceNode.mk [] None (exMember 7 2) false None.

Definition exLocalReplicas : list (string * NamespaceNode.t) :=
  [("ns-0", exLocal exMembers); ("old-0", exStale)].

(** [doWork_destroys]: the pass joins [ns-0] and destroys what is left
    of [old-0]. *)
Lemma doWork_destroys_witness :
  In (Coord (Destroy exStale))
    (snd (fst (doWork nodeB exRegID peersWithB (exMgr exMembers)
                 exGetNodeInfo exAllNamespaces exFill false exCheckMagicCode
                 exInitNamespaceNode exCheckRaftConf exSetMagicCode
                 exStartNode exJoinObservations exSortParts
                 (exPartInfo metaHealthy) exMetaInfo exNames exLocalReplicas
                 coordRunning 0))).
Proof.
  refine (proj2 (doWork_destroys nodeB exRegID peersWithB (exMgr exMembers)
                   exGetNodeInfo exAllNamespaces exFill false exCheckMagicCode
                   exInitNamespaceNode exCheckRaftConf exSetMagicCode
                   exStartNode exJoinObservations exSortParts
                   (exPartInfo metaHealthy) exMetaInfo exNames exLocalReplicas
                   coordRunning 0 exStale _) _ "old-0" _ _).
  - reflexivity.
  - reflexivity.
  - simpl. auto.
  - exists "old", 0. repeat split. discriminate.
Defined.
